(** * list_lib.c: a doubly linked list of heap-allocated strings

    Shallow embedding of the list library of [src/list_lib.c] and of the
    print walk of its test suite, followed by the properties of the
    library that the specification states.

    Memory is explicit.  A pointer is [option positive], [None] being
    [NULL].  Node structures, character blocks and [List] structures
    live in three typed stores; dereferencing [NULL] or a location that
    is not allocated is undefined behaviour and is reported as [Fault].
    The three [while] loops of the source walk the heap, so they take a
    bound on the number of iterations and report [Timeout] past it. *)

From Stdlib Require Import ZArith.
From stdpp Require Import gmap strings list fin_maps pretty.

Local Open Scope Z_scope.

Abbreviation loc := positive (only parsing).
Abbreviation ptr := (option positive) (only parsing).

(** ** Data model *)

(** [struct Node { Node *prev; Node *next; char *data; }] *)
Record Node : Type := mkNode {
  prev : ptr;
  next : ptr;
  data : ptr
}.

(** [typedef struct { Node *head; Node *last; } List] *)
Record List : Type := mkList {
  head : ptr;
  last : ptr
}.

(** [typedef enum { ALLOC_FAIL, LEN_INVALID, NULL_PTR } Error]:
    a C enumeration numbers its constants from zero. *)
Inductive Error : Type := ALLOC_FAIL | LEN_INVALID | NULL_PTR.

Definition Error_value (e : Error) : Z :=
  match e with
  | ALLOC_FAIL => 0
  | LEN_INVALID => 1
  | NULL_PTR => 2
  end.

(** [const char *ERROR[]] *)
Definition ERROR (e : Error) : string :=
  match e with
  | ALLOC_FAIL => "Dynamic memory allocation failed."
  | LEN_INVALID => "Tried to initialize something with negative length."
  | NULL_PTR => "Function received null pointer argument."
  end.

(** The machine state: the three stores, the outcomes of the coming
    calls of [malloc] ([true]: a block is returned; [false], or no entry
    left: [NULL] is returned), and what was written to the two output
    streams, one entry per line. *)
Record Mem : Type := mkMem {
  nodes : gmap positive Node;
  chars : gmap positive string;
  lists : gmap positive List;
  avail : list bool;
  stderr : list string;
  stdout : list string
}.

Definition upd_nodes (f : gmap positive Node → gmap positive Node) (m : Mem) : Mem :=
  mkMem (f (nodes m)) (chars m) (lists m) (avail m) (stderr m) (stdout m).

Definition upd_chars (f : gmap positive string → gmap positive string) (m : Mem) : Mem :=
  mkMem (nodes m) (f (chars m)) (lists m) (avail m) (stderr m) (stdout m).

Definition upd_lists (f : gmap positive List → gmap positive List) (m : Mem) : Mem :=
  mkMem (nodes m) (chars m) (f (lists m)) (avail m) (stderr m) (stdout m).

Definition upd_avail (f : list bool → list bool) (m : Mem) : Mem :=
  mkMem (nodes m) (chars m) (lists m) (f (avail m)) (stderr m) (stdout m).

Definition upd_stderr (f : list string → list string) (m : Mem) : Mem :=
  mkMem (nodes m) (chars m) (lists m) (avail m) (f (stderr m)) (stdout m).

Definition upd_stdout (f : list string → list string) (m : Mem) : Mem :=
  mkMem (nodes m) (chars m) (lists m) (avail m) (stderr m) (f (stdout m)).

(** ** The monad of C statements *)

Inductive outcome (A : Type) : Type :=
  | Done (a : A) (m : Mem)
  | Fault
  | Timeout.
Arguments Done {A} a m.
Arguments Fault {A}.
Arguments Timeout {A}.

Definition M (A : Type) : Type := Mem → outcome A.

Definition ret {A} (a : A) : M A := fun m => Done a m.

Definition bind {A B} (c : M A) (k : A → M B) : M B :=
  fun m =>
    match c m with
    | Done a m' => k a m'
    | Fault => Fault
    | Timeout => Timeout
    end.

Definition fault {A} : M A := fun _ => Fault.
Definition timeout {A} : M A := fun _ => Timeout.

Notation "'let*' x ':=' c 'in' k" := (bind c (fun x => k))
  (at level 10, x name, c at level 100, k at level 200).
Notation "c '>>' k" := (bind c (fun _ => k))
  (at level 100, k at level 200, right associativity).

Definition is_null {A} (p : option A) : bool :=
  match p with
  | None => true
  | Some _ => false
  end.

(** *** Loads and stores *)

Definition load_node (p : ptr) : M Node := fun m =>
  match p with
  | None => Fault
  | Some a =>
      match nodes m !! a with
      | Some nd => Done nd m
      | None => Fault
      end
  end.

Definition store_node (p : ptr) (f : Node → Node) : M unit := fun m =>
  match p with
  | None => Fault
  | Some a =>
      match nodes m !! a with
      | Some nd => Done tt (upd_nodes (insert a (f nd)) m)
      | None => Fault
      end
  end.

Definition load_list (p : ptr) : M List := fun m =>
  match p with
  | None => Fault
  | Some a =>
      match lists m !! a with
      | Some L => Done L m
      | None => Fault
      end
  end.

Definition store_list (p : ptr) (f : List → List) : M unit := fun m =>
  match p with
  | None => Fault
  | Some a =>
      match lists m !! a with
      | Some L => Done tt (upd_lists (insert a (f L)) m)
      | None => Fault
      end
  end.

Definition load_chars (p : ptr) : M string := fun m =>
  match p with
  | None => Fault
  | Some a =>
      match chars m !! a with
      | Some s => Done s m
      | None => Fault
      end
  end.

Definition store_chars (p : ptr) (s : string) : M unit := fun m =>
  match p with
  | None => Fault
  | Some a =>
      match chars m !! a with
      | Some _ => Done tt (upd_chars (insert a s) m)
      | None => Fault
      end
  end.

(** [p->prev], [p->next], [p->data], [l->head], [l->last] as values *)
Definition get_prev (p : ptr) : M ptr := let* nd := load_node p in ret (prev nd).
Definition get_next (p : ptr) : M ptr := let* nd := load_node p in ret (next nd).
Definition get_data (p : ptr) : M ptr := let* nd := load_node p in ret (data nd).
Definition get_head (l : ptr) : M ptr := let* L := load_list l in ret (head L).
Definition get_last (l : ptr) : M ptr := let* L := load_list l in ret (last L).

(** [p->prev = v] and the like *)
Definition set_prev (p v : ptr) : M unit :=
  store_node p (fun nd => mkNode v (next nd) (data nd)).
Definition set_next (p v : ptr) : M unit :=
  store_node p (fun nd => mkNode (prev nd) v (data nd)).
Definition set_data (p v : ptr) : M unit :=
  store_node p (fun nd => mkNode (prev nd) (next nd) v).
Definition set_head (l v : ptr) : M unit :=
  store_list l (fun L => mkList v (last L)).
Definition set_last (l v : ptr) : M unit :=
  store_list l (fun L => mkList (head L) v).

(** [free]: nothing on [NULL], undefined on a block that is not
    allocated. *)
Definition free_node (p : ptr) : M unit := fun m =>
  match p with
  | None => Done tt m
  | Some a =>
      match nodes m !! a with
      | Some _ => Done tt (upd_nodes (delete a) m)
      | None => Fault
      end
  end.

Definition free_chars (p : ptr) : M unit := fun m =>
  match p with
  | None => Done tt m
  | Some a =>
      match chars m !! a with
      | Some _ => Done tt (upd_chars (delete a) m)
      | None => Fault
      end
  end.

(** [strlen(s)] and [strcpy(dst, s)], [s] a string of the caller *)
Definition strlen (s : option string) : M nat :=
  match s with
  | None => fault
  | Some s' => ret (String.length s')
  end.

Definition strcpy (dst : ptr) (s : option string) : M unit :=
  match s with
  | None => fault
  | Some s' => store_chars dst s'
  end.

(** [fprintf(stderr, "list_lib error: %s\n", ERROR[e])] *)
Definition print_error (e : Error) : M unit := fun m =>
  Done tt (upd_stderr (fun out => out ++ [("list_lib error: " +:+ ERROR e)%string]) m).

(** [puts(s)] *)
Definition puts (s : string) : M unit := fun m =>
  Done tt (upd_stdout (fun out => out ++ [s]) m).

(** ** The library *)

(** [int insert_after(List *list, Node *node, Node *new_node)] *)
Definition insert_after (list node new_node : ptr) : M Z :=
  if is_null list || is_null node || is_null new_node then
    print_error NULL_PTR >> ret (Error_value NULL_PTR)
  else
    set_prev new_node node >>
    let* nx := get_next node in
    (if is_null nx then
       set_next new_node None >>
       set_last list new_node
     else
       (let* nx' := get_next node in set_next new_node nx') >>
       let* nx'' := get_next node in set_prev nx'' new_node) >>
    set_next node new_node >>
    ret 0.

(** [int insert_before(List *list, Node *node, Node *new_node)] *)
Definition insert_before (list node new_node : ptr) : M Z :=
  if is_null list || is_null node || is_null new_node then
    print_error NULL_PTR >> ret (Error_value NULL_PTR)
  else
    set_next new_node node >>
    let* pv := get_prev node in
    (if is_null pv then
       set_prev new_node None >>
       set_head list new_node
     else
       (let* pv' := get_prev node in set_prev new_node pv') >>
       let* pv'' := get_prev node in set_next pv'' new_node) >>
    set_prev node new_node >>
    ret 0.

(** [int insert_front(List *list, Node *new_node)] *)
Definition insert_front (list new_node : ptr) : M Z :=
  if is_null list || is_null new_node then
    print_error NULL_PTR >> ret (Error_value NULL_PTR)
  else
    let* h := get_head list in
    (if is_null h then
       set_head list new_node >>
       set_last list new_node >>
       set_prev new_node None >>
       set_next new_node None
     else
       let* h' := get_head list in
       insert_before list h' new_node >> ret tt) >>
    ret 0.

(** [int insert_end(List *list, Node *new_node)] *)
Definition insert_end (list new_node : ptr) : M Z :=
  if is_null list || is_null new_node then
    print_error NULL_PTR >> ret (Error_value NULL_PTR)
  else
    let* t := get_last list in
    (if is_null t then
       insert_front list new_node >> ret tt
     else
       let* t' := get_last list in
       insert_after list t' new_node >> ret tt) >>
    ret 0.

(** [int remove_node(List *list, Node *node)] *)
Definition remove_node (list node : ptr) : M Z :=
  if is_null list || is_null node then
    print_error NULL_PTR >> ret (Error_value NULL_PTR)
  else
    let* pv := get_prev node in
    (if is_null pv then
       let* nx := get_next node in set_head list nx
     else
       let* pv' := get_prev node in
       let* nx := get_next node in
       set_next pv' nx) >>
    let* nx := get_next node in
    (if is_null nx then
       let* pv' := get_prev node in set_last list pv'
     else
       let* nx' := get_next node in
       let* pv' := get_prev node in
       set_prev nx' pv') >>
    (let* d := get_data node in free_chars d) >>
    free_node node >>
    ret 0.

(** [strcmp(p, s) == 0], [p] a block of the store and [s] a string of
    the caller. *)
Definition strcmp_eq (p : ptr) (s : option string) : M bool :=
  let* t := load_chars p in
  match s with
  | None => fault
  | Some s' => ret (String.eqb t s')
  end.

(** The loop of [find]: [while (i != NULL) { ... i = i->next; }] *)
Fixpoint find_loop (fuel : nat) (i : ptr) (target : option string) : M ptr :=
  match i with
  | None => ret None
  | Some _ =>
      match fuel with
      | O => timeout
      | S fuel' =>
          let* d := get_data i in
          let* same := strcmp_eq d target in
          if same then ret i
          else
            let* nx := get_next i in
            find_loop fuel' nx target
      end
  end.

(** [Node *find(const List *list, const char *data)] *)
Definition find (fuel : nat) (list : ptr) (target : option string) : M ptr :=
  if is_null list || is_null target then
    print_error NULL_PTR >> ret None
  else
    let* i := get_head list in
    find_loop fuel i target.

(** The loop of [dealloc_list] *)
Fixpoint dealloc_loop (fuel : nat) (i : ptr) : M unit :=
  match i with
  | None => ret tt
  | Some _ =>
      match fuel with
      | O => timeout
      | S fuel' =>
          let* tmp := get_next i in
          (let* d := get_data i in free_chars d) >>
          free_node i >>
          dealloc_loop fuel' tmp
      end
  end.

(** [void dealloc_list(List *list)] *)
Definition dealloc_list (fuel : nat) (list : ptr) : M unit :=
  if is_null list then ret tt
  else
    let* i := get_head list in
    dealloc_loop fuel i.

(** The loop of [test_print_list] *)
Fixpoint print_loop (fuel : nat) (i : ptr) : M unit :=
  match i with
  | None => ret tt
  | Some _ =>
      match fuel with
      | O => timeout
      | S fuel' =>
          (let* d := get_data i in
           let* s := load_chars d in
           puts s) >>
          let* nx := get_next i in
          print_loop fuel' nx
      end
  end.

(** [void test_print_list(List *list)] *)
Definition test_print_list (fuel : nat) (list : ptr) : M unit :=
  let* i := get_head list in
  puts "==== List start ====" >>
  print_loop fuel i >>
  puts "==== List end ====".

Section Allocator.

(** [malloc] returns [NULL] or a block.  Which block is the allocator's
    choice, [pick], given the live blocks of the store it allocates in;
    the properties below are proved for every [pick] that returns a
    block that is not live.  The fields of a new node and the contents
    of a new block are indeterminate in C; here they are absent links
    and the empty string, and [make_node] writes all of them before
    they are read. *)
Variable pick : gset positive → positive.

Definition malloc_node : M ptr := fun m =>
  match avail m with
  | true :: rest =>
      let a := pick (dom (nodes m)) in
      Done (Some a)
        (upd_avail (fun _ => rest) (upd_nodes (insert a (mkNode None None None)) m))
  | _ => Done None (upd_avail (fun o => tail o) m)
  end.

Definition malloc_chars (bytes : nat) : M ptr := fun m =>
  match avail m with
  | true :: rest =>
      let a := pick (dom (chars m)) in
      Done (Some a) (upd_avail (fun _ => rest) (upd_chars (insert a EmptyString) m))
  | _ => Done None (upd_avail (fun o => tail o) m)
  end.

(** [Node *make_node(const char *data)] *)
Definition make_node (s : option string) : M ptr :=
  let* new_node := malloc_node in
  if is_null new_node then
    print_error ALLOC_FAIL >> ret None
  else
    let* len := strlen s in
    let bytes := (len + 1)%nat in
    (let* d := malloc_chars bytes in set_data new_node d) >>
    let* d' := get_data new_node in
    if is_null d' then
      print_error ALLOC_FAIL >>
      free_node new_node >>
      ret None
    else
      set_next new_node None >>
      set_prev new_node None >>
      (let* d'' := get_data new_node in strcpy d'' s) >>
      ret new_node.

(** The loop of [init_list]; [k] iterations are left, [i] is the loop
    counter. *)
Fixpoint init_loop (fuel : nat) (list : ptr) (arr : Datatypes.list (option string))
    (k : nat) (i : nat) : M Z :=
  match k with
  | O => ret 0
  | S k' =>
      match arr !! i with
      | None => fault
      | Some s =>
          let* new_node := make_node s in
          if is_null new_node then
            dealloc_list fuel list >>
            ret (Error_value ALLOC_FAIL)
          else
            insert_end list new_node >>
            init_loop fuel list arr k' (S i)
      end
  end.

(** [int init_list(List *list, const char *data[], int data_len)] *)
Definition init_list (fuel : nat) (list : ptr)
    (arr : option (Datatypes.list (option string))) (data_len : Z) : M Z :=
  match arr with
  | None => print_error NULL_PTR >> ret (Error_value NULL_PTR)
  | Some strs =>
      if data_len <? 0 then
        print_error LEN_INVALID >> ret (Error_value LEN_INVALID)
      else
        set_head list None >>
        set_last list None >>
        init_loop fuel list strs (Z.to_nat data_len) 0%nat
  end.

End Allocator.

(** ** The invariants of the data model *)

(** The first node of [xs], or [q] when there is none; the last node of
    [xs], or [p] when there is none. *)
Definition first_or (xs : list positive) (q : ptr) : ptr :=
  match xs with
  | [] => q
  | a :: _ => Some a
  end.

Definition last_or (xs : list positive) (p : ptr) : ptr :=
  match list.last xs with
  | None => p
  | Some a => Some a
  end.

(** [seg h p xs q]: in the node store [h] the nodes [xs] are linked in
    this order in both directions, the first one coming after [p] and
    the last one before [q]: [prev] of each node is the node before it
    ([p] for the first) and [next] the node after it ([q] for the
    last). *)
Fixpoint seg (h : gmap positive Node) (p : ptr) (xs : list positive) (q : ptr) : Prop :=
  match xs with
  | [] => True
  | a :: rest =>
      (∃ nd, h !! a = Some nd ∧ prev nd = p ∧ next nd = first_or rest q) ∧
      seg h (Some a) rest q
  end.

(** The invariants of a list: the list structure [L] holds the chain
    [xs].  [head] is its first node and [last] its final one, both
    absent exactly when there is none (invariant 1); following [next]
    from [head] visits [xs] and then ends, following [prev] from [last]
    visits it backwards and then ends, each link being the inverse of
    the other (invariants 2 and 3); no node occurs twice (invariant
    4). *)
Record dll (m : Mem) (L : List) (xs : list positive) : Prop := mk_dll {
  dll_head : head L = list.head xs;
  dll_last : last L = list.last xs;
  dll_nodup : NoDup xs;
  dll_links : seg (nodes m) None xs None
}.

(** A node together with the block of its string and the string. *)
Record cell : Type := mkCell {
  addr : positive;
  blk : positive;
  str : string
}.

Definition owns (m : Mem) (c : cell) : Prop :=
  ∃ nd, nodes m !! addr c = Some nd ∧ data nd = Some (blk c) ∧
        chars m !! blk c = Some (str c).

(** A well-formed list of strings: a chain in which every node owns a
    block of its own, holding its string. *)
Record is_list (m : Mem) (L : List) (cs : list cell) : Prop := mk_is_list {
  il_dll : dll m L (map addr cs);
  il_blocks : NoDup (map blk cs);
  il_owns : Forall (owns m) cs
}.

(** Two states that differ in the links of the nodes only: the same
    nodes are allocated and hold the same [data] pointers, and blocks,
    allocator and output streams are the same. *)
Record relinked (m m' : Mem) : Prop := mk_relinked {
  rl_data : ∀ a, data <$> (nodes m' !! a) = data <$> (nodes m !! a);
  rl_chars : chars m' = chars m;
  rl_avail : avail m' = avail m;
  rl_stderr : stderr m' = stderr m;
  rl_stdout : stdout m' = stdout m
}.

(** A state after [remove_node] freed the node [x] and the block [b]. *)
Record unlinked (x b : positive) (m m' : Mem) : Prop := mk_unlinked {
  ul_node : nodes m' !! x = None;
  ul_data : ∀ a, a ≠ x → data <$> (nodes m' !! a) = data <$> (nodes m !! a);
  ul_chars : chars m' = delete b (chars m);
  ul_avail : avail m' = avail m;
  ul_stderr : stderr m' = stderr m;
  ul_stdout : stdout m' = stdout m
}.

(** [built l m m' L' cs]: the state [m'] is the state [m] with, at the
    list structure [l], a well-formed list [cs] made of nodes and blocks
    that are not allocated in [m]; nothing that is allocated in [m] and
    no other list structure differs. *)
Record built (l : positive) (m m' : Mem) (L' : List) (cs : list cell) : Prop := mk_built {
  bt_list : lists m' !! l = Some L';
  bt_is_list : is_list m' L' cs;
  bt_nodes : ∀ a, a ∉ map addr cs → nodes m' !! a = nodes m !! a;
  bt_chars : ∀ b, b ∉ map blk cs → chars m' !! b = chars m !! b;
  bt_new : ∀ c, c ∈ cs → nodes m !! addr c = None ∧ chars m !! blk c = None;
  bt_lists : ∀ l', l' ≠ l → lists m' !! l' = lists m !! l';
  bt_stderr : stderr m' = stderr m
}.

(** What the test suite prints on the standard output: the lines of
    [test_print_list] for a list of strings, and the line of an
    assertion that holds. *)
Definition list_printed (strs : list string) : list string :=
  ["==== List start ===="%string] ++ strs ++ ["==== List end ===="%string].

Definition passed (test_name : string) : string := test_name +:+ ": " +:+ "PASS".

(** [clean_run m m' rest err out]: [m'] has the nodes, the blocks and
    the list structures of [m], the allocations still to come are
    [rest], and [err] and [out] were written to the two streams. *)
Record clean_run (m m' : Mem) (rest : list bool) (err out : list string) : Prop := mk_clean_run {
  cr_nodes : nodes m' = nodes m;
  cr_chars : chars m' = chars m;
  cr_lists : lists m' = lists m;
  cr_avail : avail m' = rest;
  cr_stderr : stderr m' = stderr m ++ err;
  cr_stdout : stdout m' = stdout m ++ out
}.

(** [runs t a n err out]: in every state in which the coming [n]
    allocations are granted, [t] ends and returns [a]; it has then used
    these [n] allocations and no other, it has written [err] and [out],
    and it leaves no node, no block and no list structure behind and
    has changed none. *)
Definition runs {A} (t : M A) (a : A) (n : nat) (err out : list string) : Prop :=
  ∀ m rest, avail m = repeat true n ++ rest →
    ∃ m', t m = Done a m' ∧ clean_run m m' rest err out.

(** The first cell of [cs] whose string is [t], as a pointer. *)
Fixpoint first_match (t : string) (cs : list cell) : ptr :=
  match cs with
  | [] => None
  | c :: cs' => if String.eqb (str c) t then Some (addr c) else first_match t cs'
  end.

(** [const char *TEST_DATA[]] and [DATA_LEN] of the test suite *)
Definition TEST_DATA : list (option string) :=
  [Some "ABC0"; Some "ABC1"; Some "ABC2"; Some "ABC3"; Some "ABC4";
   Some "ABC5"; Some "ABC6"; Some "ABC7"; Some "ABC8"; Some "ABC9"]%string.

Definition DATA_LEN : Z := Z.of_nat (length TEST_DATA).

(** The round trip of the specification, on the data of the test suite:
    build the list, look "ABC4" up, remove the node found, look "ABC4"
    up again and print the list. *)
Definition round_trip (pick : gset positive → positive) (fuel : nat) (list : ptr)
    : M (Z * ptr * Z * ptr) :=
  let* init_ret := init_list pick fuel list (Some TEST_DATA) DATA_LEN in
  let* t := find fuel list (Some "ABC4"%string) in
  let* rem_ret := remove_node list t in
  let* t' := find fuel list (Some "ABC4"%string) in
  test_print_list fuel list >>
  ret (init_ret, t, rem_ret, t').

(** ** The test suite *)

(** [const char **TEST_DATA_NULL] and [DATA_LEN_NEGATIVE] *)
Definition TEST_DATA_NULL : option (list (option string)) := None.
Definition DATA_LEN_NEGATIVE : Z := - DATA_LEN.

(** [void assert_int_equal(int expected, int actual, const char *test_name)].
    Its two calls of [printf] write one line between them; [%d] is the
    decimal form of the integer. *)
Definition assert_int_equal (expected actual : Z) (test_name : string) : M unit :=
  if negb (actual =? expected) then
    puts (test_name +:+ ": " +:+ "FAIL: expected " +:+ pretty expected
            +:+ ", got " +:+ pretty actual)
  else
    puts (test_name +:+ ": " +:+ "PASS").

Section Tests.

(** What the test suite takes from its environment: the allocator, which
    also places the variables of a function; the contents of a [List]
    variable that was not initialised; how [%p] prints a pointer; and
    the integer [strcmp] returns ([find] only tests it for 0, the tests
    print it). *)
Variable pick : gset positive → positive.
Variable junk : List.
Variable show_ptr : ptr → string.
Variable strcmp : string → string → Z.

(** [void assert_node_ptr_equal(Node *expected, Node *actual, const char *test_name)] *)
Definition assert_node_ptr_equal (expected actual : ptr) (test_name : string) : M unit :=
  if negb (bool_decide (actual = expected)) then
    puts (test_name +:+ ": " +:+ "FAIL: expected " +:+ show_ptr expected
            +:+ ", got " +:+ show_ptr actual)
  else
    puts (test_name +:+ ": " +:+ "PASS").

(** [List list;] at the start of a function, and the end of the life of
    the variable when the function returns. *)
Definition local_list : M ptr := fun m =>
  let l := pick (dom (lists m)) in
  Done (Some l) (upd_lists (insert l junk) m).

Definition end_local_list (list : ptr) : M unit := fun m =>
  match list with
  | None => Fault
  | Some l => Done tt (upd_lists (delete l) m)
  end.

(** [strcmp(s, p)], [s] a string of the caller and [p] a block *)
Definition strcmp_block (s : string) (p : ptr) : M Z :=
  let* t := load_chars p in ret (strcmp s t).

(** [if (init_ret == 0) dealloc_list(&list);] *)
Definition dealloc_if_zero (fuel : nat) (init_ret : Z) (list : ptr) : M unit :=
  if init_ret =? 0 then dealloc_list fuel list else ret tt.

(** [void test_init_list_null_data()] *)
Definition test_init_list_null_data (fuel : nat) : M unit :=
  let* list := local_list in
  let* init_ret := init_list pick fuel list TEST_DATA_NULL DATA_LEN in
  dealloc_if_zero fuel init_ret list >>
  assert_int_equal (Error_value NULL_PTR) init_ret "test_init_list_null_data" >>
  end_local_list list.

(** [void test_init_list_negative_data_len()] *)
Definition test_init_list_negative_data_len (fuel : nat) : M unit :=
  let* list := local_list in
  let* init_ret := init_list pick fuel list (Some TEST_DATA) DATA_LEN_NEGATIVE in
  dealloc_if_zero fuel init_ret list >>
  assert_int_equal (Error_value LEN_INVALID) init_ret "test_init_list_negative_data_len" >>
  end_local_list list.

(** [void test_init_list_success()] *)
Definition test_init_list_success (fuel : nat) : M unit :=
  let* list := local_list in
  let* init_ret := init_list pick fuel list (Some TEST_DATA) DATA_LEN in
  dealloc_if_zero fuel init_ret list >>
  assert_int_equal 0 init_ret "test_init_list_success" >>
  end_local_list list.

(** [list.head->next->next->next->next] *)
Definition fifth_node (list : ptr) : M ptr :=
  let* n0 := get_head list in
  let* n1 := get_next n0 in
  let* n2 := get_next n1 in
  let* n3 := get_next n2 in
  get_next n3.

(** The tests of insertion.  The arguments of a call are evaluated from
    left to right here; C leaves the order open, and [make_node] neither
    reads nor writes what the other arguments read. *)

(** [void test_insert_after_head()] *)
Definition test_insert_after_head (fuel : nat) : M unit :=
  let* list := local_list in
  let* init_ret := init_list pick fuel list (Some TEST_DATA) DATA_LEN in
  let* ins_ret :=
    (let* node := get_head list in
     let* new_node := make_node pick (Some "zzzz"%string) in
     insert_after list node new_node) in
  test_print_list fuel list >>
  dealloc_if_zero fuel init_ret list >>
  assert_int_equal 0 ins_ret "test_insert_after_head" >>
  end_local_list list.

(** [void test_insert_after_middle()] *)
Definition test_insert_after_middle (fuel : nat) : M unit :=
  let* list := local_list in
  let* init_ret := init_list pick fuel list (Some TEST_DATA) DATA_LEN in
  let* mid := fifth_node list in
  let* ins_ret :=
    (let* new_node := make_node pick (Some "zzzz"%string) in
     insert_after list mid new_node) in
  test_print_list fuel list >>
  dealloc_if_zero fuel init_ret list >>
  assert_int_equal 0 ins_ret "test_insert_after_middle" >>
  end_local_list list.

(** [void test_insert_after_last()] *)
Definition test_insert_after_last (fuel : nat) : M unit :=
  let* list := local_list in
  let* init_ret := init_list pick fuel list (Some TEST_DATA) DATA_LEN in
  let* ins_ret :=
    (let* node := get_last list in
     let* new_node := make_node pick (Some "zzzz"%string) in
     insert_after list node new_node) in
  test_print_list fuel list >>
  dealloc_if_zero fuel init_ret list >>
  assert_int_equal 0 ins_ret "test_insert_after_last" >>
  end_local_list list.

(** [void test_insert_before_head()] *)
Definition test_insert_before_head (fuel : nat) : M unit :=
  let* list := local_list in
  let* init_ret := init_list pick fuel list (Some TEST_DATA) DATA_LEN in
  let* ins_ret :=
    (let* node := get_head list in
     let* new_node := make_node pick (Some "zzzz"%string) in
     insert_before list node new_node) in
  test_print_list fuel list >>
  dealloc_if_zero fuel init_ret list >>
  assert_int_equal 0 ins_ret "test_insert_before_head" >>
  end_local_list list.

(** [void test_insert_before_middle()] *)
Definition test_insert_before_middle (fuel : nat) : M unit :=
  let* list := local_list in
  let* init_ret := init_list pick fuel list (Some TEST_DATA) DATA_LEN in
  let* mid := fifth_node list in
  let* ins_ret :=
    (let* new_node := make_node pick (Some "zzzz"%string) in
     insert_before list mid new_node) in
  test_print_list fuel list >>
  dealloc_if_zero fuel init_ret list >>
  assert_int_equal 0 ins_ret "test_insert_before_middle" >>
  end_local_list list.

(** [void test_insert_before_last()] *)
Definition test_insert_before_last (fuel : nat) : M unit :=
  let* list := local_list in
  let* init_ret := init_list pick fuel list (Some TEST_DATA) DATA_LEN in
  let* ins_ret :=
    (let* node := get_last list in
     let* new_node := make_node pick (Some "zzzz"%string) in
     insert_before list node new_node) in
  test_print_list fuel list >>
  dealloc_if_zero fuel init_ret list >>
  assert_int_equal 0 ins_ret "test_insert_before_last" >>
  end_local_list list.

(** [void test_insert_front_success()] *)
Definition test_insert_front_success (fuel : nat) : M unit :=
  let* list := local_list in
  let* init_ret := init_list pick fuel list (Some TEST_DATA) DATA_LEN in
  let* ins_ret :=
    (let* new_node := make_node pick (Some "zzzz"%string) in
     insert_front list new_node) in
  test_print_list fuel list >>
  dealloc_if_zero fuel init_ret list >>
  assert_int_equal 0 ins_ret "test_insert_front_success" >>
  end_local_list list.

(** [void test_insert_end_success()] *)
Definition test_insert_end_success (fuel : nat) : M unit :=
  let* list := local_list in
  let* init_ret := init_list pick fuel list (Some TEST_DATA) DATA_LEN in
  let* ins_ret :=
    (let* new_node := make_node pick (Some "zzzz"%string) in
     insert_end list new_node) in
  test_print_list fuel list >>
  dealloc_if_zero fuel init_ret list >>
  assert_int_equal 0 ins_ret "test_insert_end_success" >>
  end_local_list list.

(** [void test_remove_node_head()] *)
Definition test_remove_node_head (fuel : nat) : M unit :=
  let* list := local_list in
  let* init_ret := init_list pick fuel list (Some TEST_DATA) DATA_LEN in
  let* rem_ret := (let* node := get_head list in remove_node list node) in
  test_print_list fuel list >>
  dealloc_if_zero fuel init_ret list >>
  assert_int_equal 0 rem_ret "test_remove_node_head" >>
  end_local_list list.

(** [void test_remove_node_middle()] *)
Definition test_remove_node_middle (fuel : nat) : M unit :=
  let* list := local_list in
  let* init_ret := init_list pick fuel list (Some TEST_DATA) DATA_LEN in
  let* mid := fifth_node list in
  let* rem_ret := remove_node list mid in
  test_print_list fuel list >>
  dealloc_if_zero fuel init_ret list >>
  assert_int_equal 0 rem_ret "test_remove_node_middle" >>
  end_local_list list.

(** [void test_remove_node_last()] *)
Definition test_remove_node_last (fuel : nat) : M unit :=
  let* list := local_list in
  let* init_ret := init_list pick fuel list (Some TEST_DATA) DATA_LEN in
  let* rem_ret := (let* node := get_last list in remove_node list node) in
  test_print_list fuel list >>
  dealloc_if_zero fuel init_ret list >>
  assert_int_equal 0 rem_ret "test_remove_node_last" >>
  end_local_list list.

(** [void test_find_head()] *)
Definition test_find_head (fuel : nat) : M unit :=
  let* list := local_list in
  let* init_ret := init_list pick fuel list (Some TEST_DATA) DATA_LEN in
  let* t := find fuel list (Some "ABC0"%string) in
  (let* tp := get_prev t in
   assert_node_ptr_equal None tp "test_find_head1") >>
  (let* h := get_head list in
   let* hn := get_next h in
   let* tn := get_next t in
   assert_node_ptr_equal hn tn "test_find_head2") >>
  (let* td := get_data t in
   let* c := strcmp_block "ABC0" td in
   assert_int_equal 0 c "test_find_head3") >>
  dealloc_if_zero fuel init_ret list >>
  end_local_list list.

(** [void test_find_middle()] *)
Definition test_find_middle (fuel : nat) : M unit :=
  let* list := local_list in
  let* init_ret := init_list pick fuel list (Some TEST_DATA) DATA_LEN in
  let* t := find fuel list (Some "ABC4"%string) in
  let* mid := fifth_node list in
  (let* mp := get_prev mid in
   let* tp := get_prev t in
   assert_node_ptr_equal mp tp "test_find_middle1") >>
  (let* mn := get_next mid in
   let* tn := get_next t in
   assert_node_ptr_equal mn tn "test_find_middle2") >>
  (let* td := get_data t in
   let* c := strcmp_block "ABC4" td in
   assert_int_equal 0 c "test_find_middle3") >>
  dealloc_if_zero fuel init_ret list >>
  end_local_list list.

(** [void test_find_last()] *)
Definition test_find_last (fuel : nat) : M unit :=
  let* list := local_list in
  let* init_ret := init_list pick fuel list (Some TEST_DATA) DATA_LEN in
  let* t := find fuel list (Some "ABC9"%string) in
  (let* e := get_last list in
   let* ep := get_prev e in
   let* tp := get_prev t in
   assert_node_ptr_equal ep tp "test_find_last1") >>
  (let* tn := get_next t in
   assert_node_ptr_equal None tn "test_find_last2") >>
  (let* td := get_data t in
   let* c := strcmp_block "ABC9" td in
   assert_int_equal 0 c "test_find_last3") >>
  dealloc_if_zero fuel init_ret list >>
  end_local_list list.

(** [int main()]; [tty] is what [isatty(STDERR_FILENO)] answers. *)
Definition main (tty : bool) (fuel : nat) : M Z :=
  (if tty then
     puts ("==== Running list_lib test suite... suggest redirecting stderr"
             +:+ " to /dev/null during tests ====") >>
     puts EmptyString
   else ret tt) >>
  test_init_list_null_data fuel >>
  test_init_list_negative_data_len fuel >>
  test_init_list_success fuel >>
  test_insert_after_head fuel >>
  test_insert_after_middle fuel >>
  test_insert_after_last fuel >>
  test_insert_before_head fuel >>
  test_insert_before_middle fuel >>
  test_insert_before_last fuel >>
  test_insert_front_success fuel >>
  test_insert_end_success fuel >>
  test_remove_node_head fuel >>
  test_remove_node_middle fuel >>
  test_remove_node_last fuel >>
  test_find_head fuel >>
  test_find_middle fuel >>
  test_find_last fuel >>
  ret 0.

End Tests.

(** ** States and lists used as examples *)

(** An allocator: the least location that is not live. *)
Definition pick_least : gset positive → positive := fresh.

(** A state in which nothing is allocated and the coming [n]
    allocations are granted; what a [List] variable holds before it is
    initialised; a way of printing pointers; and a [strcmp]. *)
Definition m_start (n : nat) : Mem := mkMem ∅ ∅ ∅ (repeat true n) [] [].

Definition L_junk : List := mkList (Some 7%positive) (Some 9%positive).

Definition show_ptr_dec (p : ptr) : string :=
  match p with
  | None => "(nil)"
  | Some a => pretty (Z.pos a)
  end.

Definition strcmp_sign (s t : string) : Z := if String.eqb s t then 0 else 1.

(** A state in which the caller's [List] variable, at location 10, is not
    initialised, and [malloc] succeeds twice and then fails. *)
Definition m_short : Mem :=
  mkMem ∅ ∅ {[ 10%positive := mkList (Some 7%positive) (Some 9%positive) ]}
        [true; true; false] [] [].

(** The same with [malloc] succeeding four times. *)
Definition m_enough : Mem :=
  mkMem ∅ ∅ {[ 10%positive := mkList (Some 7%positive) (Some 9%positive) ]}
        [true; true; true; true] [] [].

(** Twenty allocations granted, the caller's list not initialised. *)
Definition m_twenty : Mem :=
  mkMem ∅ ∅ {[ 10%positive := mkList (Some 7%positive) (Some 9%positive) ]}
        (repeat true 20) [] [].

(** A list of one element: the node at location 2 owns the block at
    location 3, and the [List] structure is at location 1. *)
Definition c_one : cell := mkCell 2 3 "ABC0".
Definition L_one : List := mkList (Some 2%positive) (Some 2%positive).
Definition m_one : Mem :=
  mkMem {[ 2%positive := mkNode None None (Some 3%positive) ]}
        {[ 3%positive := "ABC0"%string ]}
        {[ 1%positive := L_one ]} [] [] [].

(** The one-element list with a second node, at location 4, that is in
    no list. *)
Definition m_two : Mem :=
  mkMem {[ 2%positive := mkNode None None (Some 3%positive);
           4%positive := mkNode None None (Some 5%positive) ]}
        {[ 3%positive := "ABC0"%string; 5%positive := "zzzz"%string ]}
        {[ 1%positive := L_one ]} [] [] [].

(** A list of three elements, and a node at location 8 that is in no
    list. *)
Definition c_a : cell := mkCell 2 3 "ABC0".
Definition c_b : cell := mkCell 4 5 "ABC1".
Definition c_c : cell := mkCell 6 7 "ABC2".
Definition L_three : List := mkList (Some 2%positive) (Some 6%positive).
Definition m_three : Mem :=
  mkMem {[ 2%positive := mkNode None (Some 4%positive) (Some 3%positive);
           4%positive := mkNode (Some 2%positive) (Some 6%positive) (Some 5%positive);
           6%positive := mkNode (Some 4%positive) None (Some 7%positive);
           8%positive := mkNode None None (Some 9%positive) ]}
        {[ 3%positive := "ABC0"%string; 5%positive := "ABC1"%string;
           7%positive := "ABC2"%string; 9%positive := "zzzz"%string ]}
        {[ 1%positive := L_three ]} [] [] [].

(** ** Running the monad *)

Lemma bind_eq {A B} (c : M A) (k : A → M B) m a m' :
  c m = Done a m' → bind c k m = k a m'.
Proof. unfold bind. intros ->. reflexivity. Qed.

Lemma bind_assoc {A B C} (c : M A) (k : A → M B) (k' : B → M C) m :
  bind (bind c k) k' m = bind c (fun x => bind (k x) k') m.
Proof. unfold bind. destruct (c m); reflexivity. Qed.

Lemma bind_ret {A B} (a : A) (k : A → M B) m : bind (ret a) k m = k a m.
Proof. reflexivity. Qed.

Lemma get_prev_eq a nd m :
  nodes m !! a = Some nd → get_prev (Some a) m = Done (prev nd) m.
Proof. unfold get_prev, bind, load_node. intros ->. reflexivity. Qed.

Lemma get_next_eq a nd m :
  nodes m !! a = Some nd → get_next (Some a) m = Done (next nd) m.
Proof. unfold get_next, bind, load_node. intros ->. reflexivity. Qed.

Lemma get_data_eq a nd m :
  nodes m !! a = Some nd → get_data (Some a) m = Done (data nd) m.
Proof. unfold get_data, bind, load_node. intros ->. reflexivity. Qed.

Lemma get_head_eq l L m :
  lists m !! l = Some L → get_head (Some l) m = Done (head L) m.
Proof. unfold get_head, bind, load_list. intros ->. reflexivity. Qed.

Lemma get_last_eq l L m :
  lists m !! l = Some L → get_last (Some l) m = Done (last L) m.
Proof. unfold get_last, bind, load_list. intros ->. reflexivity. Qed.

Lemma set_prev_eq a nd v m :
  nodes m !! a = Some nd →
  set_prev (Some a) v m = Done tt (upd_nodes (insert a (mkNode v (next nd) (data nd))) m).
Proof. unfold set_prev, store_node. intros ->. reflexivity. Qed.

Lemma set_next_eq a nd v m :
  nodes m !! a = Some nd →
  set_next (Some a) v m = Done tt (upd_nodes (insert a (mkNode (prev nd) v (data nd))) m).
Proof. unfold set_next, store_node. intros ->. reflexivity. Qed.

Lemma set_data_eq a nd v m :
  nodes m !! a = Some nd →
  set_data (Some a) v m = Done tt (upd_nodes (insert a (mkNode (prev nd) (next nd) v)) m).
Proof. unfold set_data, store_node. intros ->. reflexivity. Qed.

Lemma set_head_eq l L v m :
  lists m !! l = Some L →
  set_head (Some l) v m = Done tt (upd_lists (insert l (mkList v (last L))) m).
Proof. unfold set_head, store_list. intros ->. reflexivity. Qed.

Lemma set_last_eq l L v m :
  lists m !! l = Some L →
  set_last (Some l) v m = Done tt (upd_lists (insert l (mkList (head L) v)) m).
Proof. unfold set_last, store_list. intros ->. reflexivity. Qed.

Lemma free_node_eq a nd m :
  nodes m !! a = Some nd → free_node (Some a) m = Done tt (upd_nodes (delete a) m).
Proof. unfold free_node. intros ->. reflexivity. Qed.

Lemma free_chars_eq b s m :
  chars m !! b = Some s → free_chars (Some b) m = Done tt (upd_chars (delete b) m).
Proof. unfold free_chars. intros ->. reflexivity. Qed.

Lemma load_chars_eq b s m :
  chars m !! b = Some s → load_chars (Some b) m = Done s m.
Proof. unfold load_chars. intros ->. reflexivity. Qed.

Lemma store_chars_eq b s t m :
  chars m !! b = Some s → store_chars (Some b) t m = Done tt (upd_chars (insert b t) m).
Proof. unfold store_chars. intros ->. reflexivity. Qed.

Lemma print_error_eq e m :
  print_error e m =
  Done tt (upd_stderr (fun out => out ++ [("list_lib error: " +:+ ERROR e)%string]) m).
Proof. reflexivity. Qed.

Lemma puts_eq s m : puts s m = Done tt (upd_stdout (fun out => out ++ [s]) m).
Proof. reflexivity. Qed.

(** Reads a field of the state after a sequence of stores. *)
Ltac fields :=
  cbn [nodes chars lists avail stderr stdout
       upd_nodes upd_chars upd_lists upd_avail upd_stderr upd_stdout].

Ltac lk :=
  fields;
  repeat first [ rewrite lookup_insert_eq
               | rewrite lookup_insert_ne by congruence
               | rewrite lookup_delete_ne by congruence ];
  first [ reflexivity | eassumption ].

(** One statement of the program, on a goal [bind c k m = _]. *)
Ltac step :=
  cbn [is_null orb prev next data head last];
  first
    [ rewrite bind_assoc
    | rewrite bind_ret
    | erewrite bind_eq;
      [ | first [ apply get_prev_eq; lk | apply get_next_eq; lk
                | apply get_data_eq; lk | apply get_head_eq; lk
                | apply get_last_eq; lk | apply set_prev_eq; lk
                | apply set_next_eq; lk | apply set_data_eq; lk
                | apply set_head_eq; lk | apply set_last_eq; lk
                | eapply free_node_eq; lk | eapply free_chars_eq; lk
                | apply load_chars_eq; lk | eapply store_chars_eq; lk
                | apply print_error_eq | apply puts_eq ] ] ];
  cbn [is_null orb prev next data head last].

Ltac steps := repeat step.

(** ** Chains *)

Lemma first_or_app l1 l2 q : first_or (l1 ++ l2) q = first_or l1 (first_or l2 q).
Proof. destruct l1; reflexivity. Qed.

Lemma last_or_cons a l p : last_or (a :: l) p = last_or l (Some a).
Proof. unfold last_or. destruct l as [|b l]; [reflexivity|]. cbn [list.last]. 
  destruct (list.last (b :: l)) eqn:E; [reflexivity|].
  apply last_None in E. discriminate. Qed.

Lemma last_or_snoc l a p : last_or (l ++ [a]) p = Some a.
Proof. unfold last_or. rewrite last_snoc. reflexivity. Qed.

(** A chain splits where two of its parts meet. *)
Lemma seg_app h p l1 l2 q :
  seg h p (l1 ++ l2) q ↔ seg h p l1 (first_or l2 q) ∧ seg h (last_or l1 p) l2 q.
Proof.
  revert p. induction l1 as [|a l1 IH]; intros p.
  - cbn. tauto.
  - cbn [app seg]. rewrite IH, first_or_app, last_or_cons. tauto.
Qed.

(** A chain only depends on the nodes it is made of. *)
Lemma seg_ext h h' p xs q :
  (∀ a, a ∈ xs → h' !! a = h !! a) → seg h p xs q → seg h' p xs q.
Proof.
  revert p. induction xs as [|a xs IH]; intros p Hsame; [done|].
  cbn [seg]. intros [(nd & Ha & Hp & Hn) Hrest]. split.
  - exists nd. rewrite Hsame by left. done.
  - apply IH; [|done]. intros b Hb. apply Hsame. by right.
Qed.

(** A chain around one of its nodes: the part before it, the node with
    its two links, the part after it. *)
Lemma seg_mid h p l1 x l2 q :
  seg h p (l1 ++ x :: l2) q ↔
  seg h p l1 (Some x) ∧
  (∃ nd, h !! x = Some nd ∧ prev nd = last_or l1 p ∧ next nd = first_or l2 q) ∧
  seg h (Some x) l2 q.
Proof. rewrite seg_app. cbn [seg first_or]. tauto. Qed.

Lemma NoDup_mid (l1 : list positive) x l2 :
  NoDup (l1 ++ x :: l2) ↔
  NoDup l1 ∧ NoDup l2 ∧ (x ∉ l1) ∧ (x ∉ l2) ∧ (∀ a, a ∈ l1 → a ∉ l2).
Proof.
  rewrite NoDup_app, NoDup_cons. split.
  - intros (H1 & H2 & H3 & H4). repeat split; try done.
    + intros Hx. apply (H2 x Hx). by left.
    + intros a Ha Ha'. apply (H2 a Ha). by right.
  - intros (H1 & H2 & H3 & H4 & H5). repeat split; try done.
    intros a Ha [->|Ha']%elem_of_cons; [done|]. by apply (H5 a).
Qed.

(** The [data] pointers after a sequence of stores to the node store. *)
Ltac same_data :=
  intros ?a; fields;
  repeat (rewrite lookup_insert; case_decide; simplify_eq);
  repeat match goal with H : _ !! _ = Some _ |- _ => rewrite H end;
  reflexivity.

(** The nodes outside the chain, the new node apart, after a sequence of
    stores to the node store. *)
Ltac frame_done :=
  intros ?a ?Ha ?Hay; fields;
  rewrite ?elem_of_app, ?elem_of_cons in *;
  rewrite ?lookup_insert_ne by (intros ->; intuition); reflexivity.

(** [insert_after] at the node [x] of a chain [l1 ++ x :: l2], for a node
    [y] that is allocated and not in the chain: the call succeeds and the
    list holds [l1 ++ x :: y :: l2]; only links change; the list
    structure is written only when [x] is the last node; the nodes
    outside the chain are untouched. *)
Lemma insert_after_dll l L l1 x l2 y ny m :
  lists m !! l = Some L →
  dll m L (l1 ++ x :: l2) →
  y ∉ l1 ++ x :: l2 →
  nodes m !! y = Some ny →
  ∃ m' L',
    insert_after (Some l) (Some x) (Some y) m = Done 0 m' ∧
    lists m' = <[l := L']> (lists m) ∧
    dll m' L' (l1 ++ x :: y :: l2) ∧
    relinked m m' ∧
    (l2 ≠ [] → L' = L) ∧
    (∀ a, a ∉ l1 ++ x :: l2 → a ≠ y → nodes m' !! a = nodes m !! a).
Proof.
  intros HL [Hh Hl Hnd Hseg] Hy Hny.
  apply seg_mid in Hseg as (Hs1 & (nx & Hx & Hpx & Hnx) & Hs2).
  apply NoDup_mid in Hnd as (Hnd1 & Hnd2 & Hx1 & Hx2 & Hdisj).
  rewrite !elem_of_app, !elem_of_cons in Hy.
  assert (x ≠ y) as Hxy by (intros ->; tauto).
  destruct nx as [px qx dx], ny as [py qy dy]; cbn in Hpx, Hnx.
  unfold insert_after. cbn [is_null orb].
  destruct l2 as [|z l2]; cbn [first_or] in Hnx; subst qx.
  - steps. eexists _, (mkList (head L) (Some y)). split; [reflexivity|].
    split; [reflexivity|]. split; [|split; [|split; [done|]]].
    + split; cbn [head last].
      * rewrite Hh. by destruct l1.
      * change (l1 ++ [x; y]) with (l1 ++ [x] ++ [y]). by rewrite !app_assoc, last_snoc.
      * apply NoDup_mid. repeat split; try done.
        -- apply NoDup_singleton.
        -- rewrite list_elem_of_singleton. congruence.
        -- intros a Ha. rewrite list_elem_of_singleton. intros ->. tauto.
      * apply seg_mid. split; [|split].
        -- eapply seg_ext; [|exact Hs1]. intros a Ha. fields.
           rewrite !lookup_insert_ne by (intros ->; tauto). done.
        -- eexists. split; [lk|]. done.
        -- cbn. split; [|done]. eexists. split; [lk|]. done.
    + split; try reflexivity. same_data.
    + frame_done.
  - cbn in Hs2. destruct Hs2 as [(nz & Hz & Hpz & Hnz) Hs2].
    apply NoDup_cons in Hnd2 as [Hz2 Hnd2].
    rewrite elem_of_cons in Hy. rewrite elem_of_cons in Hx2.
    assert (z ≠ y) as Hzy by (intros ->; tauto).
    assert (z ≠ x) as Hzx by (intros ->; tauto).
    assert (z ∉ l1) as Hz1 by (intros Hz1; apply (Hdisj z Hz1); by left).
    destruct nz as [pz qz dz]; cbn in Hpz, Hnz.
    steps. eexists _, L. split; [reflexivity|].
    split; [by rewrite insert_id|]. split; [|split; [|split; [done|]]].
    + split.
      * rewrite Hh. by destruct l1.
      * rewrite Hl. rewrite !last_app. reflexivity.
      * apply NoDup_mid. repeat split; try done.
        -- apply NoDup_cons. split; [|by apply NoDup_cons].
           rewrite elem_of_cons. tauto.
        -- rewrite !elem_of_cons. tauto.
        -- intros a Ha. rewrite !elem_of_cons. intros [->|[->|Ha']]; [tauto|tauto|].
           apply (Hdisj a Ha). by right.
      * apply seg_mid. split; [|split].
        -- eapply seg_ext; [|exact Hs1]. intros a Ha. fields.
           rewrite !lookup_insert_ne by (intros ->; tauto). done.
        -- eexists. split; [lk|]. done.
        -- cbn [seg first_or]. split; [|split].
           ++ eexists. split; [lk|]. done.
           ++ eexists. split; [lk|]. done.
           ++ eapply seg_ext; [|exact Hs2]. intros a Ha. fields.
              rewrite !lookup_insert_ne by (intros ->; tauto). done.
    + split; try reflexivity. same_data.
    + frame_done.
Qed.

Lemma snoc_cases {A} (l : list A) : l = [] ∨ ∃ l' a, l = l' ++ [a].
Proof. induction l using rev_ind; eauto. Qed.

(** [insert_before], in the same way: the list holds
    [l1 ++ y :: x :: l2] afterwards. *)
Lemma insert_before_dll l L l1 x l2 y ny m :
  lists m !! l = Some L →
  dll m L (l1 ++ x :: l2) →
  y ∉ l1 ++ x :: l2 →
  nodes m !! y = Some ny →
  ∃ m' L',
    insert_before (Some l) (Some x) (Some y) m = Done 0 m' ∧
    lists m' = <[l := L']> (lists m) ∧
    dll m' L' (l1 ++ y :: x :: l2) ∧
    relinked m m' ∧
    (l1 ≠ [] → L' = L) ∧
    (∀ a, a ∉ l1 ++ x :: l2 → a ≠ y → nodes m' !! a = nodes m !! a).
Proof.
  intros HL [Hh Hl Hnd Hseg] Hy Hny.
  apply seg_mid in Hseg as (Hs1 & (nx & Hx & Hpx & Hnx) & Hs2).
  apply NoDup_mid in Hnd as (Hnd1 & Hnd2 & Hx1 & Hx2 & Hdisj).
  rewrite !elem_of_app, !elem_of_cons in Hy.
  assert (x ≠ y) as Hxy by (intros ->; tauto).
  destruct nx as [px qx dx], ny as [py qy dy]; cbn in Hpx, Hnx.
  unfold insert_before. cbn [is_null orb].
  destruct (snoc_cases l1) as [->|(l0 & w & ->)].
  - cbn in Hpx. subst px. steps.
    eexists _, (mkList (Some y) (last L)). split; [reflexivity|].
    split; [reflexivity|]. split; [|split; [|split; [done|]]].
    + split; cbn [head last app].
      * reflexivity.
      * rewrite Hl. reflexivity.
      * apply NoDup_cons. split; [rewrite elem_of_cons; tauto|].
        apply NoDup_cons. split; done.
      * cbn [seg first_or]. split; [|split].
        -- eexists. split; [lk|]. done.
        -- eexists. split; [lk|]. done.
        -- eapply seg_ext; [|exact Hs2]. intros a Ha. fields.
           rewrite !lookup_insert_ne by (intros ->; tauto). done.
    + split; try reflexivity. same_data.
    + frame_done.
  - rewrite last_or_snoc in Hpx. subst px.
    apply seg_mid in Hs1 as (Hs0 & (nw & Hw & Hpw & Hnw) & _).
    apply NoDup_mid in Hnd1 as (Hnd0 & _ & Hw0 & _ & _).
    rewrite elem_of_app, list_elem_of_singleton in Hx1, Hy.
    assert (w ≠ y) as Hwy by (intros ->; tauto).
    assert (w ≠ x) as Hwx by (intros ->; tauto).
    assert (w ∉ l2) as Hw2.
    { apply Hdisj. apply elem_of_app. right. by left. }
    destruct nw as [pw qw dw]; cbn in Hpw, Hnw.
    steps. eexists _, L. split; [reflexivity|].
    split; [by rewrite insert_id|]. split; [|split; [|split; [done|]]].
    + rewrite <- !app_assoc in *. cbn [app] in *. split.
      * rewrite Hh. by destruct l0.
      * rewrite Hl. rewrite !last_app. reflexivity.
      * apply NoDup_mid. repeat split; try done.
        -- apply NoDup_cons. split; [rewrite elem_of_cons; tauto|].
           apply NoDup_cons. split; done.
        -- rewrite !elem_of_cons. tauto.
        -- intros a Ha. rewrite !elem_of_cons. intros [->|[->|Ha']]; [tauto|tauto|].
           apply (Hdisj a); [|done]. apply elem_of_app. by left.
      * apply seg_mid. split; [|split].
        -- eapply seg_ext; [|exact Hs0]. intros a Ha. fields.
           rewrite !lookup_insert_ne by (intros ->; tauto). done.
        -- eexists. split; [lk|]. done.
        -- cbn [seg first_or]. split; [|split].
           ++ eexists. split; [lk|]. done.
           ++ eexists. split; [lk|]. done.
           ++ eapply seg_ext; [|exact Hs2]. intros a Ha. fields.
              rewrite !lookup_insert_ne by (intros ->; tauto). done.
    + split; try reflexivity. same_data.
    + frame_done.
Qed.

(** [insert_front]: the list holds [y :: xs] afterwards. *)
Lemma insert_front_dll l L xs y ny m :
  lists m !! l = Some L →
  dll m L xs →
  y ∉ xs →
  nodes m !! y = Some ny →
  ∃ m' L',
    insert_front (Some l) (Some y) m = Done 0 m' ∧
    lists m' = <[l := L']> (lists m) ∧
    dll m' L' (y :: xs) ∧
    relinked m m' ∧
    (∀ a, a ∉ xs → a ≠ y → nodes m' !! a = nodes m !! a).
Proof.
  intros HL Hdll Hy Hny. unfold insert_front. cbn [is_null orb].
  destruct xs as [|x xs].
  - destruct Hdll as [Hh Hl _ _]. cbn in Hh, Hl.
    destruct ny as [py qy dy]. step. rewrite Hh. steps.
    eexists _, (mkList (Some y) (Some y)). split; [reflexivity|].
    split; [fields; by rewrite insert_insert_eq|]. split.
    + split; cbn; try done.
      * apply NoDup_singleton.
      * split; [|done]. eexists. split; [lk|]. done.
    + split; [split; try reflexivity; same_data|]. frame_done.
  - destruct (insert_before_dll l L [] x xs y ny m HL Hdll Hy Hny)
      as (m' & L' & Hrun & HL' & Hdll' & Hrel & _ & Hfr).
    pose proof (dll_head _ _ _ Hdll) as Hh. cbn in Hh.
    step. rewrite Hh. steps. rewrite Hh.
    erewrite bind_eq by exact Hrun. steps.
    exists m', L'. repeat (split; [done|]). rewrite app_nil_l in Hfr. done.
Qed.

(** [insert_end]: the list holds [xs ++ [y]] afterwards. *)
Lemma insert_end_dll l L xs y ny m :
  lists m !! l = Some L →
  dll m L xs →
  y ∉ xs →
  nodes m !! y = Some ny →
  ∃ m' L',
    insert_end (Some l) (Some y) m = Done 0 m' ∧
    lists m' = <[l := L']> (lists m) ∧
    dll m' L' (xs ++ [y]) ∧
    relinked m m' ∧
    (∀ a, a ∉ xs → a ≠ y → nodes m' !! a = nodes m !! a).
Proof.
  intros HL Hdll Hy Hny. unfold insert_end. cbn [is_null orb].
  pose proof (dll_last _ _ _ Hdll) as Hl.
  destruct (snoc_cases xs) as [->|(l0 & t & ->)].
  - destruct (insert_front_dll l L [] y ny m HL Hdll Hy Hny)
      as (m' & L' & Hrun & HL' & Hdll' & Hrel & Hfr).
    cbn in Hl. step. rewrite Hl. steps.
    erewrite bind_eq by exact Hrun. steps.
    exists m', L'. done.
  - destruct (insert_after_dll l L l0 t [] y ny m HL Hdll Hy Hny)
      as (m' & L' & Hrun & HL' & Hdll' & Hrel & _ & Hfr).
    rewrite last_snoc in Hl. step. rewrite Hl. steps. rewrite Hl.
    erewrite bind_eq by exact Hrun. steps.
    exists m', L'. rewrite <- app_assoc. done.
Qed.

Ltac unlinked_done :=
  split; try reflexivity;
  [ fields; apply lookup_delete_eq
  | intros ?a ?Ha; fields; rewrite lookup_delete_ne by done;
    repeat (rewrite lookup_insert; case_decide; simplify_eq);
    repeat match goal with H : _ !! _ = Some _ |- _ => rewrite H end;
    reflexivity ].

Ltac unlinked_frame :=
  intros ?a ?Ha; fields;
  rewrite ?elem_of_app, ?elem_of_cons in *;
  rewrite lookup_delete_ne, ?lookup_insert_ne by (intros ->; intuition); reflexivity.

(** [remove_node] at the node [x] of a chain [l1 ++ x :: l2], whose
    [data] is a live block [b]: the call succeeds, the list holds
    [l1 ++ l2], [x] and [b] are released, and no node outside the chain
    is written. *)
Lemma remove_node_dll_frame l L l1 x l2 nx b s m :
  lists m !! l = Some L →
  dll m L (l1 ++ x :: l2) →
  nodes m !! x = Some nx →
  data nx = Some b →
  chars m !! b = Some s →
  ∃ m' L',
    remove_node (Some l) (Some x) m = Done 0 m' ∧
    lists m' = <[l := L']> (lists m) ∧
    dll m' L' (l1 ++ l2) ∧
    unlinked x b m m' ∧
    (∀ a, a ∉ l1 ++ x :: l2 → nodes m' !! a = nodes m !! a).
Proof.
  intros HL [Hh Hl Hnd Hseg] Hx Hdx Hb.
  apply seg_mid in Hseg as (Hs1 & (nx' & Hx' & Hpx & Hnx) & Hs2).
  rewrite Hx in Hx'. injection Hx' as <-.
  apply NoDup_mid in Hnd as (Hnd1 & Hnd2 & Hx1 & Hx2 & Hdisj).
  destruct nx as [px qx dx]; cbn in Hpx, Hnx, Hdx. subst dx.
  unfold remove_node. cbn [is_null orb].
  destruct (snoc_cases l1) as [->|(l0 & w & ->)];
    [cbn in Hpx|rewrite last_or_snoc in Hpx]; subst px;
    (destruct l2 as [|z l2]; cbn [first_or] in Hnx; subst qx).
  - steps. eexists _, (mkList None None). split; [reflexivity|].
    split; [fields; by rewrite insert_insert_eq|]. split; [|split; [unlinked_done|unlinked_frame]].
    split; cbn; done.
  - cbn in Hs2. destruct Hs2 as [(nz & Hz & Hpz & Hnz) Hs2].
    apply NoDup_cons in Hnd2 as [Hz2 Hnd2]. rewrite elem_of_cons in Hx2.
    assert (z ≠ x) as Hzx by (intros ->; tauto).
    destruct nz as [pz qz dz]; cbn in Hpz, Hnz.
    steps. eexists _, (mkList (Some z) (last L)). split; [reflexivity|].
    split; [reflexivity|]. split; [|split; [unlinked_done|unlinked_frame]].
    split; cbn [head last app]; try done.
    + apply NoDup_cons. done.
    + cbn [seg]. split.
      * eexists. split; [lk|]. done.
      * eapply seg_ext; [|exact Hs2]. intros a Ha. fields.
        rewrite lookup_delete_ne, lookup_insert_ne by (intros ->; tauto). done.
  - apply seg_mid in Hs1 as (Hs0 & (nw & Hw & Hpw & Hnw) & _).
    apply NoDup_mid in Hnd1 as (Hnd0 & _ & Hw0 & _ & _).
    rewrite elem_of_app, list_elem_of_singleton in Hx1.
    assert (w ≠ x) as Hwx by (intros ->; tauto).
    destruct nw as [pw qw dw]; cbn in Hpw, Hnw.
    steps. eexists _, (mkList (head L) (Some w)). split; [reflexivity|].
    split; [reflexivity|]. split; [|split; [unlinked_done|unlinked_frame]].
    rewrite app_nil_r. split; cbn [head last].
    + rewrite Hh. rewrite <- app_assoc. by destruct l0.
    + by rewrite last_snoc.
    + apply NoDup_mid. repeat split; try done; try apply not_elem_of_nil.
      intros a _. apply not_elem_of_nil.
    + apply seg_mid. split; [|split; [|done]].
      * eapply seg_ext; [|exact Hs0]. intros a Ha. fields.
        rewrite lookup_delete_ne, lookup_insert_ne by (intros ->; tauto). done.
      * eexists. split; [lk|]. done.
  - apply seg_mid in Hs1 as (Hs0 & (nw & Hw & Hpw & Hnw) & _).
    apply NoDup_mid in Hnd1 as (Hnd0 & _ & Hw0 & _ & _).
    rewrite elem_of_app, list_elem_of_singleton in Hx1.
    assert (w ≠ x) as Hwx by (intros ->; tauto).
    cbn in Hs2. destruct Hs2 as [(nz & Hz & Hpz & Hnz) Hs2].
    apply NoDup_cons in Hnd2 as [Hz2 Hnd2]. rewrite elem_of_cons in Hx2.
    assert (z ≠ x) as Hzx by (intros ->; tauto).
    assert (w ∉ z :: l2) as Hw2.
    { apply Hdisj. apply elem_of_app. right. by left. }
    rewrite elem_of_cons in Hw2.
    assert (z ≠ w) as Hzw by (intros ->; tauto).
    destruct nw as [pw qw dw], nz as [pz qz dz]; cbn in Hpw, Hnw, Hpz, Hnz.
    steps. eexists _, L. split; [reflexivity|].
    split; [by rewrite insert_id|]. split; [|split; [unlinked_done|unlinked_frame]].
    rewrite <- !app_assoc in *. cbn [app] in *. split.
    + rewrite Hh. by destruct l0.
    + rewrite Hl. rewrite !last_app. reflexivity.
    + apply NoDup_mid. repeat split; try done.
      * by apply NoDup_cons.
      * rewrite elem_of_cons. tauto.
      * intros a Ha. apply Hdisj. apply elem_of_app. by left.
    + apply seg_mid. split; [|split].
      * eapply seg_ext; [|exact Hs0]. intros a Ha. fields.
        assert (a ∉ z :: l2) as Ha2.
        { apply Hdisj. apply elem_of_app. by left. }
        rewrite elem_of_cons in Ha2.
        rewrite lookup_delete_ne, !lookup_insert_ne by (intros ->; tauto). done.
      * eexists. split; [lk|]. done.
      * cbn [seg]. split.
        -- eexists. split; [lk|]. done.
        -- eapply seg_ext; [|exact Hs2]. intros a Ha. fields.
           rewrite lookup_delete_ne, !lookup_insert_ne by (intros ->; tauto). done.
Qed.

(** [remove_node] at the node [x] of a chain [l1 ++ x :: l2], whose
    [data] is a live block [b]: the call succeeds, the list holds
    [l1 ++ l2], and [x] and [b] are released. *)
Lemma remove_node_dll l L l1 x l2 nx b s m :
  lists m !! l = Some L →
  dll m L (l1 ++ x :: l2) →
  nodes m !! x = Some nx →
  data nx = Some b →
  chars m !! b = Some s →
  ∃ m' L',
    remove_node (Some l) (Some x) m = Done 0 m' ∧
    lists m' = <[l := L']> (lists m) ∧
    dll m' L' (l1 ++ l2) ∧
    unlinked x b m m'.
Proof.
  intros HL Hdll Hx Hdx Hb.
  destruct (remove_node_dll_frame l L l1 x l2 nx b s m HL Hdll Hx Hdx Hb)
    as (m' & L' & Hrun & HL' & Hdll' & Hul & _).
  by exists m', L'.
Qed.

(** ** Lists of strings *)

(** Ownership of a block survives a change of links, and the release of
    another node and block. *)
Lemma owns_relinked m m' c : relinked m m' → owns m c → owns m' c.
Proof.
  intros [Hd Hc _ _ _] (nd & Ha & Hdata & Hb).
  specialize (Hd (addr c)). rewrite Ha in Hd. cbn in Hd.
  apply fmap_Some in Hd as (nd' & Ha' & Hdata').
  exists nd'. rewrite Hc. split; [done|]. split; [congruence|done].
Qed.

Lemma owns_unlinked x b m m' c :
  unlinked x b m m' → addr c ≠ x → blk c ≠ b → owns m c → owns m' c.
Proof.
  intros [_ Hd Hc _ _ _] Hx Hb (nd & Ha & Hdata & Hs).
  specialize (Hd (addr c) Hx). rewrite Ha in Hd. cbn in Hd.
  apply fmap_Some in Hd as (nd' & Ha' & Hdata').
  exists nd'. rewrite Hc, lookup_delete_ne by done.
  split; [done|]. split; [congruence|done].
Qed.

Lemma strcmp_eq_eq b s t m :
  chars m !! b = Some s → strcmp_eq (Some b) (Some t) m = Done (String.eqb s t) m.
Proof. unfold strcmp_eq, bind, load_chars. intros ->. reflexivity. Qed.

Lemma first_match_None t cs :
  first_match t cs = None ↔ ∀ c, c ∈ cs → str c ≠ t.
Proof.
  induction cs as [|c cs IH]; cbn.
  - split; [|done]. intros _ c Hc. by apply not_elem_of_nil in Hc.
  - destruct (String.eqb_spec (str c) t) as [He|He].
    + split; [done|]. intros H. destruct (H c); [by left|done].
    + rewrite IH. split.
      * intros H c' [->|Hc']%elem_of_cons; auto.
      * intros H c' Hc'. apply H. by right.
Qed.

Lemma first_match_Some t cs a :
  first_match t cs = Some a ↔
  ∃ c1 c c2, cs = c1 ++ c :: c2 ∧ a = addr c ∧ str c = t ∧
             ∀ c', c' ∈ c1 → str c' ≠ t.
Proof.
  induction cs as [|c cs IH]; cbn.
  - split; [done|]. intros (c1 & c & c2 & H & _). by destruct c1.
  - destruct (String.eqb_spec (str c) t) as [He|He].
    + split.
      * intros [= <-]. exists [], c, cs. repeat split; try done.
        intros c' Hc'. by apply not_elem_of_nil in Hc'.
      * intros (c1 & c' & c2 & Hcs & -> & Ht & Hno). destruct c1 as [|c0 c1].
        -- by injection Hcs as -> _.
        -- injection Hcs as -> _. destruct (Hno c0); [by left|done].
    + rewrite IH. split.
      * intros (c1 & c' & c2 & -> & -> & Ht & Hno).
        exists (c :: c1), c', c2. repeat split; try done.
        intros c3 [->|H3]%elem_of_cons; auto.
      * intros (c1 & c' & c2 & Hcs & -> & Ht & Hno). destruct c1 as [|c0 c1].
        -- injection Hcs as -> _. done.
        -- injection Hcs as -> ->. exists c1, c', c2. repeat split; try done.
           intros c3 H3. apply Hno. by right.
Qed.

(** The three loops, started at the first node of a chain of owned
    strings, with a bound of at least its length. *)
Lemma find_loop_run t cs : ∀ p fuel m,
  seg (nodes m) p (map addr cs) None →
  Forall (owns m) cs →
  (length cs ≤ fuel)%nat →
  find_loop fuel (first_or (map addr cs) None) (Some t) m = Done (first_match t cs) m.
Proof.
  induction cs as [|c cs IH]; intros p fuel m Hseg Hown Hfuel.
  - by destruct fuel.
  - destruct fuel as [|fuel]; [cbn in Hfuel; lia|].
    cbn in Hseg. destruct Hseg as [(nd & Ha & _ & Hn) Hseg].
    apply Forall_cons in Hown as [(nd' & Ha' & Hd & Hb) Hown].
    rewrite Ha in Ha'. injection Ha' as <-.
    cbn [map first_or find_loop first_match].
    step. rewrite Hd. erewrite bind_eq by (by apply strcmp_eq_eq).
    destruct (String.eqb (str c) t); [reflexivity|].
    step. rewrite Hn. apply (IH (Some (addr c))); [done..|cbn in Hfuel; lia].
Qed.

Lemma print_loop_run cs : ∀ p fuel m,
  seg (nodes m) p (map addr cs) None →
  Forall (owns m) cs →
  (length cs ≤ fuel)%nat →
  print_loop fuel (first_or (map addr cs) None) m =
  Done tt (upd_stdout (fun out => out ++ map str cs) m).
Proof.
  induction cs as [|c cs IH]; intros p fuel m Hseg Hown Hfuel.
  - destruct m. cbn. unfold ret, upd_stdout. cbn. rewrite app_nil_r.
    by destruct fuel.
  - destruct fuel as [|fuel]; [cbn in Hfuel; lia|].
    cbn in Hseg. destruct Hseg as [(nd & Ha & _ & Hn) Hseg].
    apply Forall_cons in Hown as [(nd' & Ha' & Hd & Hb) Hown].
    rewrite Ha in Ha'. injection Ha' as <-.
    cbn [map first_or print_loop].
    step. step. rewrite Hd. steps. rewrite Hn.
    erewrite (IH (Some (addr c))); [| done | | cbn in Hfuel; lia].
    + destruct m. unfold upd_stdout. cbn. by rewrite <- app_assoc.
    + eapply Forall_impl; [exact Hown|]. intros c' (n' & ? & ? & ?). by exists n'.
Qed.

Lemma dealloc_loop_run cs : ∀ p fuel m,
  seg (nodes m) p (map addr cs) None →
  Forall (owns m) cs →
  NoDup (map addr cs) →
  NoDup (map blk cs) →
  (length cs ≤ fuel)%nat →
  dealloc_loop fuel (first_or (map addr cs) None) m =
  Done tt (upd_nodes (fun h => foldr delete h (map addr cs))
            (upd_chars (fun h => foldr delete h (map blk cs)) m)).
Proof.
  induction cs as [|c cs IH]; intros p fuel m Hseg Hown Hna Hnb Hfuel.
  - destruct m. by destruct fuel.
  - destruct fuel as [|fuel]; [cbn in Hfuel; lia|].
    cbn in Hseg. destruct Hseg as [(nd & Ha & _ & Hn) Hseg].
    apply Forall_cons in Hown as [(nd' & Ha' & Hd & Hb) Hown].
    rewrite Ha in Ha'. injection Ha' as <-.
    cbn [map] in Hna, Hnb.
    apply NoDup_cons in Hna as [Hna1 Hna], Hnb as [Hnb1 Hnb].
    cbn [map first_or dealloc_loop].
    step. step. step. rewrite Hd. steps. rewrite Hn.
    erewrite (IH (Some (addr c))); [| | | done | done | cbn in Hfuel; lia].
    + destruct m. unfold upd_nodes, upd_chars. cbn.
      by rewrite !delete_foldr_delete.
    + eapply seg_ext; [|exact Hseg]. intros a Ha'. fields.
      apply lookup_delete_ne. by intros <-.
    + apply Forall_forall. intros c' Hc'.
      rewrite Forall_forall in Hown. destruct (Hown c' Hc') as (n' & H1 & H2 & H3).
      exists n'. fields. rewrite !lookup_delete_ne; [done|..].
      * intros E. apply Hnb1. rewrite E. apply list_elem_of_fmap. by exists c'.
      * intros E. apply Hna1. rewrite E. apply list_elem_of_fmap. by exists c'.
Qed.

(** ** Whole-list operations on a well-formed list *)

Lemma first_or_head xs : first_or xs None = list.head xs.
Proof. by destruct xs. Qed.

Lemma dll_empty m L xs :
  dll m L xs → (head L = None ↔ xs = []) ∧ (last L = None ↔ xs = []).
Proof.
  intros [Hh Hl _ _]. rewrite Hh, Hl. split.
  - by destruct xs.
  - apply last_None.
Qed.

(** Invariant 3 of the data model, read off a chain. *)
Lemma dll_next_prev m L xs a nd b :
  dll m L xs → a ∈ xs → nodes m !! a = Some nd → next nd = Some b →
  ∃ nb, nodes m !! b = Some nb ∧ prev nb = Some a.
Proof.
  intros [_ _ _ Hseg] (l1 & l2 & ->)%list_elem_of_split Ha Hn.
  apply seg_mid in Hseg as (_ & (nd' & Ha' & _ & Hn') & Hs2).
  rewrite Ha in Ha'. injection Ha' as <-. rewrite Hn in Hn'.
  destruct l2 as [|z l2]; [done|]. cbn in Hn'. injection Hn' as <-.
  destruct Hs2 as [(nb & Hb & Hp & _) _]. by exists nb.
Qed.

Lemma dll_prev_next m L xs a nd b :
  dll m L xs → a ∈ xs → nodes m !! a = Some nd → prev nd = Some b →
  ∃ nb, nodes m !! b = Some nb ∧ next nb = Some a.
Proof.
  intros [_ _ _ Hseg] (l1 & l2 & ->)%list_elem_of_split Ha Hp.
  apply seg_mid in Hseg as (Hs1 & (nd' & Ha' & Hp' & _) & _).
  rewrite Ha in Ha'. injection Ha' as <-. rewrite Hp in Hp'.
  destruct (snoc_cases l1) as [->|(l0 & w & ->)]; [done|].
  rewrite last_or_snoc in Hp'. injection Hp' as <-.
  apply seg_mid in Hs1 as (_ & (nb & Hb & _ & Hn) & _). by exists nb.
Qed.

(** Two chains that end and start at the same node are the same. *)
Lemma seg_unique h : ∀ xs ys p p',
  seg h p xs None → seg h p' ys None →
  first_or xs None = first_or ys None → xs = ys.
Proof.
  induction xs as [|a xs IH]; intros ys p p' Hx Hy Hf.
  - by destruct ys.
  - destruct ys as [|b ys]; [done|]. cbn in Hf. injection Hf as <-.
    destruct Hx as [(nd & Ha & _ & Hn) Hx], Hy as [(nd' & Ha' & _ & Hn') Hy].
    rewrite Ha in Ha'. injection Ha' as <-. f_equal.
    eapply IH; [done..|congruence].
Qed.

(** A list structure holds one chain only. *)
Lemma dll_unique m L xs ys : dll m L xs → dll m L ys → xs = ys.
Proof.
  intros [Hh _ _ Hx] [Hh' _ _ Hy]. eapply seg_unique; [done..|].
  rewrite !first_or_head. congruence.
Qed.

(** [find], [test_print_list], [dealloc_list] and [remove_node] on a
    well-formed list of strings. *)
Lemma find_run fuel l L cs t m :
  lists m !! l = Some L →
  is_list m L cs →
  (length cs ≤ fuel)%nat →
  find fuel (Some l) (Some t) m = Done (first_match t cs) m.
Proof.
  intros HL [[Hh _ _ Hseg] _ Hown] Hfuel. unfold find. step.
  rewrite Hh, <- first_or_head. by eapply find_loop_run.
Qed.

Lemma test_print_list_run fuel l L cs m :
  lists m !! l = Some L →
  is_list m L cs →
  (length cs ≤ fuel)%nat →
  test_print_list fuel (Some l) m =
  Done tt (upd_stdout (fun out =>
     out ++ ["==== List start ===="%string] ++ map str cs ++ ["==== List end ===="%string]) m).
Proof.
  intros HL [[Hh _ _ Hseg] _ Hown] Hfuel. unfold test_print_list. steps.
  rewrite Hh, <- first_or_head.
  erewrite bind_eq; [|eapply print_loop_run; [exact Hseg|exact Hown|done]].
  rewrite puts_eq. destruct m. unfold upd_stdout. cbn.
  by rewrite <- !app_assoc.
Qed.

Lemma dealloc_list_run fuel l L cs m :
  lists m !! l = Some L →
  is_list m L cs →
  (length cs ≤ fuel)%nat →
  dealloc_list fuel (Some l) m =
  Done tt (upd_nodes (fun h => foldr delete h (map addr cs))
            (upd_chars (fun h => foldr delete h (map blk cs)) m)).
Proof.
  intros HL [[Hh _ Hnd Hseg] Hnb Hown] Hfuel. unfold dealloc_list. steps.
  rewrite Hh, <- first_or_head. by eapply dealloc_loop_run.
Qed.

Lemma remove_node_is_list l L c1 c c2 m :
  lists m !! l = Some L →
  is_list m L (c1 ++ c :: c2) →
  ∃ m' L',
    remove_node (Some l) (Some (addr c)) m = Done 0 m' ∧
    lists m' = <[l := L']> (lists m) ∧
    is_list m' L' (c1 ++ c2) ∧
    unlinked (addr c) (blk c) m m'.
Proof.
  intros HL [Hdll Hnb Hown].
  rewrite map_app in Hdll, Hnb. cbn [map] in Hdll, Hnb.
  pose proof (dll_nodup _ _ _ Hdll) as Hna.
  apply NoDup_mid in Hna as (_ & _ & Ha1 & Ha2 & _).
  apply NoDup_mid in Hnb as (Hnb1 & Hnb2 & Hb1 & Hb2 & Hbd).
  apply Forall_app in Hown as [Hown1 Hown2].
  apply Forall_cons in Hown2 as [(nd & Ha & Hd & Hs) Hown2].
  destruct (remove_node_dll l L _ _ _ nd _ _ m HL Hdll Ha Hd Hs)
    as (m' & L' & Hrun & HL' & Hdll' & Hul).
  exists m', L'. split; [done|]. split; [done|]. split; [|done]. split.
  - by rewrite map_app.
  - rewrite map_app. apply NoDup_app. split; [done|]. split; [|done].
    intros b Hb Hb'. by apply (Hbd b Hb).
  - apply Forall_app. split.
    + apply Forall_forall. intros c' Hc'. rewrite Forall_forall in Hown1.
      eapply owns_unlinked; [exact Hul| | |by apply Hown1].
      * intros E. apply Ha1. rewrite <- E. apply list_elem_of_fmap. by exists c'.
      * intros E. apply Hb1. rewrite <- E. apply list_elem_of_fmap. by exists c'.
    + apply Forall_forall. intros c' Hc'. rewrite Forall_forall in Hown2.
      eapply owns_unlinked; [exact Hul| | |by apply Hown2].
      * intros E. apply Ha2. rewrite <- E. apply list_elem_of_fmap. by exists c'.
      * intros E. apply Hb2. rewrite <- E. apply list_elem_of_fmap. by exists c'.
Qed.

(** ** Allocation *)

Section AllocatorFacts.

Variable pick : gset positive → positive.
Hypothesis pick_fresh : ∀ X, pick X ∉ X.

Lemma pick_nodes m : nodes m !! pick (dom (nodes m)) = None.
Proof. apply not_elem_of_dom, pick_fresh. Qed.

Lemma pick_chars m : chars m !! pick (dom (chars m)) = None.
Proof. apply not_elem_of_dom, pick_fresh. Qed.

(** [make_node] when its two allocations are granted. *)
Lemma make_node_ok s m rest :
  avail m = true :: true :: rest →
  make_node pick (Some s) m =
  Done (Some (pick (dom (nodes m))))
    (mkMem (<[pick (dom (nodes m)) := mkNode None None (Some (pick (dom (chars m))))]> (nodes m))
           (<[pick (dom (chars m)) := s]> (chars m))
           (lists m) rest (stderr m) (stdout m)).
Proof.
  intros Hav. unfold make_node.
  unfold bind at 1. unfold malloc_node. rewrite Hav. cbn [is_null].
  unfold bind at 1. cbn [strlen ret]. rewrite bind_assoc.
  unfold bind at 1. unfold malloc_chars. fields. cbn [is_null].
  steps.
  unfold ret. f_equal. unfold upd_nodes, upd_chars, upd_avail. cbn.
  by rewrite !insert_insert_eq.
Qed.

(** The new node is outside every well-formed list of the state, which
    the allocation leaves well formed, and it owns its block. *)
Lemma is_list_alloc m L cs s rest :
  is_list m L cs →
  avail m = true :: true :: rest →
  ∃ m1 c,
    make_node pick (Some s) m = Done (Some (addr c)) m1 ∧
    str c = s ∧
    (addr c ∉ map addr cs) ∧
    (blk c ∉ map blk cs) ∧
    is_list m1 L cs ∧
    owns m1 c ∧
    (∃ nd, nodes m1 !! addr c = Some nd) ∧
    lists m1 = lists m ∧ avail m1 = rest ∧
    stderr m1 = stderr m ∧ stdout m1 = stdout m ∧
    nodes m !! addr c = None ∧ chars m !! blk c = None ∧
    (∀ a, a ≠ addr c → nodes m1 !! a = nodes m !! a) ∧
    (∀ b, b ≠ blk c → chars m1 !! b = chars m !! b).
Proof.
  intros [[Hh Hl Hnd Hseg] Hnb Hown] Hav.
  set (a := pick (dom (nodes m))). set (b := pick (dom (chars m))).
  assert (∀ c, c ∈ cs → addr c ≠ a ∧ blk c ≠ b) as Hfresh.
  { intros c Hc. rewrite Forall_forall in Hown.
    destruct (Hown c Hc) as (nd & Ha & _ & Hb). split; intros E.
    - pose proof (pick_nodes m) as F. fold a in F. congruence.
    - pose proof (pick_chars m) as F. fold b in F. congruence. }
  eexists _, (mkCell a b s). split; [by apply make_node_ok|]. cbn [addr blk str].
  split; [done|]. split; [|split].
  - intros (c & E & Hc)%list_elem_of_fmap. by destruct (Hfresh c Hc).
  - intros (c & E & Hc)%list_elem_of_fmap. by destruct (Hfresh c Hc).
  - split; [split; [split; try done | done | ] | ].
    + eapply seg_ext; [|exact Hseg]. intros a' (c & -> & Hc)%list_elem_of_fmap.
      cbn. apply lookup_insert_ne. intros E. by destruct (Hfresh c Hc).
    + apply Forall_forall. intros c Hc. rewrite Forall_forall in Hown.
      destruct (Hown c Hc) as (nd & Ha & Hd & Hb). destruct (Hfresh c Hc).
      exists nd. cbn. by rewrite !lookup_insert_ne.
    + split; [|split; [|repeat (split; [done|])]].
      * eexists. cbn. rewrite !lookup_insert_eq. done.
      * eexists. cbn. by rewrite lookup_insert_eq.
      * split; [apply pick_nodes|]. split; [apply pick_chars|].
        split; intros k Hk; cbn; by rewrite lookup_insert_ne.
Qed.

(** The loop of [init_list] when every allocation is granted: [k]
    iterations from index [i] append the strings [i] to [i + k - 1] to
    the list. *)
Lemma init_loop_ok fuel l strs : ∀ k i m L cs rest,
  lists m !! l = Some L →
  is_list m L cs →
  (i + k ≤ length strs)%nat →
  avail m = repeat true (2 * k) ++ rest →
  ∃ m' L' cs',
    init_loop pick fuel (Some l) (map Some strs) k i m = Done 0 m' ∧
    lists m' !! l = Some L' ∧
    is_list m' L' (cs ++ cs') ∧
    map str cs' = take k (drop i strs) ∧
    avail m' = rest ∧ stderr m' = stderr m ∧ stdout m' = stdout m.
Proof.
  induction k as [|k IH]; intros i m L cs rest HL Hlist Hlen Hav.
  - exists m, L, []. rewrite app_nil_r. done.
  - destruct (lookup_lt_is_Some_2 strs i) as [s Hs]; [lia|].
    replace (2 * S k)%nat with (S (S (2 * k))) in Hav by lia. cbn [repeat app] in Hav.
    destruct (is_list_alloc m L cs s _ Hlist Hav)
      as (m1 & c & Hmk & Hstr & Ha & Hb & Hlist1 & Hown1 & [nd Hnd] & HL1 & Hav1 & He1 & Ho1 & _).
    assert (lists m1 !! l = Some L) as HL1' by (by rewrite HL1).
    destruct (insert_end_dll l L _ (addr c) nd m1 HL1' (il_dll _ _ _ Hlist1) Ha Hnd)
      as (m2 & L2 & Hins & HL2 & Hdll2 & Hrel & Hfr).
    assert (is_list m2 L2 (cs ++ [c])) as Hlist2.
    { split.
      - by rewrite map_app.
      - rewrite map_app. apply NoDup_app. split; [apply (il_blocks _ _ _ Hlist1)|].
        split; [|apply NoDup_singleton].
        intros b' Hb' ->%list_elem_of_singleton. done.
      - apply Forall_app. split.
        + eapply Forall_impl; [apply (il_owns _ _ _ Hlist1)|].
          intros c'. by apply owns_relinked.
        + apply Forall_singleton. by apply (owns_relinked m1). }
    destruct (IH (S i) m2 L2 (cs ++ [c]) rest) as (m' & L' & cs' & Hrun & HL' & Hlist' & Hstrs & Hav' & He' & Ho').
    { rewrite HL2. apply lookup_insert_eq. }
    { done. }
    { lia. }
    { rewrite (rl_avail _ _ Hrel). done. }
    exists m', L', (c :: cs'). split; [|split; [done|split; [|split]]].
    + cbn [init_loop]. rewrite list_lookup_fmap, Hs. cbn [fmap option_fmap option_map].
      erewrite bind_eq by exact Hmk. cbn [is_null].
      erewrite bind_eq by exact Hins. exact Hrun.
    + by rewrite <- app_assoc in Hlist'.
    + cbn [map]. rewrite Hstrs, Hstr. erewrite (drop_S strs s i) by done. done.
    + rewrite Hav', He', Ho', (rl_stderr _ _ Hrel), (rl_stdout _ _ Hrel). done.
Qed.

Lemma init_list_run fuel l L0 strs n rest m :
  lists m !! l = Some L0 →
  0 ≤ n ≤ Z.of_nat (length strs) →
  avail m = repeat true (2 * Z.to_nat n) ++ rest →
  ∃ m' L' cs,
    init_list pick fuel (Some l) (Some (map Some strs)) n m = Done 0 m' ∧
    lists m' !! l = Some L' ∧
    is_list m' L' cs ∧
    map str cs = take (Z.to_nat n) strs ∧
    avail m' = rest ∧ stderr m' = stderr m ∧ stdout m' = stdout m.
Proof.
  intros HL Hn Hav. unfold init_list.
  destruct (Z.ltb_spec n 0) as [H|_]; [lia|]. steps.
  match goal with |- context [init_loop _ _ _ _ _ _ ?m0] => set (m1 := m0) end.
  destruct (init_loop_ok fuel l strs (Z.to_nat n) 0%nat m1
              (mkList None None) [] rest)
    as (m' & L' & cs & Hrun & HL' & Hlist & Hstr & Hrest).
  - subst m1. fields. by rewrite insert_insert_eq, lookup_insert_eq.
  - split; [split|..]; cbn; try done; constructor.
  - lia.
  - done.
  - cbn [app] in Hlist. rewrite drop_0 in Hstr. by exists m', L', cs.
Qed.

(** Well-formedness only depends on the stores of nodes and blocks. *)
Lemma is_list_same m m1 L cs :
  nodes m1 = nodes m → chars m1 = chars m → is_list m L cs → is_list m1 L cs.
Proof.
  intros Hn Hc [[Hh Hl Hnd Hseg] Hnb Hown]. split; [split|..]; try done.
  - by rewrite Hn.
  - eapply Forall_impl; [exact Hown|]. intros c (nd & ? & ? & ?).
    exists nd. by rewrite Hn, Hc.
Qed.

(** [make_node] when one of its two allocations is refused: no node and
    no block is left behind. *)
Lemma make_node_fails s m j tl :
  avail m = repeat true j ++ tl →
  (j < 2)%nat →
  (∀ tl', tl ≠ true :: tl') →
  ∃ m1,
    make_node pick (Some s) m = Done None m1 ∧
    nodes m1 = nodes m ∧ chars m1 = chars m ∧ lists m1 = lists m ∧
    avail m1 = tail tl ∧ stdout m1 = stdout m.
Proof.
  intros Hav Hj Htl.
  destruct j as [|[|j]]; [| |lia]; cbn [repeat app] in Hav.
  - unfold make_node. unfold bind at 1. unfold malloc_node. rewrite Hav.
    destruct tl as [|[] tl']; [|by destruct (Htl tl')|]; cbn [is_null]; steps;
      (eexists; split; [reflexivity|]); fields; rewrite Hav; done.
  - unfold make_node. unfold bind at 1. unfold malloc_node. rewrite Hav.
    cbn [is_null]. unfold bind at 1. cbn [strlen ret]. rewrite bind_assoc.
    unfold bind at 1. unfold malloc_chars. fields.
    destruct tl as [|[] tl']; [|by destruct (Htl tl')|]; cbn [is_null]; steps;
      (eexists; split; [reflexivity|]); fields;
      rewrite ?insert_insert_eq, delete_insert_eq, (delete_id _ _ (pick_nodes m));
      done.
Qed.

(** The loop of [init_list] when the allocation number [j + 1] from its
    start is refused: the nodes and blocks of the chain built so far,
    those of the elements the list held when the loop started included,
    are released, and the value returned is that of [ALLOC_FAIL]. *)
Lemma init_loop_fails fuel l strs tl : ∀ k i m L cs j,
  lists m !! l = Some L →
  is_list m L cs →
  (i + k ≤ length strs)%nat →
  (j < 2 * k)%nat →
  avail m = repeat true j ++ tl →
  (∀ tl', tl ≠ true :: tl') →
  (length cs + j / 2 ≤ fuel)%nat →
  ∃ m' L',
    init_loop pick fuel (Some l) (map Some strs) k i m
      = Done (Error_value ALLOC_FAIL) m' ∧
    nodes m' = foldr delete (nodes m) (map addr cs) ∧
    chars m' = foldr delete (chars m) (map blk cs) ∧
    avail m' = tail tl ∧ stdout m' = stdout m ∧
    lists m' !! l = Some L' ∧
    (head L' = None ↔ (length cs + j / 2 = 0)%nat) ∧
    (∀ a, head L' = Some a → nodes m' !! a = None).
Proof.
  induction k as [|k IH]; intros i m L cs j HL Hlist Hlen Hj Hav Htl Hfuel; [lia|].
  destruct (lookup_lt_is_Some_2 strs i) as [s Hs]; [lia|].
  cbn [init_loop]. rewrite list_lookup_fmap, Hs. cbn [fmap option_fmap option_map].
  destruct (decide (j < 2)%nat) as [Hsmall|Hbig].
  - destruct (make_node_fails s m j tl Hav Hsmall Htl)
      as (m1 & Hmk & Hn1 & Hc1 & HL1 & Hav1 & Ho1).
    erewrite bind_eq by exact Hmk. cbn [is_null].
    assert (lists m1 !! l = Some L) as HL1' by (by rewrite HL1).
    assert (j / 2 = 0)%nat as Hj0 by (destruct j as [|[|?]]; [done|done|lia]).
    erewrite bind_eq;
      [|eapply dealloc_list_run; [exact HL1'|by eapply is_list_same|lia]].
    eexists _, L. split; [reflexivity|]. fields. rewrite Hn1, Hc1, Hj0, HL1.
    repeat (split; [done|]). split.
    + destruct (dll_empty _ _ _ (il_dll _ _ _ Hlist)) as [-> _].
      rewrite <- (length_map addr), <- length_zero_iff_nil. lia.
    + intros a Ha. apply lookup_foldr_delete.
      rewrite (dll_head _ _ _ (il_dll _ _ _ Hlist)) in Ha.
      by apply head_Some_elem_of.
  - destruct j as [|[|j]]; [lia|lia|]. cbn [repeat app] in Hav.
    destruct (is_list_alloc m L cs s _ Hlist Hav)
      as (m1 & c & Hmk & Hstr & Ha & Hb & Hlist1 & Hown1 & [nd Hnd] & HL1 & Hav1
          & He1 & Ho1 & Hfa & Hfb & Hna & Hnb).
    assert (lists m1 !! l = Some L) as HL1' by (by rewrite HL1).
    destruct (insert_end_dll l L _ (addr c) nd m1 HL1' (il_dll _ _ _ Hlist1) Ha Hnd)
      as (m2 & L2 & Hins & HL2 & Hdll2 & Hrel & Hfr).
    assert (is_list m2 L2 (cs ++ [c])) as Hlist2.
    { split.
      - by rewrite map_app.
      - rewrite map_app. apply NoDup_app. split; [apply (il_blocks _ _ _ Hlist1)|].
        split; [|apply NoDup_singleton].
        intros b' Hb' ->%list_elem_of_singleton. done.
      - apply Forall_app. split.
        + eapply Forall_impl; [apply (il_owns _ _ _ Hlist1)|].
          intros c'. by apply owns_relinked.
        + apply Forall_singleton. by apply (owns_relinked m1). }
    assert (S (S j) / 2 = S (j / 2))%nat as Hdiv.
    { change (S (S j)) with (1 * 2 + j)%nat. by rewrite Nat.div_add_l. }
    destruct (IH (S i) m2 L2 (cs ++ [c]) j)
      as (m' & L' & Hrun & Hn' & Hc' & Hav' & Ho' & HL' & Hhd & Hdang).
    { rewrite HL2. apply lookup_insert_eq. }
    { done. }
    { lia. }
    { lia. }
    { rewrite (rl_avail _ _ Hrel). done. }
    { done. }
    { rewrite Hdiv in Hfuel. rewrite length_app. cbn [length]. lia. }
    exists m', L'. split.
    { erewrite bind_eq by exact Hmk. cbn [is_null].
      erewrite bind_eq by exact Hins. exact Hrun. }
    pose proof (rl_stdout _ _ Hrel) as Ho2.
    split; [|split; [|repeat (split; [congruence || done|]); split; [|done]]].
    + rewrite Hn', !map_app. cbn [map]. apply map_eq. intros a.
      destruct (decide (a ∈ map addr cs)) as [Hin|Hout].
      { rewrite !lookup_foldr_delete; [done..|]. apply elem_of_app. by left. }
      rewrite (lookup_foldr_delete_not_elem_of (nodes m)) by done.
      destruct (decide (a = addr c)) as [->|Hne].
      { rewrite Hfa. apply lookup_foldr_delete, elem_of_app. right. by left. }
      rewrite lookup_foldr_delete_not_elem_of.
      * rewrite Hfr by done. by apply Hna.
      * rewrite elem_of_app, list_elem_of_singleton. tauto.
    + rewrite Hc', (rl_chars _ _ Hrel), !map_app. cbn [map]. apply map_eq. intros b.
      destruct (decide (b ∈ map blk cs)) as [Hin|Hout].
      { rewrite !lookup_foldr_delete; [done..|]. apply elem_of_app. by left. }
      rewrite (lookup_foldr_delete_not_elem_of (chars m)) by done.
      destruct (decide (b = blk c)) as [->|Hne].
      { rewrite Hfb. apply lookup_foldr_delete, elem_of_app. right. by left. }
      rewrite lookup_foldr_delete_not_elem_of.
      * by apply Hnb.
      * rewrite elem_of_app, list_elem_of_singleton. tauto.
    + rewrite Hhd, length_app, Hdiv. cbn [length]. lia.
Qed.

(** [init_list] when the allocation number [j + 1] is refused, [j] being
    less than the [2 * n] allocations the call needs: the value returned
    is that of [ALLOC_FAIL], and the stores of nodes and of blocks are as
    they were before the call. *)
Lemma init_list_rollback fuel l L0 strs n j tl m :
  lists m !! l = Some L0 →
  0 ≤ n ≤ Z.of_nat (length strs) →
  (j < 2 * Z.to_nat n)%nat →
  avail m = repeat true j ++ tl →
  (∀ tl', tl ≠ true :: tl') →
  (j / 2 ≤ fuel)%nat →
  ∃ m' L',
    init_list pick fuel (Some l) (Some (map Some strs)) n m
      = Done (Error_value ALLOC_FAIL) m' ∧
    nodes m' = nodes m ∧ chars m' = chars m ∧
    avail m' = tail tl ∧ stdout m' = stdout m ∧
    lists m' !! l = Some L' ∧
    (head L' = None ↔ (j < 2)%nat) ∧
    (∀ a, head L' = Some a → nodes m' !! a = None).
Proof.
  intros HL Hn Hj Hav Htl Hfuel. unfold init_list.
  destruct (Z.ltb_spec n 0) as [H|_]; [lia|]. steps.
  match goal with |- context [init_loop _ _ _ _ _ _ ?m0] => set (m1 := m0) end.
  destruct (init_loop_fails fuel l strs tl (Z.to_nat n) 0%nat m1
              (mkList None None) [] j)
    as (m' & L' & Hrun & Hn' & Hc' & Hav' & Ho' & HL' & Hhd & Hdang).
  - subst m1. fields. by rewrite insert_insert_eq, lookup_insert_eq.
  - split; [split|..]; cbn; try done; constructor.
  - lia.
  - done.
  - done.
  - done.
  - done.
  - exists m', L'. repeat (split; [done|]). split; [|done]. rewrite Hhd. cbn [length].
    destruct j as [|[|j]]; [cbn; lia|cbn; lia|].
    change (S (S j)) with (1 * 2 + j)%nat. rewrite Nat.div_add_l by done. lia.
Qed.

End AllocatorFacts.

(** ** The examples are well formed *)

Lemma pick_least_fresh X : pick_least X ∉ X.
Proof. apply is_fresh. Qed.

Lemma m_one_is_list : is_list m_one L_one [c_one].
Proof.
  split; [split|..]; cbn; try done.
  - apply NoDup_singleton.
  - split; [|done]. eexists. split; [reflexivity|]. done.
  - apply NoDup_singleton.
  - apply Forall_singleton. eexists. split; [reflexivity|]. done.
Qed.

Lemma m_two_dll : dll m_two L_one [2%positive].
Proof.
  split; cbn; try done.
  - apply NoDup_singleton.
  - split; [|done]. eexists. split; [reflexivity|]. done.
Qed.

Lemma m_three_dll : dll m_three L_three [2%positive; 4%positive; 6%positive].
Proof.
  split; cbn; try done.
  - compute_done.
  - repeat split; eexists; (split; [reflexivity|done]).
Qed.

Lemma m_three_is_list : is_list m_three L_three [c_a; c_b; c_c].
Proof.
  split.
  - apply m_three_dll.
  - compute_done.
  - repeat (apply Forall_cons; split; [eexists; split; [reflexivity|done]|]).
    apply Forall_nil_2.
Qed.

(** ** Argument checks *)

(** The six operations that test their pointer arguments: when one of
    the tested arguments is absent, each returns the value of [NULL_PTR]
    ([find]: [NULL]) after one line on the error stream, and changes
    nothing else. *)
Lemma null_arguments_reported fuel list node new_node target m :
  let m' := upd_stderr (fun out => out ++ [("list_lib error: " +:+ ERROR NULL_PTR)%string]) m in
  (is_null list || is_null node || is_null new_node = true →
   insert_after list node new_node m = Done (Error_value NULL_PTR) m' ∧
   insert_before list node new_node m = Done (Error_value NULL_PTR) m') ∧
  (is_null list || is_null new_node = true →
   insert_front list new_node m = Done (Error_value NULL_PTR) m' ∧
   insert_end list new_node m = Done (Error_value NULL_PTR) m') ∧
  (is_null list || is_null node = true →
   remove_node list node m = Done (Error_value NULL_PTR) m') ∧
  (is_null list || is_null target = true →
   find fuel list target m = Done None m').
Proof.
  intros m'.
  unfold insert_after, insert_before, insert_front, insert_end, remove_node, find.
  repeat split; intros;
    match goal with H : _ = true |- _ => rewrite H end; reflexivity.
Qed.

(** C2 (where the code departs from it): [init_list] does not test its
    [list] argument; with a present string array and a count that is not
    negative it goes on to write [list->head], which for an absent list
    is a null dereference. *)
Theorem init_list_null_list_faults pick fuel strs (n : nat) m :
  init_list pick fuel None (Some strs) (Z.of_nat n) m = Fault.
Proof.
  unfold init_list. destruct (Z.ltb_spec (Z.of_nat n) 0) as [H|H]; [lia|].
  reflexivity.
Qed.

(** C10: when the string array is absent, or the count is negative,
    [init_list] returns the error value after writing one line to the
    error stream and nothing else: the [List] structure (whatever it
    held, and even if the pointer to it is not valid), the nodes, the
    blocks and the allocator are as they were. *)
Theorem init_list_rejects_before_writing pick fuel list strs data_len m :
  (∃ m', init_list pick fuel list None data_len m = Done (Error_value NULL_PTR) m' ∧
         lists m' = lists m ∧ nodes m' = nodes m ∧ chars m' = chars m ∧
         avail m' = avail m) ∧
  (data_len < 0 →
   ∃ m', init_list pick fuel list (Some strs) data_len m = Done (Error_value LEN_INVALID) m' ∧
         lists m' = lists m ∧ nodes m' = nodes m ∧ chars m' = chars m ∧
         avail m' = avail m).
Proof.
  split.
  - eexists. split; [reflexivity|]. done.
  - intros Hneg. eexists. unfold init_list.
    destruct (Z.ltb_spec data_len 0) as [H|H]; [|lia].
    split; [reflexivity|]. done.
Qed.

Lemma init_list_rejects_before_writing_witness :
  ∃ m', init_list pick_least 0 (Some 10%positive) (Some TEST_DATA) (- DATA_LEN) m_short
        = Done (Error_value LEN_INVALID) m' ∧
        lists m' = lists m_short ∧ nodes m' = nodes m_short ∧
        chars m' = chars m_short ∧ avail m' = avail m_short.
Proof.
  apply (init_list_rejects_before_writing pick_least 0 (Some 10%positive)
           TEST_DATA (- DATA_LEN) m_short).
  reflexivity.
Defined.

(** C1 (where the code departs from it): [ALLOC_FAIL] is the first
    constant of the enumeration, so its value is 0, the value [init_list]
    returns on success.  Here the allocation of the second node fails:
    the call returns 0, the node and the block of the first element are
    released, and [head] and [last] of the caller's list still point to
    the released node.  With enough memory the same call returns 0 as
    well. *)
Theorem init_list_alloc_failure_returns_zero :
  Error_value ALLOC_FAIL = 0 ∧
  (∃ m', init_list pick_least 2 (Some 10%positive) (Some TEST_DATA) 2 m_short = Done 0 m' ∧
         nodes m' = ∅ ∧ chars m' = ∅ ∧
         lists m' !! 10%positive = Some (mkList (Some 1%positive) (Some 1%positive)) ∧
         nodes m' !! 1%positive = None ∧
         stderr m' = ["list_lib error: Dynamic memory allocation failed."%string]) ∧
  (∃ m', init_list pick_least 2 (Some 10%positive) (Some TEST_DATA) 2 m_enough = Done 0 m' ∧
         lists m' !! 10%positive = Some (mkList (Some 1%positive) (Some 2%positive)) ∧
         stderr m' = []).
Proof.
  split; [reflexivity|]. split.
  - eexists. split; [vm_compute; reflexivity|]. vm_compute. done.
  - eexists. split; [vm_compute; reflexivity|]. vm_compute. done.
Qed.

(** C3 (as stated, refuted): after [dealloc_list] on the one-element
    list [m_one], which is well formed, the node and its block are
    released but [head] and [last] still hold the location of the
    released node. *)
Lemma dealloc_list_keeps_head_and_last :
  is_list m_one L_one [c_one] ∧
  ∃ m' L',
    dealloc_list 1 (Some 1%positive) m_one = Done tt m' ∧
    lists m' !! 1%positive = Some L' ∧
    head L' = Some 2%positive ∧ last L' = Some 2%positive ∧
    ¬ (head L' = None ∧ last L' = None) ∧
    nodes m' !! 2%positive = None ∧ chars m' !! 3%positive = None.
Proof.
  split; [apply m_one_is_list|].
  eexists _, L_one. split; [vm_compute; reflexivity|].
  vm_compute. repeat split; try done. by intros [? _].
Qed.

(** C3 (amended): [dealloc_list] on a well-formed list releases every
    node of the chain and the block of its string, and touches no other
    node or block and no list structure: [head] and [last] keep their
    values.  On an absent list it does nothing. *)
Theorem dealloc_list_releases fuel l L cs m :
  dealloc_list fuel None m = Done tt m ∧
  (lists m !! l = Some L →
   is_list m L cs →
   (length cs ≤ fuel)%nat →
   ∃ m',
     dealloc_list fuel (Some l) m = Done tt m' ∧
     (∀ c, c ∈ cs → nodes m' !! addr c = None ∧ chars m' !! blk c = None) ∧
     (∀ a, a ∉ map addr cs → nodes m' !! a = nodes m !! a) ∧
     (∀ b, b ∉ map blk cs → chars m' !! b = chars m !! b) ∧
     lists m' = lists m ∧
     avail m' = avail m ∧ stderr m' = stderr m ∧ stdout m' = stdout m).
Proof.
  split; [reflexivity|]. intros HL Hlist Hfuel.
  eexists. split; [by eapply dealloc_list_run|]. fields.
  split; [|split; [|split; [|done]]].
  - intros c Hc. split; apply lookup_foldr_delete, list_elem_of_fmap; by exists c.
  - intros a Ha. by apply lookup_foldr_delete_not_elem_of.
  - intros b Hb. by apply lookup_foldr_delete_not_elem_of.
Qed.

Lemma dealloc_list_releases_witness :
  ∃ m',
    dealloc_list 1 (Some 1%positive) m_one = Done tt m' ∧
    (∀ c, c ∈ [c_one] → nodes m' !! addr c = None ∧ chars m' !! blk c = None) ∧
    (∀ a, a ∉ map addr [c_one] → nodes m' !! a = nodes m_one !! a) ∧
    (∀ b, b ∉ map blk [c_one] → chars m' !! b = chars m_one !! b) ∧
    lists m' = lists m_one ∧
    avail m' = avail m_one ∧ stderr m' = stderr m_one ∧ stdout m' = stdout m_one.
Proof.
  apply (dealloc_list_releases 1 1%positive L_one [c_one] m_one).
  - reflexivity.
  - apply m_one_is_list.
  - cbn. lia.
Defined.

(** ** Insertion *)

Lemma last_mid_nodup (l1 : list positive) x l2 :
  NoDup (l1 ++ x :: l2) → (list.last (l1 ++ x :: l2) = Some x ↔ l2 = []).
Proof.
  intros (_ & _ & _ & Hx2 & _)%NoDup_mid. split.
  - intros Hlast. destruct l2 as [|z l2]; [done|]. exfalso. apply Hx2.
    change (x :: z :: l2) with ([x] ++ z :: l2) in Hlast.
    rewrite !last_app in Hlast.
    destruct (list.last (z :: l2)) as [t|] eqn:E.
    + injection Hlast as ->. apply last_Some in E as [l' ->].
      apply elem_of_app. right. by left.
    + by apply last_None in E.
  - intros ->. by rewrite last_snoc.
Qed.

(** C4: on a well-formed list, inserting a node [y] that is allocated
    and not in the chain after a member [x] succeeds and leaves
    [x.next == y] and [y.prev == x]; [y.next] is what [x.next] was; if
    [x] was not the last node then [y.next.prev == y], and if it was
    then [last] of the list is [y]. *)
Theorem insert_after_links l L xs x y ny m :
  lists m !! l = Some L →
  dll m L xs →
  x ∈ xs →
  y ∉ xs →
  nodes m !! y = Some ny →
  ∃ m' L' nx' ny',
    insert_after (Some l) (Some x) (Some y) m = Done 0 m' ∧
    lists m' !! l = Some L' ∧
    nodes m' !! x = Some nx' ∧ next nx' = Some y ∧
    nodes m' !! y = Some ny' ∧ prev ny' = Some x ∧
    (∀ nx, nodes m !! x = Some nx → next ny' = next nx) ∧
    (list.last xs ≠ Some x →
     ∃ z nz', next ny' = Some z ∧ nodes m' !! z = Some nz' ∧ prev nz' = Some y) ∧
    (list.last xs = Some x → last L' = Some y).
Proof.
  intros HL Hdll (l1 & l2 & ->)%list_elem_of_split Hy Hny.
  destruct (insert_after_dll l L l1 x l2 y ny m HL Hdll Hy Hny)
    as (m' & L' & Hrun & HL' & [_ Hl' _ Hseg'] & _ & _).
  pose proof (last_mid_nodup _ _ _ (dll_nodup _ _ _ Hdll)) as Hlast.
  destruct Hdll as [_ _ _ Hseg].
  apply seg_mid in Hseg as (_ & (nx & Hx & _ & Hnx) & _).
  apply seg_mid in Hseg' as (_ & (nx' & Hx' & _ & Hnx') & Hs2).
  cbn [seg first_or] in Hs2, Hnx'. destruct Hs2 as [(ny' & Hy' & Hpy' & Hny') Hs2].
  exists m', L', nx', ny'. split; [done|]. split; [rewrite HL'; apply lookup_insert_eq|].
  repeat (split; [done|]). split; [|split].
  - intros nx0 Hx0. rewrite Hx in Hx0. injection Hx0 as <-. congruence.
  - intros Hnl. destruct l2 as [|z l2]; [by destruct Hnl; apply Hlast|].
    destruct Hs2 as [(nz' & Hz' & Hpz' & _) _]. by exists z, nz'.
  - intros ->%Hlast. rewrite Hl'.
    change (l1 ++ [x; y]) with (l1 ++ [x] ++ [y]). by rewrite !app_assoc, last_snoc.
Qed.

Lemma insert_after_links_witness :
  ∃ m' L' nx' ny',
    insert_after (Some 1%positive) (Some 2%positive) (Some 4%positive) m_two = Done 0 m' ∧
    lists m' !! 1%positive = Some L' ∧
    nodes m' !! 2%positive = Some nx' ∧ next nx' = Some 4%positive ∧
    nodes m' !! 4%positive = Some ny' ∧ prev ny' = Some 2%positive ∧
    (∀ nx, nodes m_two !! 2%positive = Some nx → next ny' = next nx) ∧
    (list.last [2%positive] ≠ Some 2%positive →
     ∃ z nz', next ny' = Some z ∧ nodes m' !! z = Some nz' ∧ prev nz' = Some 4%positive) ∧
    (list.last [2%positive] = Some 2%positive → last L' = Some 4%positive).
Proof.
  apply (insert_after_links 1%positive L_one [2%positive] 2%positive 4%positive
           (mkNode None None (Some 5%positive)) m_two).
  - reflexivity.
  - apply m_two_dll.
  - apply list_elem_of_singleton. reflexivity.
  - rewrite list_elem_of_singleton. discriminate.
  - reflexivity.
Defined.

(** C9: on a well-formed list, [insert_after] at a member whose [next]
    is present, and [insert_before] at a member whose [prev] is present,
    succeed and leave the store of list structures as it was: [head] and
    [last] are not written. *)
Theorem insert_inside_keeps_head_and_last l L xs x nx y ny m :
  lists m !! l = Some L →
  dll m L xs →
  x ∈ xs →
  y ∉ xs →
  nodes m !! x = Some nx →
  nodes m !! y = Some ny →
  (next nx ≠ None →
   ∃ m', insert_after (Some l) (Some x) (Some y) m = Done 0 m' ∧
         lists m' = lists m ∧ lists m' !! l = Some L) ∧
  (prev nx ≠ None →
   ∃ m', insert_before (Some l) (Some x) (Some y) m = Done 0 m' ∧
         lists m' = lists m ∧ lists m' !! l = Some L).
Proof.
  intros HL Hdll (l1 & l2 & ->)%list_elem_of_split Hy Hx Hny.
  pose proof (dll_links _ _ _ Hdll) as Hseg.
  apply seg_mid in Hseg as (_ & (nx0 & Hx0 & Hp & Hn) & _).
  rewrite Hx in Hx0. injection Hx0 as <-. split.
  - intros Hnn.
    destruct (insert_after_dll l L l1 x l2 y ny m HL Hdll Hy Hny)
      as (m' & L' & Hrun & HL' & _ & _ & Hsame & _).
    rewrite Hsame in HL'.
    + rewrite insert_id in HL' by done. exists m'. by rewrite HL'.
    + intros ->. by apply Hnn.
  - intros Hnn.
    destruct (insert_before_dll l L l1 x l2 y ny m HL Hdll Hy Hny)
      as (m' & L' & Hrun & HL' & _ & _ & Hsame & _).
    rewrite Hsame in HL'.
    + rewrite insert_id in HL' by done. exists m'. by rewrite HL'.
    + intros ->. by apply Hnn.
Qed.

Lemma insert_inside_keeps_head_and_last_witness :
  (∃ m', insert_after (Some 1%positive) (Some 4%positive) (Some 8%positive) m_three = Done 0 m' ∧
         lists m' = lists m_three ∧ lists m' !! 1%positive = Some L_three) ∧
  (∃ m', insert_before (Some 1%positive) (Some 4%positive) (Some 8%positive) m_three = Done 0 m' ∧
         lists m' = lists m_three ∧ lists m' !! 1%positive = Some L_three).
Proof.
  destruct (insert_inside_keeps_head_and_last 1%positive L_three
              [2%positive; 4%positive; 6%positive] 4%positive
              (mkNode (Some 2%positive) (Some 6%positive) (Some 5%positive))
              8%positive (mkNode None None (Some 9%positive)) m_three) as [Ha Hb].
  - reflexivity.
  - apply m_three_dll.
  - compute_done.
  - compute_done.
  - reflexivity.
  - reflexivity.
  - split; [apply Ha|apply Hb]; discriminate.
Defined.

(** ** Removal *)

(** C5: on a well-formed list, removing a member succeeds and leaves a
    well-formed list of the other elements, in their order: the chain is
    linked both ways, ends on both sides and has no node twice.  Every
    chain the list holds afterwards has one element less; the node and
    its block are released; and when the member was the only element,
    [head] and [last] are both absent. *)
Theorem remove_node_restores l L c1 c c2 m :
  lists m !! l = Some L →
  is_list m L (c1 ++ c :: c2) →
  ∃ m' L',
    remove_node (Some l) (Some (addr c)) m = Done 0 m' ∧
    lists m' !! l = Some L' ∧
    is_list m' L' (c1 ++ c2) ∧
    (∀ xs, dll m' L' xs → (length xs + 1 = length (c1 ++ c :: c2))%nat) ∧
    nodes m' !! addr c = None ∧ chars m' !! blk c = None ∧
    (c1 = [] → c2 = [] → head L' = None ∧ last L' = None).
Proof.
  intros HL Hlist.
  destruct (remove_node_is_list l L c1 c c2 m HL Hlist)
    as (m' & L' & Hrun & HL' & Hlist' & Hul).
  exists m', L'. split; [done|]. split; [rewrite HL'; apply lookup_insert_eq|].
  split; [done|]. split; [|split; [|split]].
  - intros xs Hxs. rewrite (dll_unique _ _ _ _ Hxs (il_dll _ _ _ Hlist')).
    rewrite length_map, !length_app. cbn. lia.
  - apply (ul_node _ _ _ _ Hul).
  - rewrite (ul_chars _ _ _ _ Hul). apply lookup_delete_eq.
  - intros -> ->. destruct Hlist' as [[Hh Hl _ _] _ _]. done.
Qed.

Lemma remove_node_restores_witness :
  ∃ m' L',
    remove_node (Some 1%positive) (Some (addr c_b)) m_three = Done 0 m' ∧
    lists m' !! 1%positive = Some L' ∧
    is_list m' L' ([c_a] ++ [c_c]) ∧
    (∀ xs, dll m' L' xs → (length xs + 1 = length ([c_a] ++ c_b :: [c_c]))%nat) ∧
    nodes m' !! addr c_b = None ∧ chars m' !! blk c_b = None ∧
    ([c_a] = [] → [c_c] = [] → head L' = None ∧ last L' = None).
Proof.
  apply (remove_node_restores 1%positive L_three [c_a] c_b [c_c] m_three).
  - reflexivity.
  - apply m_three_is_list.
Defined.

(** ** Search *)

(** C7: [find] with an absent list or an absent target returns [NULL]
    (after a line on the error stream).  On a well-formed list it
    returns the first node, from the head on, whose string equals the
    target, and [NULL] when the list has no such node, the empty list
    included; it changes nothing.  So [NULL] is returned for absent
    arguments and for a string that is not in the list alike. *)
Theorem find_first_match fuel l L cs t m :
  (∃ m', find fuel None (Some t) m = Done None m') ∧
  (∃ m', find fuel (Some l) None m = Done None m') ∧
  (lists m !! l = Some L →
   is_list m L cs →
   (length cs ≤ fuel)%nat →
   ∃ r,
     find fuel (Some l) (Some t) m = Done r m ∧
     ((r = None ∧ ∀ c, c ∈ cs → str c ≠ t) ∨
      (∃ c1 c c2, cs = c1 ++ c :: c2 ∧ r = Some (addr c) ∧ str c = t ∧
                  ∀ c', c' ∈ c1 → str c' ≠ t))).
Proof.
  split; [by eexists|]. split; [by eexists|].
  intros HL Hlist Hfuel. exists (first_match t cs).
  split; [by eapply find_run|].
  destruct (first_match t cs) as [a|] eqn:E.
  - right. apply first_match_Some in E as (c1 & c & c2 & -> & -> & Ht & Hno).
    by exists c1, c, c2.
  - left. split; [done|]. by apply first_match_None.
Qed.

Lemma find_first_match_witness :
  ∃ r,
    find 3 (Some 1%positive) (Some "ABC1"%string) m_three = Done r m_three ∧
    ((r = None ∧ ∀ c, c ∈ [c_a; c_b; c_c] → str c ≠ "ABC1"%string) ∨
     (∃ c1 c c2, [c_a; c_b; c_c] = c1 ++ c :: c2 ∧ r = Some (addr c) ∧
                 str c = "ABC1"%string ∧
                 ∀ c', c' ∈ c1 → str c' ≠ "ABC1"%string)).
Proof.
  apply (find_first_match 3 1%positive L_three [c_a; c_b; c_c] "ABC1"%string m_three).
  - reflexivity.
  - apply m_three_is_list.
  - cbn. lia.
Defined.

(** ** Construction *)

Section Construction.

Variable pick : gset positive → positive.
Hypothesis pick_fresh : ∀ X, pick X ∉ X.

(** C6: for a present list structure, an array of present strings and a
    count [n] between 0 and the length of the array, [init_list], when
    the [2 * n] allocations it asks for are granted, returns 0 and
    leaves a well-formed list of [n] nodes that own the first [n]
    strings of the array in their order; [head] and [last] are absent
    exactly when [n] is 0. *)
Theorem init_list_builds fuel l L0 strs n rest m :
  lists m !! l = Some L0 →
  0 ≤ n ≤ Z.of_nat (length strs) →
  avail m = repeat true (2 * Z.to_nat n) ++ rest →
  ∃ m' L' cs,
    init_list pick fuel (Some l) (Some (map Some strs)) n m = Done 0 m' ∧
    lists m' !! l = Some L' ∧
    is_list m' L' cs ∧
    map str cs = take (Z.to_nat n) strs ∧
    length cs = Z.to_nat n ∧
    (head L' = None ↔ n = 0) ∧ (last L' = None ↔ n = 0) ∧
    avail m' = rest ∧ stderr m' = stderr m ∧ stdout m' = stdout m.
Proof.
  intros HL Hn Hav.
  destruct (init_list_run pick pick_fresh fuel l L0 strs n rest m HL Hn Hav)
    as (m' & L' & cs & Hrun & HL' & Hlist & Hstr & Hrest).
  assert (length cs = Z.to_nat n) as Hlen.
  { rewrite <- (length_map str), Hstr, length_take. lia. }
  destruct (dll_empty _ _ _ (il_dll _ _ _ Hlist)) as [Hh Hl].
  assert (map addr cs = [] ↔ n = 0) as Hz.
  { rewrite <- length_zero_iff_nil, length_map, Hlen. lia. }
  exists m', L', cs. rewrite Hh, Hl. done.
Qed.

(** C8: with the twenty allocations granted, the round trip on the ten
    strings "ABC0" to "ABC9" finds a node for "ABC4", removes it, does
    not find "ABC4" afterwards, and the walk from the head then prints
    the nine other strings in their original order. *)
Theorem round_trip_ABC4 fuel l L0 rest m :
  lists m !! l = Some L0 →
  avail m = repeat true 20 ++ rest →
  (10 ≤ fuel)%nat →
  ∃ a m',
    round_trip pick fuel (Some l) m = Done (0, Some a, 0, None) m' ∧
    stdout m' = stdout m ++
      ["==== List start ===="; "ABC0"; "ABC1"; "ABC2"; "ABC3";
       "ABC5"; "ABC6"; "ABC7"; "ABC8"; "ABC9"; "==== List end ===="]%string.
Proof.
  intros HL Hav Hfuel.
  destruct (init_list_run pick pick_fresh fuel l L0
              ["ABC0"; "ABC1"; "ABC2"; "ABC3"; "ABC4";
               "ABC5"; "ABC6"; "ABC7"; "ABC8"; "ABC9"]%string 10 rest m HL)
    as (m1 & L1 & cs & Hinit & HL1 & Hlist1 & Hstr & _ & _ & Ho1).
  { cbn. lia. }
  { exact Hav. }
  change (Z.to_nat 10) with 10%nat in Hstr. cbn [take] in Hstr.
  do 10 (destruct cs as [|[? ? ?] cs]; [discriminate Hstr|]).
  destruct cs; [|discriminate Hstr]. cbn in Hstr. simplify_eq.
  match type of Hlist1 with
  | is_list _ _ (?k0 :: ?k1 :: ?k2 :: ?k3 :: ?k4 :: ?tl) =>
      change (is_list m1 L1 ([k0; k1; k2; k3] ++ k4 :: tl)) in Hlist1;
      pose proof (find_run fuel l L1 _ "ABC4" m1 HL1 Hlist1) as Hfind;
      destruct (remove_node_is_list l L1 [k0; k1; k2; k3] k4 tl m1 HL1 Hlist1)
        as (m2 & L2 & Hrem & HL2 & Hlist2 & Hul)
  end.
  assert (lists m2 !! l = Some L2) as HL2' by (rewrite HL2; apply lookup_insert_eq).
  pose proof (find_run fuel l L2 _ "ABC4" m2 HL2' Hlist2) as Hfind2.
  pose proof (test_print_list_run fuel l L2 _ m2 HL2' Hlist2) as Hprint.
  cbn in Hfind, Hfind2, Hprint.
  eexists _, _. unfold round_trip. split.
  - erewrite bind_eq by exact Hinit.
    erewrite bind_eq by (apply Hfind; lia).
    erewrite bind_eq by exact Hrem.
    erewrite bind_eq by (apply Hfind2; lia).
    erewrite bind_eq by (apply Hprint; lia).
    reflexivity.
  - fields. rewrite (ul_stdout _ _ _ _ Hul), Ho1. reflexivity.
Qed.

End Construction.

Lemma init_list_builds_witness :
  ∃ m' L' cs,
    init_list pick_least 0 (Some 10%positive)
      (Some (map Some ["ABC0"; "ABC1"; "ABC2"]%string)) 2 m_enough = Done 0 m' ∧
    lists m' !! 10%positive = Some L' ∧
    is_list m' L' cs ∧
    map str cs = take (Z.to_nat 2) ["ABC0"; "ABC1"; "ABC2"]%string ∧
    length cs = Z.to_nat 2 ∧
    (head L' = None ↔ 2 = 0) ∧ (last L' = None ↔ 2 = 0) ∧
    avail m' = [] ∧ stderr m' = stderr m_enough ∧ stdout m' = stdout m_enough.
Proof.
  apply (init_list_builds pick_least pick_least_fresh 0 10%positive
           (mkList (Some 7%positive) (Some 9%positive))
           ["ABC0"; "ABC1"; "ABC2"]%string 2 [] m_enough).
  - reflexivity.
  - cbn. lia.
  - reflexivity.
Defined.

Lemma round_trip_ABC4_witness :
  ∃ a m',
    round_trip pick_least 10 (Some 10%positive) m_twenty = Done (0, Some a, 0, None) m' ∧
    stdout m' = stdout m_twenty ++
      ["==== List start ===="; "ABC0"; "ABC1"; "ABC2"; "ABC3";
       "ABC5"; "ABC6"; "ABC7"; "ABC8"; "ABC9"; "==== List end ===="]%string.
Proof.
  apply (round_trip_ABC4 pick_least pick_least_fresh 10 10%positive
           (mkList (Some 7%positive) (Some 9%positive)) [] m_twenty).
  - reflexivity.
  - reflexivity.
  - lia.
Defined.

(** * Further properties of the library *)

(** ** Insertion, at the level of the strings *)

Lemma head_mid_nodup (l1 : list positive) x l2 :
  NoDup (l1 ++ x :: l2) → (list.head (l1 ++ x :: l2) = Some x ↔ l1 = []).
Proof.
  intros (_ & _ & Hx1 & _ & _)%NoDup_mid. split.
  - intros Hh. destruct l1 as [|w l1]; [done|]. cbn in Hh. injection Hh as ->.
    destruct Hx1. by left.
  - by intros ->.
Qed.

(** A well-formed list stays one when a node that owns a block of its
    own is linked into its chain. *)
Lemma is_list_insert m m' L' c1 cy c2 :
  NoDup (map blk (c1 ++ c2)) →
  Forall (owns m) (c1 ++ c2) →
  owns m cy →
  blk cy ∉ map blk (c1 ++ c2) →
  relinked m m' →
  dll m' L' (map addr (c1 ++ cy :: c2)) →
  is_list m' L' (c1 ++ cy :: c2).
Proof.
  intros Hnb Hown Hcy Hb Hrel Hdll. split; [done| |].
  - rewrite map_app in *. cbn [map]. apply NoDup_mid.
    apply NoDup_app in Hnb as (Hn1 & Hd & Hn2).
    rewrite elem_of_app in Hb. repeat split; try done; tauto.
  - apply Forall_app in Hown as [H1 H2]. apply Forall_app. split.
    + eapply Forall_impl; [exact H1|]. intros c'. by apply owns_relinked.
    + apply Forall_cons. split; [by apply (owns_relinked m)|].
      eapply Forall_impl; [exact H2|]. intros c'. by apply owns_relinked.
Qed.

Lemma lists_frame (lists lists' : gmap positive List) l L' :
  lists' = <[l := L']> lists → ∀ l', l' ≠ l → lists' !! l' = lists !! l'.
Proof. intros -> l' Hl'. by apply lookup_insert_ne. Qed.

(** X1: on a well-formed list of strings, [insert_after] at a member,
    of a node that is in no list and owns a block of its own, succeeds
    and leaves a well-formed list: the new element comes right after
    the member, every other element keeps its place and its string, and
    no block, no node outside the list and no other list structure is
    touched. *)
Theorem insert_after_inserts l L c1 c c2 cy m :
  lists m !! l = Some L →
  is_list m L (c1 ++ c :: c2) →
  owns m cy →
  addr cy ∉ map addr (c1 ++ c :: c2) →
  blk cy ∉ map blk (c1 ++ c :: c2) →
  ∃ m' L',
    insert_after (Some l) (Some (addr c)) (Some (addr cy)) m = Done 0 m' ∧
    lists m' !! l = Some L' ∧
    is_list m' L' (c1 ++ c :: cy :: c2) ∧
    chars m' = chars m ∧
    (∀ a, a ∉ map addr (c1 ++ c :: c2) → a ≠ addr cy → nodes m' !! a = nodes m !! a) ∧
    (∀ l', l' ≠ l → lists m' !! l' = lists m !! l').
Proof.
  intros HL [Hdll Hnb Hown] Hcy Ha Hb.
  destruct Hcy as (ny & Hny & Hcy). rewrite map_app in Hdll, Ha. cbn [map] in Hdll, Ha.
  destruct (insert_after_dll l L _ _ _ _ ny m HL Hdll Ha Hny)
    as (m' & L' & Hrun & HL' & Hdll' & Hrel & _ & Hfr).
  exists m', L'. split; [done|]. split; [rewrite HL'; apply lookup_insert_eq|].
  split; [|split; [apply (rl_chars _ _ Hrel)|split]].
  - change (c1 ++ c :: cy :: c2) with (c1 ++ [c] ++ cy :: c2).
    rewrite app_assoc. apply (is_list_insert m); rewrite <- ?app_assoc; try done.
    + by exists ny.
    + rewrite !map_app. cbn [map app]. done.
  - rewrite map_app. done.
  - by eapply lists_frame.
Qed.

Lemma insert_after_inserts_witness :
  ∃ m' L',
    insert_after (Some 1%positive) (Some (addr c_b)) (Some 8%positive) m_three = Done 0 m' ∧
    lists m' !! 1%positive = Some L' ∧
    is_list m' L' ([c_a] ++ c_b :: mkCell 8 9 "zzzz" :: [c_c]) ∧
    chars m' = chars m_three ∧
    (∀ a, a ∉ map addr ([c_a] ++ c_b :: [c_c]) → a ≠ 8%positive →
          nodes m' !! a = nodes m_three !! a) ∧
    (∀ l', l' ≠ 1%positive → lists m' !! l' = lists m_three !! l').
Proof.
  apply (insert_after_inserts 1%positive L_three [c_a] c_b [c_c]
           (mkCell 8 9 "zzzz") m_three).
  - reflexivity.
  - apply m_three_is_list.
  - eexists. split; [reflexivity|]. done.
  - compute_done.
  - compute_done.
Defined.

(** X2: the same for [insert_before]: the new element comes right
    before the member. *)
Theorem insert_before_inserts l L c1 c c2 cy m :
  lists m !! l = Some L →
  is_list m L (c1 ++ c :: c2) →
  owns m cy →
  addr cy ∉ map addr (c1 ++ c :: c2) →
  blk cy ∉ map blk (c1 ++ c :: c2) →
  ∃ m' L',
    insert_before (Some l) (Some (addr c)) (Some (addr cy)) m = Done 0 m' ∧
    lists m' !! l = Some L' ∧
    is_list m' L' (c1 ++ cy :: c :: c2) ∧
    chars m' = chars m ∧
    (∀ a, a ∉ map addr (c1 ++ c :: c2) → a ≠ addr cy → nodes m' !! a = nodes m !! a) ∧
    (∀ l', l' ≠ l → lists m' !! l' = lists m !! l').
Proof.
  intros HL [Hdll Hnb Hown] Hcy Ha Hb.
  destruct Hcy as (ny & Hny & Hcy). rewrite map_app in Hdll, Ha. cbn [map] in Hdll, Ha.
  destruct (insert_before_dll l L _ _ _ _ ny m HL Hdll Ha Hny)
    as (m' & L' & Hrun & HL' & Hdll' & Hrel & _ & Hfr).
  exists m', L'. split; [done|]. split; [rewrite HL'; apply lookup_insert_eq|].
  split; [|split; [apply (rl_chars _ _ Hrel)|split]].
  - apply (is_list_insert m); try done.
    + by exists ny.
    + rewrite !map_app. cbn [map]. done.
  - rewrite map_app. done.
  - by eapply lists_frame.
Qed.

Lemma insert_before_inserts_witness :
  ∃ m' L',
    insert_before (Some 1%positive) (Some (addr c_b)) (Some 8%positive) m_three = Done 0 m' ∧
    lists m' !! 1%positive = Some L' ∧
    is_list m' L' ([c_a] ++ mkCell 8 9 "zzzz" :: c_b :: [c_c]) ∧
    chars m' = chars m_three ∧
    (∀ a, a ∉ map addr ([c_a] ++ c_b :: [c_c]) → a ≠ 8%positive →
          nodes m' !! a = nodes m_three !! a) ∧
    (∀ l', l' ≠ 1%positive → lists m' !! l' = lists m_three !! l').
Proof.
  apply (insert_before_inserts 1%positive L_three [c_a] c_b [c_c]
           (mkCell 8 9 "zzzz") m_three).
  - reflexivity.
  - apply m_three_is_list.
  - eexists. split; [reflexivity|]. done.
  - compute_done.
  - compute_done.
Defined.

(** X3: on a well-formed list, inserting a node [y] that is allocated
    and not in the chain before a member [x] succeeds and leaves
    [x.prev == y] and [y.next == x]; [y.prev] is what [x.prev] was; if
    [x] was not the first node then [y.prev.next == y], and if it was
    then [head] of the list is [y]. *)
Theorem insert_before_links l L xs x y ny m :
  lists m !! l = Some L →
  dll m L xs →
  x ∈ xs →
  y ∉ xs →
  nodes m !! y = Some ny →
  ∃ m' L' nx' ny',
    insert_before (Some l) (Some x) (Some y) m = Done 0 m' ∧
    lists m' !! l = Some L' ∧
    nodes m' !! x = Some nx' ∧ prev nx' = Some y ∧
    nodes m' !! y = Some ny' ∧ next ny' = Some x ∧
    (∀ nx, nodes m !! x = Some nx → prev ny' = prev nx) ∧
    (list.head xs ≠ Some x →
     ∃ w nw', prev ny' = Some w ∧ nodes m' !! w = Some nw' ∧ next nw' = Some y) ∧
    (list.head xs = Some x → head L' = Some y).
Proof.
  intros HL Hdll (l1 & l2 & ->)%list_elem_of_split Hy Hny.
  destruct (insert_before_dll l L l1 x l2 y ny m HL Hdll Hy Hny)
    as (m' & L' & Hrun & HL' & [Hh' _ _ Hseg'] & _ & _).
  pose proof (head_mid_nodup _ _ _ (dll_nodup _ _ _ Hdll)) as Hhead.
  destruct Hdll as [_ _ _ Hseg].
  apply seg_mid in Hseg as (_ & (nx & Hx & Hpx & _) & _).
  apply seg_mid in Hseg' as (Hs1 & (ny' & Hy' & Hpy' & Hny') & Hs2).
  cbn [seg first_or] in Hs2, Hny'. destruct Hs2 as [(nx' & Hx' & Hpx' & _) _].
  exists m', L', nx', ny'. split; [done|]. split; [rewrite HL'; apply lookup_insert_eq|].
  repeat (split; [done|]). split; [|split].
  - intros nx0 Hx0. rewrite Hx in Hx0. injection Hx0 as <-. congruence.
  - intros Hnh. destruct (snoc_cases l1) as [->|(l0 & w & ->)];
      [by destruct Hnh; apply Hhead|].
    rewrite last_or_snoc in Hpy'.
    apply seg_mid in Hs1 as (_ & (nw' & Hw' & _ & Hnw') & _). by exists w, nw'.
  - intros ->%Hhead. by rewrite Hh'.
Qed.

Lemma insert_before_links_witness :
  ∃ m' L' nx' ny',
    insert_before (Some 1%positive) (Some 2%positive) (Some 4%positive) m_two = Done 0 m' ∧
    lists m' !! 1%positive = Some L' ∧
    nodes m' !! 2%positive = Some nx' ∧ prev nx' = Some 4%positive ∧
    nodes m' !! 4%positive = Some ny' ∧ next ny' = Some 2%positive ∧
    (∀ nx, nodes m_two !! 2%positive = Some nx → prev ny' = prev nx) ∧
    (list.head [2%positive] ≠ Some 2%positive →
     ∃ w nw', prev ny' = Some w ∧ nodes m' !! w = Some nw' ∧ next nw' = Some 4%positive) ∧
    (list.head [2%positive] = Some 2%positive → head L' = Some 4%positive).
Proof.
  apply (insert_before_links 1%positive L_one [2%positive] 2%positive 4%positive
           (mkNode None None (Some 5%positive)) m_two).
  - reflexivity.
  - apply m_two_dll.
  - apply list_elem_of_singleton. reflexivity.
  - rewrite list_elem_of_singleton. discriminate.
  - reflexivity.
Defined.

(** X4: [insert_front] on a well-formed list of strings, the empty one
    included, of a node that is in no list and owns a block of its own:
    the node becomes the head, in front of the elements the list had, in
    their order; [last] is the node when the list was empty and is not
    changed otherwise. *)
Theorem insert_front_new_head l L cs cy m :
  lists m !! l = Some L →
  is_list m L cs →
  owns m cy →
  addr cy ∉ map addr cs →
  blk cy ∉ map blk cs →
  ∃ m' L',
    insert_front (Some l) (Some (addr cy)) m = Done 0 m' ∧
    lists m' !! l = Some L' ∧
    is_list m' L' (cy :: cs) ∧
    head L' = Some (addr cy) ∧
    (cs = [] → last L' = Some (addr cy)) ∧
    (cs ≠ [] → last L' = last L) ∧
    chars m' = chars m.
Proof.
  intros HL [Hdll Hnb Hown] Hcy Ha Hb.
  destruct Hcy as (ny & Hny & Hcy).
  destruct (insert_front_dll l L _ _ ny m HL Hdll Ha Hny)
    as (m' & L' & Hrun & HL' & Hdll' & Hrel & Hfr).
  exists m', L'. split; [done|]. split; [rewrite HL'; apply lookup_insert_eq|].
  split; [|split; [|split; [|split; [|apply (rl_chars _ _ Hrel)]]]].
  - apply (is_list_insert m m' L' [] cy cs); try done. by exists ny.
  - apply (dll_head _ _ _ Hdll').
  - intros ->. apply (dll_last _ _ _ Hdll').
  - intros Hne. rewrite (dll_last _ _ _ Hdll'), (dll_last _ _ _ Hdll).
    destruct cs; [done|]. reflexivity.
Qed.

Lemma insert_front_new_head_witness :
  ∃ m' L',
    insert_front (Some 1%positive) (Some 8%positive) m_three = Done 0 m' ∧
    lists m' !! 1%positive = Some L' ∧
    is_list m' L' (mkCell 8 9 "zzzz" :: [c_a; c_b; c_c]) ∧
    head L' = Some 8%positive ∧
    ([c_a; c_b; c_c] = [] → last L' = Some 8%positive) ∧
    ([c_a; c_b; c_c] ≠ [] → last L' = last L_three) ∧
    chars m' = chars m_three.
Proof.
  apply (insert_front_new_head 1%positive L_three [c_a; c_b; c_c]
           (mkCell 8 9 "zzzz") m_three).
  - reflexivity.
  - apply m_three_is_list.
  - eexists. split; [reflexivity|]. done.
  - compute_done.
  - compute_done.
Defined.

(** X5: [insert_end], in the same way: the node becomes the last
    element, after the elements the list had, in their order; [head] is
    the node when the list was empty and is not changed otherwise. *)
Theorem insert_end_new_last l L cs cy m :
  lists m !! l = Some L →
  is_list m L cs →
  owns m cy →
  addr cy ∉ map addr cs →
  blk cy ∉ map blk cs →
  ∃ m' L',
    insert_end (Some l) (Some (addr cy)) m = Done 0 m' ∧
    lists m' !! l = Some L' ∧
    is_list m' L' (cs ++ [cy]) ∧
    last L' = Some (addr cy) ∧
    (cs = [] → head L' = Some (addr cy)) ∧
    (cs ≠ [] → head L' = head L) ∧
    chars m' = chars m.
Proof.
  intros HL [Hdll Hnb Hown] Hcy Ha Hb.
  destruct Hcy as (ny & Hny & Hcy).
  destruct (insert_end_dll l L _ _ ny m HL Hdll Ha Hny)
    as (m' & L' & Hrun & HL' & Hdll' & Hrel & Hfr).
  exists m', L'. split; [done|]. split; [rewrite HL'; apply lookup_insert_eq|].
  split; [|split; [|split; [|split; [|apply (rl_chars _ _ Hrel)]]]].
  - apply (is_list_insert m m' L' cs cy []); rewrite ?app_nil_r; try done.
    + by exists ny.
    + by rewrite map_app.
  - rewrite (dll_last _ _ _ Hdll'). apply last_snoc.
  - intros ->. apply (dll_head _ _ _ Hdll').
  - intros Hne. rewrite (dll_head _ _ _ Hdll'), (dll_head _ _ _ Hdll).
    destruct cs; [done|]. reflexivity.
Qed.

Lemma insert_end_new_last_witness :
  ∃ m' L',
    insert_end (Some 1%positive) (Some 8%positive) m_three = Done 0 m' ∧
    lists m' !! 1%positive = Some L' ∧
    is_list m' L' ([c_a; c_b; c_c] ++ [mkCell 8 9 "zzzz"]) ∧
    last L' = Some 8%positive ∧
    ([c_a; c_b; c_c] = [] → head L' = Some 8%positive) ∧
    ([c_a; c_b; c_c] ≠ [] → head L' = head L_three) ∧
    chars m' = chars m_three.
Proof.
  apply (insert_end_new_last 1%positive L_three [c_a; c_b; c_c]
           (mkCell 8 9 "zzzz") m_three).
  - reflexivity.
  - apply m_three_is_list.
  - eexists. split; [reflexivity|]. done.
  - compute_done.
  - compute_done.
Defined.

(** ** Allocation and the life of a list *)

Section Lifecycle.

Variable pick : gset positive → positive.
Hypothesis pick_fresh : ∀ X, pick X ∉ X.


(** [make_node] when one of its two allocations is refused. *)
Lemma make_node_fails_frame s m j tl :
  avail m = repeat true j ++ tl →
  (j < 2)%nat →
  (∀ tl', tl ≠ true :: tl') →
  ∃ m',
    make_node pick (Some s) m = Done None m' ∧
    nodes m' = nodes m ∧ chars m' = chars m ∧ lists m' = lists m ∧
    avail m' = tail tl ∧
    stderr m' = stderr m ++ ["list_lib error: Dynamic memory allocation failed."%string] ∧
    stdout m' = stdout m.
Proof.
  intros Hav Hj Htl.
  destruct j as [|[|j]]; [| |lia]; cbn [repeat app] in Hav.
  - unfold make_node. unfold bind at 1. unfold malloc_node. rewrite Hav.
    destruct tl as [|[] tl']; [|by destruct (Htl tl')|]; cbn [is_null]; steps;
      (eexists; split; [reflexivity|]); fields; rewrite Hav; done.
  - unfold make_node. unfold bind at 1. unfold malloc_node. rewrite Hav.
    cbn [is_null]. unfold bind at 1. cbn [strlen ret]. rewrite bind_assoc.
    unfold bind at 1. unfold malloc_chars. fields.
    destruct tl as [|[] tl']; [|by destruct (Htl tl')|]; cbn [is_null]; steps;
      (eexists; split; [reflexivity|]); fields;
      rewrite ?insert_insert_eq, delete_insert_eq, (delete_id _ _ (pick_nodes pick pick_fresh m));
      done.
Qed.

(** X7: [make_node], when the allocation of the node is refused, or
    the allocation of the node is granted and that of the block is
    refused, returns [NULL] after one line on the error stream; the
    stores of nodes, of blocks and of list structures are as they were
    (the node allocated in the second case is released again). *)
Theorem make_node_refused s m j tl :
  avail m = repeat true j ++ tl →
  (j < 2)%nat →
  (∀ tl', tl ≠ true :: tl') →
  ∃ m',
    make_node pick (Some s) m = Done None m' ∧
    nodes m' = nodes m ∧ chars m' = chars m ∧ lists m' = lists m ∧
    avail m' = tail tl ∧
    stderr m' = stderr m ++ ["list_lib error: Dynamic memory allocation failed."%string] ∧
    stdout m' = stdout m.
Proof. apply make_node_fails_frame. Qed.

(** The loop of [init_list] when every allocation is granted, with what
    it leaves alone: the nodes outside the list it builds, the blocks
    other than those of the new elements, and the other list
    structures.  The new nodes and blocks were not allocated before. *)
Lemma init_loop_built fuel l strs : ∀ k i m L cs rest,
  lists m !! l = Some L →
  is_list m L cs →
  (i + k ≤ length strs)%nat →
  avail m = repeat true (2 * k) ++ rest →
  ∃ m' L' cs',
    init_loop pick fuel (Some l) (map Some strs) k i m = Done 0 m' ∧
    lists m' !! l = Some L' ∧
    is_list m' L' (cs ++ cs') ∧
    map str cs' = take k (drop i strs) ∧
    avail m' = rest ∧
    (∀ a, a ∉ map addr (cs ++ cs') → nodes m' !! a = nodes m !! a) ∧
    (∀ b, b ∉ map blk cs' → chars m' !! b = chars m !! b) ∧
    (∀ c, c ∈ cs' → nodes m !! addr c = None ∧ chars m !! blk c = None) ∧
    (∀ l', l' ≠ l → lists m' !! l' = lists m !! l').
Proof.
  induction k as [|k IH]; intros i m L cs rest HL Hlist Hlen Hav.
  - exists m, L, []. rewrite app_nil_r. repeat (split; [done|]).
    split; [|done]. intros c Hc. by apply not_elem_of_nil in Hc.
  - destruct (lookup_lt_is_Some_2 strs i) as [s Hs]; [lia|].
    replace (2 * S k)%nat with (S (S (2 * k))) in Hav by lia. cbn [repeat app] in Hav.
    destruct (is_list_alloc pick pick_fresh m L cs s _ Hlist Hav)
      as (m1 & c & Hmk & Hstr & Ha & Hb & Hlist1 & Hown1 & [nd Hnd] & HL1 & Hav1
          & He1 & Ho1 & Hfa & Hfb & Hna & Hnb).
    assert (lists m1 !! l = Some L) as HL1' by (by rewrite HL1).
    destruct (insert_end_dll l L _ (addr c) nd m1 HL1' (il_dll _ _ _ Hlist1) Ha Hnd)
      as (m2 & L2 & Hins & HL2 & Hdll2 & Hrel & Hfr).
    assert (is_list m2 L2 (cs ++ [c])) as Hlist2.
    { apply (is_list_insert m1 m2 L2 cs c []); rewrite ?app_nil_r; try done.
      - apply (il_blocks _ _ _ Hlist1).
      - apply (il_owns _ _ _ Hlist1).
      - by rewrite map_app. }
    destruct (IH (S i) m2 L2 (cs ++ [c]) rest)
      as (m' & L' & cs' & Hrun & HL' & Hlist' & Hstrs & Hav' & Hfn & Hfc & Hnew & Hfl).
    { rewrite HL2. apply lookup_insert_eq. }
    { done. }
    { lia. }
    { rewrite (rl_avail _ _ Hrel). done. }
    rewrite <- app_assoc in Hlist', Hfn. cbn [app] in Hlist', Hfn.
    exists m', L', (c :: cs'). split.
    { cbn [init_loop]. rewrite list_lookup_fmap, Hs. cbn [fmap option_fmap option_map].
      erewrite bind_eq by exact Hmk. cbn [is_null].
      erewrite bind_eq by exact Hins. exact Hrun. }
    split; [done|]. split; [done|]. split.
    { cbn [map]. rewrite Hstrs, Hstr. erewrite (drop_S strs s i) by done. done. }
    split; [done|]. split; [|split; [|split]].
    + intros a Ha'. rewrite (Hfn a Ha').
      rewrite map_app, elem_of_app in Ha'. cbn [map] in Ha'. rewrite elem_of_cons in Ha'.
      rewrite Hfr by tauto. apply Hna. tauto.
    + intros b Hb'. cbn [map] in Hb'. rewrite elem_of_cons in Hb'.
      rewrite Hfc by tauto. rewrite (rl_chars _ _ Hrel). apply Hnb. tauto.
    + intros c' [->|Hc']%elem_of_cons; [done|].
      destruct (Hnew c' Hc') as [Hn2 Hc2].
      pose proof (rl_data _ _ Hrel (addr c')) as Hd. rewrite Hn2 in Hd. cbn in Hd.
      symmetry in Hd. apply fmap_None in Hd.
      rewrite (rl_chars _ _ Hrel) in Hc2.
      destruct Hown1 as (nd1 & Hnd1 & _ & Hb1). split.
      * rewrite <- Hna; [done|]. intros E. rewrite E in Hd. congruence.
      * rewrite <- Hnb; [done|]. intros E. rewrite E in Hc2. congruence.
    + intros l' Hl'. rewrite (Hfl l' Hl'), HL2, lookup_insert_ne by done.
      by rewrite HL1.
Qed.

Lemma init_list_built fuel l L0 strs n rest m :
  lists m !! l = Some L0 →
  0 ≤ n ≤ Z.of_nat (length strs) →
  avail m = repeat true (2 * Z.to_nat n) ++ rest →
  ∃ m' L' cs,
    init_list pick fuel (Some l) (Some (map Some strs)) n m = Done 0 m' ∧
    lists m' !! l = Some L' ∧
    is_list m' L' cs ∧
    map str cs = take (Z.to_nat n) strs ∧
    avail m' = rest ∧
    (∀ a, a ∉ map addr cs → nodes m' !! a = nodes m !! a) ∧
    (∀ b, b ∉ map blk cs → chars m' !! b = chars m !! b) ∧
    (∀ c, c ∈ cs → nodes m !! addr c = None ∧ chars m !! blk c = None) ∧
    (∀ l', l' ≠ l → lists m' !! l' = lists m !! l').
Proof.
  intros HL Hn Hav. unfold init_list.
  destruct (Z.ltb_spec n 0) as [H|_]; [lia|]. steps.
  match goal with |- context [init_loop _ _ _ _ _ _ ?m0] => set (m1 := m0) end.
  destruct (init_loop_built fuel l strs (Z.to_nat n) 0%nat m1
              (mkList None None) [] rest)
    as (m' & L' & cs & Hrun & HL' & Hlist & Hstr & Hrest & Hfn & Hfc & Hnew & Hfl).
  - subst m1. fields. by rewrite insert_insert_eq, lookup_insert_eq.
  - split; [split|..]; cbn; try done; constructor.
  - lia.
  - done.
  - cbn [app] in Hlist, Hfn. rewrite drop_0 in Hstr. exists m', L', cs.
    repeat (split; [done|]). intros l' Hl'. rewrite (Hfl l' Hl'). subst m1. fields.
    by rewrite !lookup_insert_ne.
Qed.

(** X9: building a list and tearing it down leaves no node and no
    block behind: when the [2 * n] allocations of [init_list] are
    granted, [dealloc_list] on the list it built succeeds, and the
    stores of nodes and of blocks are then what they were before
    [init_list]. *)
Theorem init_list_then_dealloc_list fuel l L0 strs n rest m :
  lists m !! l = Some L0 →
  0 ≤ n ≤ Z.of_nat (length strs) →
  avail m = repeat true (2 * Z.to_nat n) ++ rest →
  (Z.to_nat n ≤ fuel)%nat →
  ∃ m1 m2,
    init_list pick fuel (Some l) (Some (map Some strs)) n m = Done 0 m1 ∧
    dealloc_list fuel (Some l) m1 = Done tt m2 ∧
    nodes m2 = nodes m ∧ chars m2 = chars m ∧ avail m2 = rest.
Proof.
  intros HL Hn Hav Hfuel.
  destruct (init_list_built fuel l L0 strs n rest m HL Hn Hav)
    as (m1 & L1 & cs & Hrun & HL1 & Hlist & Hstr & Hrest & Hfn & Hfc & Hnew & _).
  assert (length cs = Z.to_nat n) as Hlen.
  { rewrite <- (length_map str), Hstr, length_take. lia. }
  eexists m1, _. split; [done|].
  split; [eapply dealloc_list_run; [done|done|lia]|]. fields.
  split; [|split; [|done]].
  - apply map_eq. intros a. destruct (decide (a ∈ map addr cs)) as [Hin|Hout].
    + rewrite lookup_foldr_delete by done.
      apply list_elem_of_fmap in Hin as (c & -> & Hc). symmetry. by apply Hnew.
    + rewrite lookup_foldr_delete_not_elem_of by done. by apply Hfn.
  - apply map_eq. intros b. destruct (decide (b ∈ map blk cs)) as [Hin|Hout].
    + rewrite lookup_foldr_delete by done.
      apply list_elem_of_fmap in Hin as (c & -> & Hc). symmetry. by apply Hnew.
    + rewrite lookup_foldr_delete_not_elem_of by done. by apply Hfc.
Qed.

(** X10: [init_list] never frees and never writes what was allocated
    before the call: when its allocations are granted, the list it
    leaves is made of nodes and blocks that were not allocated before,
    and every node and every block that was allocated is as it was, as
    is every other list structure.  So on a list structure that already
    holds nodes, those nodes stay allocated although the list no longer
    refers to them. *)
Theorem init_list_keeps_old_nodes fuel l L0 strs n rest m :
  lists m !! l = Some L0 →
  0 ≤ n ≤ Z.of_nat (length strs) →
  avail m = repeat true (2 * Z.to_nat n) ++ rest →
  ∃ m' L' cs,
    init_list pick fuel (Some l) (Some (map Some strs)) n m = Done 0 m' ∧
    lists m' !! l = Some L' ∧
    is_list m' L' cs ∧
    (∀ c, c ∈ cs → nodes m !! addr c = None ∧ chars m !! blk c = None) ∧
    (∀ a nd, nodes m !! a = Some nd → nodes m' !! a = Some nd) ∧
    (∀ b s, chars m !! b = Some s → chars m' !! b = Some s) ∧
    (∀ l', l' ≠ l → lists m' !! l' = lists m !! l').
Proof.
  intros HL Hn Hav.
  destruct (init_list_built fuel l L0 strs n rest m HL Hn Hav)
    as (m' & L' & cs & Hrun & HL' & Hlist & Hstr & Hrest & Hfn & Hfc & Hnew & Hfl).
  exists m', L', cs. repeat (split; [done|]). split; [|split; [|done]].
  - intros a nd Ha. rewrite Hfn; [done|].
    intros (c & -> & Hc)%list_elem_of_fmap. destruct (Hnew c Hc). congruence.
  - intros b s Hb. rewrite Hfc; [done|].
    intros (c & -> & Hc)%list_elem_of_fmap. destruct (Hnew c Hc). congruence.
Qed.

(** X8: when one of the allocations [init_list] asks for is refused
    (the allocation number [j + 1], [j] being less than [2 * n]), the
    call returns the value of [ALLOC_FAIL], which is 0; the stores of
    nodes and of blocks are what they were before the call, so every
    node and block built by the call is released; and the list is not
    reset: [head] is absent only when no node had been built, and
    otherwise still holds the address of a released node. *)
Theorem init_list_rolls_back fuel l L0 strs n j tl m :
  lists m !! l = Some L0 →
  0 ≤ n ≤ Z.of_nat (length strs) →
  (j < 2 * Z.to_nat n)%nat →
  avail m = repeat true j ++ tl →
  (∀ tl', tl ≠ true :: tl') →
  (j / 2 ≤ fuel)%nat →
  ∃ m' L',
    init_list pick fuel (Some l) (Some (map Some strs)) n m = Done 0 m' ∧
    nodes m' = nodes m ∧ chars m' = chars m ∧
    avail m' = tail tl ∧ stdout m' = stdout m ∧
    lists m' !! l = Some L' ∧
    (head L' = None ↔ (j < 2)%nat) ∧
    (∀ a, head L' = Some a → nodes m' !! a = None).
Proof.
  intros HL Hn Hj Hav Htl Hfuel.
  destruct (init_list_rollback pick pick_fresh fuel l L0 strs n j tl m HL Hn Hj Hav Htl Hfuel)
    as (m' & L' & Hrun & Hrest).
  by exists m', L'.
Qed.

End Lifecycle.


Lemma make_node_refused_witness :
  ∃ m',
    make_node pick_least (Some "zzzz"%string)
      (upd_avail (fun _ => [true; false; true]) m_enough) = Done None m' ∧
    nodes m' = nodes m_enough ∧ chars m' = chars m_enough ∧ lists m' = lists m_enough ∧
    avail m' = tail [false; true] ∧
    stderr m' = stderr m_enough ++ ["list_lib error: Dynamic memory allocation failed."%string] ∧
    stdout m' = stdout m_enough.
Proof.
  apply (make_node_refused pick_least pick_least_fresh "zzzz"%string
           (upd_avail (fun _ => [true; false; true]) m_enough) 1 [false; true]).
  - reflexivity.
  - lia.
  - discriminate.
Defined.

Lemma init_list_then_dealloc_list_witness :
  ∃ m1 m2,
    init_list pick_least 2 (Some 10%positive)
      (Some (map Some ["ABC0"; "ABC1"; "ABC2"]%string)) 2 m_enough = Done 0 m1 ∧
    dealloc_list 2 (Some 10%positive) m1 = Done tt m2 ∧
    nodes m2 = nodes m_enough ∧ chars m2 = chars m_enough ∧ avail m2 = [].
Proof.
  apply (init_list_then_dealloc_list pick_least pick_least_fresh 2 10%positive
           (mkList (Some 7%positive) (Some 9%positive))
           ["ABC0"; "ABC1"; "ABC2"]%string 2 [] m_enough).
  - reflexivity.
  - cbn. lia.
  - reflexivity.
  - cbn. lia.
Defined.

Lemma init_list_keeps_old_nodes_witness :
  ∃ m' L' cs,
    init_list pick_least 0 (Some 1%positive)
      (Some (map Some ["ABC0"; "ABC1"]%string)) 1
      (upd_avail (fun _ => [true; true]) m_three) = Done 0 m' ∧
    lists m' !! 1%positive = Some L' ∧
    is_list m' L' cs ∧
    (∀ c, c ∈ cs → nodes m_three !! addr c = None ∧ chars m_three !! blk c = None) ∧
    (∀ a nd, nodes m_three !! a = Some nd → nodes m' !! a = Some nd) ∧
    (∀ b s, chars m_three !! b = Some s → chars m' !! b = Some s) ∧
    (∀ l', l' ≠ 1%positive → lists m' !! l' = lists m_three !! l').
Proof.
  apply (init_list_keeps_old_nodes pick_least pick_least_fresh 0 1%positive L_three
           ["ABC0"; "ABC1"]%string 1 [] (upd_avail (fun _ => [true; true]) m_three)).
  - reflexivity.
  - cbn. lia.
  - reflexivity.
Defined.

Lemma init_list_rolls_back_witness :
  ∃ m' L',
    init_list pick_least 1 (Some 10%positive)
      (Some (map Some ["ABC0"; "ABC1"; "ABC2"]%string)) 2 m_short = Done 0 m' ∧
    nodes m' = nodes m_short ∧ chars m' = chars m_short ∧
    avail m' = tail [false] ∧ stdout m' = stdout m_short ∧
    lists m' !! 10%positive = Some L' ∧
    (head L' = None ↔ (2 < 2)%nat) ∧
    (∀ a, head L' = Some a → nodes m' !! a = None).
Proof.
  apply (init_list_rolls_back pick_least pick_least_fresh 1 10%positive
           (mkList (Some 7%positive) (Some 9%positive))
           ["ABC0"; "ABC1"; "ABC2"]%string 2 2 [false] m_short).
  - reflexivity.
  - cbn. lia.
  - cbn. lia.
  - reflexivity.
  - discriminate.
  - cbn. lia.
Defined.

(** ** Search after insertion and removal *)

Lemma first_match_app t c1 c2 :
  first_match t (c1 ++ c2) =
  match first_match t c1 with
  | Some a => Some a
  | None => first_match t c2
  end.
Proof.
  induction c1 as [|c c1 IH]; [done|]. cbn.
  by destruct (String.eqb (str c) t).
Qed.

Lemma insert_front_is_list l L cs cy m :
  lists m !! l = Some L →
  is_list m L cs →
  owns m cy →
  addr cy ∉ map addr cs →
  blk cy ∉ map blk cs →
  ∃ m' L',
    insert_front (Some l) (Some (addr cy)) m = Done 0 m' ∧
    lists m' !! l = Some L' ∧
    is_list m' L' (cy :: cs) ∧
    relinked m m'.
Proof.
  intros HL [Hdll Hnb Hown] Hcy Ha Hb.
  destruct Hcy as (ny & Hny & Hcy).
  destruct (insert_front_dll l L _ _ ny m HL Hdll Ha Hny)
    as (m' & L' & Hrun & HL' & Hdll' & Hrel & Hfr).
  exists m', L'. split; [done|]. split; [rewrite HL'; apply lookup_insert_eq|].
  split; [|done]. apply (is_list_insert m m' L' [] cy cs); try done. by exists ny.
Qed.

Lemma insert_end_is_list l L cs cy m :
  lists m !! l = Some L →
  is_list m L cs →
  owns m cy →
  addr cy ∉ map addr cs →
  blk cy ∉ map blk cs →
  ∃ m' L',
    insert_end (Some l) (Some (addr cy)) m = Done 0 m' ∧
    lists m' !! l = Some L' ∧
    is_list m' L' (cs ++ [cy]) ∧
    relinked m m'.
Proof.
  intros HL [Hdll Hnb Hown] Hcy Ha Hb.
  destruct Hcy as (ny & Hny & Hcy).
  destruct (insert_end_dll l L _ _ ny m HL Hdll Ha Hny)
    as (m' & L' & Hrun & HL' & Hdll' & Hrel & Hfr).
  exists m', L'. split; [done|]. split; [rewrite HL'; apply lookup_insert_eq|].
  split; [|done].
  apply (is_list_insert m m' L' cs cy []); rewrite ?app_nil_r; try done.
  - by exists ny.
  - by rewrite map_app.
Qed.

Lemma insert_after_is_list l L c1 c c2 cy m :
  lists m !! l = Some L →
  is_list m L (c1 ++ c :: c2) →
  owns m cy →
  addr cy ∉ map addr (c1 ++ c :: c2) →
  blk cy ∉ map blk (c1 ++ c :: c2) →
  ∃ m' L',
    insert_after (Some l) (Some (addr c)) (Some (addr cy)) m = Done 0 m' ∧
    lists m' = <[l := L']> (lists m) ∧
    is_list m' L' (c1 ++ c :: cy :: c2) ∧
    relinked m m'.
Proof.
  intros HL [Hdll Hnb Hown] Hcy Ha Hb.
  destruct Hcy as (ny & Hny & Hcy). rewrite map_app in Hdll, Ha. cbn [map] in Hdll, Ha.
  destruct (insert_after_dll l L _ _ _ _ ny m HL Hdll Ha Hny)
    as (m' & L' & Hrun & HL' & Hdll' & Hrel & _ & Hfr).
  exists m', L'. split; [done|]. split; [done|]. split; [|done].
  change (c1 ++ c :: cy :: c2) with (c1 ++ [c] ++ cy :: c2).
  rewrite app_assoc. apply (is_list_insert m); rewrite <- ?app_assoc; try done.
  - by exists ny.
  - rewrite !map_app. cbn [map app]. done.
Qed.

(** X11: after [insert_front] of a node that owns the string [s], [find]
    returns that node for [s], whether or not the list held [s] before,
    and for every other string it returns what it returned before the
    insertion. *)
Theorem find_after_insert_front fuel l L cs cy m :
  lists m !! l = Some L →
  is_list m L cs →
  owns m cy →
  addr cy ∉ map addr cs →
  blk cy ∉ map blk cs →
  (length cs + 1 ≤ fuel)%nat →
  ∃ m',
    insert_front (Some l) (Some (addr cy)) m = Done 0 m' ∧
    find fuel (Some l) (Some (str cy)) m' = Done (Some (addr cy)) m' ∧
    (∀ t, t ≠ str cy →
          ∃ r, find fuel (Some l) (Some t) m = Done r m ∧
               find fuel (Some l) (Some t) m' = Done r m').
Proof.
  intros HL Hlist Hcy Ha Hb Hfuel.
  destruct (insert_front_is_list l L cs cy m HL Hlist Hcy Ha Hb)
    as (m' & L' & Hrun & HL' & Hlist' & _).
  exists m'. split; [done|]. split.
  - rewrite (find_run fuel l L' (cy :: cs) _ m' HL' Hlist') by (cbn; lia).
    cbn. by rewrite String.eqb_refl.
  - intros t Ht. exists (first_match t cs).
    rewrite (find_run fuel l L cs _ m HL Hlist) by lia.
    rewrite (find_run fuel l L' (cy :: cs) _ m' HL' Hlist') by (cbn; lia).
    cbn. destruct (String.eqb_spec (str cy) t); [congruence|done].
Qed.

Lemma find_after_insert_front_witness :
  ∃ m',
    insert_front (Some 1%positive) (Some 8%positive) m_three = Done 0 m' ∧
    find 4 (Some 1%positive) (Some "zzzz"%string) m' = Done (Some 8%positive) m' ∧
    (∀ t, t ≠ "zzzz"%string →
          ∃ r, find 4 (Some 1%positive) (Some t) m_three = Done r m_three ∧
               find 4 (Some 1%positive) (Some t) m' = Done r m').
Proof.
  apply (find_after_insert_front 4 1%positive L_three [c_a; c_b; c_c]
           (mkCell 8 9 "zzzz") m_three).
  - reflexivity.
  - apply m_three_is_list.
  - eexists. split; [reflexivity|]. done.
  - compute_done.
  - compute_done.
  - cbn. lia.
Defined.

(** X12: after [insert_end] of a node that owns the string [s], [find]
    returns for every string the node it returned before the insertion,
    when it returned one; when it returned [NULL], it now returns the
    new node for [s] and [NULL] for every other string.  So a string
    the list already held is still found at its earlier node. *)
Theorem find_after_insert_end fuel l L cs cy m :
  lists m !! l = Some L →
  is_list m L cs →
  owns m cy →
  addr cy ∉ map addr cs →
  blk cy ∉ map blk cs →
  (length cs + 1 ≤ fuel)%nat →
  ∃ m',
    insert_end (Some l) (Some (addr cy)) m = Done 0 m' ∧
    ∀ t, ∃ r,
      find fuel (Some l) (Some t) m = Done r m ∧
      find fuel (Some l) (Some t) m' =
        Done (match r with
              | Some a => Some a
              | None => if String.eqb (str cy) t then Some (addr cy) else None
              end) m'.
Proof.
  intros HL Hlist Hcy Ha Hb Hfuel.
  destruct (insert_end_is_list l L cs cy m HL Hlist Hcy Ha Hb)
    as (m' & L' & Hrun & HL' & Hlist' & _).
  exists m'. split; [done|]. intros t. exists (first_match t cs).
  rewrite (find_run fuel l L cs _ m HL Hlist) by lia.
  rewrite (find_run fuel l L' (cs ++ [cy]) _ m' HL' Hlist')
    by (rewrite length_app; cbn; lia).
  by rewrite first_match_app.
Qed.

Lemma find_after_insert_end_witness :
  ∃ m',
    insert_end (Some 1%positive) (Some 8%positive) m_three = Done 0 m' ∧
    ∀ t, ∃ r,
      find 4 (Some 1%positive) (Some t) m_three = Done r m_three ∧
      find 4 (Some 1%positive) (Some t) m' =
        Done (match r with
              | Some a => Some a
              | None => if String.eqb "zzzz" t then Some 8%positive else None
              end) m'.
Proof.
  apply (find_after_insert_end 4 1%positive L_three [c_a; c_b; c_c]
           (mkCell 8 9 "zzzz") m_three).
  - reflexivity.
  - apply m_three_is_list.
  - eexists. split; [reflexivity|]. done.
  - compute_done.
  - compute_done.
  - cbn. lia.
Defined.

(** X13: on a well-formed list of strings in which no element before
    the member [c] holds the string [t], after [remove_node] of [c],
    [find] returns for [t] the first node after [c] that holds [t]
    ([NULL] when there is none).  Before the removal [find] returned
    [c] itself if [c] holds [t], and that same later node if not. *)
Theorem find_after_remove_node fuel l L c1 c c2 t m :
  lists m !! l = Some L →
  is_list m L (c1 ++ c :: c2) →
  (∀ c', c' ∈ c1 → str c' ≠ t) →
  (length (c1 ++ c :: c2) ≤ fuel)%nat →
  ∃ m',
    remove_node (Some l) (Some (addr c)) m = Done 0 m' ∧
    find fuel (Some l) (Some t) m' = Done (first_match t c2) m' ∧
    (str c = t → find fuel (Some l) (Some t) m = Done (Some (addr c)) m) ∧
    (str c ≠ t → find fuel (Some l) (Some t) m = Done (first_match t c2) m).
Proof.
  intros HL Hlist Hno Hfuel.
  destruct (remove_node_is_list l L c1 c c2 m HL Hlist)
    as (m' & L' & Hrun & HL' & Hlist' & _).
  assert (lists m' !! l = Some L') as HL'' by (rewrite HL'; apply lookup_insert_eq).
  assert (length (c1 ++ c2) ≤ fuel)%nat as Hfuel'.
  { rewrite length_app in *. cbn in Hfuel. lia. }
  pose proof (find_run fuel l L' (c1 ++ c2) t m' HL'' Hlist' Hfuel') as Hfind'.
  pose proof (find_run fuel l L (c1 ++ c :: c2) t m HL Hlist Hfuel) as Hfind.
  apply first_match_None in Hno.
  rewrite first_match_app, Hno in Hfind, Hfind'. cbn in Hfind.
  exists m'. split; [done|]. split; [done|].
  destruct (String.eqb_spec (str c) t); split; done.
Qed.

Lemma find_after_remove_node_witness :
  ∃ m',
    remove_node (Some 1%positive) (Some (addr c_b)) m_three = Done 0 m' ∧
    find 3 (Some 1%positive) (Some "ABC1"%string) m'
      = Done (first_match "ABC1" [c_c]) m' ∧
    (str c_b = "ABC1"%string →
     find 3 (Some 1%positive) (Some "ABC1"%string) m_three
       = Done (Some (addr c_b)) m_three) ∧
    (str c_b ≠ "ABC1"%string →
     find 3 (Some 1%positive) (Some "ABC1"%string) m_three
       = Done (first_match "ABC1" [c_c]) m_three).
Proof.
  apply (find_after_remove_node 3 1%positive L_three [c_a] c_b [c_c]
           "ABC1"%string m_three).
  - reflexivity.
  - apply m_three_is_list.
  - intros c' ->%list_elem_of_singleton. discriminate.
  - cbn. lia.
Defined.

(** ** Use after release *)

Lemma load_node_fault a m : nodes m !! a = None → load_node (Some a) m = Fault.
Proof. unfold load_node. by intros ->. Qed.

(** X14: after [dealloc_list] on a well-formed list that is not empty,
    the list still refers to released nodes, and a second
    [dealloc_list], a [find] and a [test_print_list] on it are
    undefined (each reads the released head node), whatever bound of at
    least one iteration they are given. *)
Theorem dealloc_list_twice_faults fuel fuel' l L cs t m :
  lists m !! l = Some L →
  is_list m L cs →
  cs ≠ [] →
  (length cs ≤ fuel)%nat →
  (1 ≤ fuel')%nat →
  ∃ m',
    dealloc_list fuel (Some l) m = Done tt m' ∧
    dealloc_list fuel' (Some l) m' = Fault ∧
    find fuel' (Some l) (Some t) m' = Fault ∧
    test_print_list fuel' (Some l) m' = Fault.
Proof.
  intros HL Hlist Hne Hfuel Hfuel'.
  eexists. split; [by eapply dealloc_list_run|].
  destruct cs as [|c cs]; [done|].
  pose proof (dll_head _ _ _ (il_dll _ _ _ Hlist)) as Hh. cbn in Hh.
  set (m' := upd_nodes _ _).
  assert (nodes m' !! addr c = None) as Hgone.
  { subst m'. fields. apply lookup_foldr_delete. by left. }
  assert (lists m' !! l = Some L) as HL' by done.
  destruct fuel' as [|fuel']; [lia|].
  split; [|split].
  - unfold dealloc_list. step. rewrite Hh. cbn [dealloc_loop].
    unfold bind at 1, get_next, bind. by rewrite load_node_fault.
  - unfold find. step. rewrite Hh. cbn [find_loop].
    unfold bind at 1, get_data, bind. by rewrite load_node_fault.
  - unfold test_print_list. steps. rewrite Hh. cbn [print_loop].
    rewrite !bind_assoc. unfold bind at 1, get_data, bind.
    by rewrite load_node_fault.
Qed.

Lemma dealloc_list_twice_faults_witness :
  ∃ m',
    dealloc_list 3 (Some 1%positive) m_three = Done tt m' ∧
    dealloc_list 1 (Some 1%positive) m' = Fault ∧
    find 1 (Some 1%positive) (Some "ABC0"%string) m' = Fault ∧
    test_print_list 1 (Some 1%positive) m' = Fault.
Proof.
  apply (dealloc_list_twice_faults 3 1 1%positive L_three [c_a; c_b; c_c]
           "ABC0"%string m_three).
  - reflexivity.
  - apply m_three_is_list.
  - discriminate.
  - cbn. lia.
  - lia.
Defined.

(** X15: a node is removed once: after [remove_node] of a member of a
    well-formed list, a second [remove_node] of the same node is
    undefined (it reads the released node), and so is the insertion of
    another allocated node after or before it. *)
Theorem remove_node_twice_faults l L c1 c c2 y m :
  lists m !! l = Some L →
  is_list m L (c1 ++ c :: c2) →
  is_Some (nodes m !! y) →
  y ≠ addr c →
  ∃ m',
    remove_node (Some l) (Some (addr c)) m = Done 0 m' ∧
    remove_node (Some l) (Some (addr c)) m' = Fault ∧
    insert_after (Some l) (Some (addr c)) (Some y) m' = Fault ∧
    insert_before (Some l) (Some (addr c)) (Some y) m' = Fault.
Proof.
  intros HL Hlist [ny Hny] Hy.
  destruct (remove_node_is_list l L c1 c c2 m HL Hlist)
    as (m' & L' & Hrun & HL' & Hlist' & [Hgone Hdata _ _ _ _]).
  exists m'. split; [done|]. split.
  - unfold remove_node. cbn [is_null orb].
    unfold bind at 1, get_prev, bind. by rewrite load_node_fault.
  - specialize (Hdata y Hy). rewrite Hny in Hdata. cbn in Hdata.
    apply fmap_Some in Hdata as (ny' & Hny' & _).
    unfold insert_after, insert_before. cbn [is_null orb]. split.
    + step. unfold bind at 1, get_next, bind. rewrite load_node_fault; [done|].
      fields. by rewrite lookup_insert_ne.
    + step. unfold bind at 1, get_prev, bind. rewrite load_node_fault; [done|].
      fields. by rewrite lookup_insert_ne.
Qed.

Lemma remove_node_twice_faults_witness :
  ∃ m',
    remove_node (Some 1%positive) (Some (addr c_b)) m_three = Done 0 m' ∧
    remove_node (Some 1%positive) (Some (addr c_b)) m' = Fault ∧
    insert_after (Some 1%positive) (Some (addr c_b)) (Some 8%positive) m' = Fault ∧
    insert_before (Some 1%positive) (Some (addr c_b)) (Some 8%positive) m' = Fault.
Proof.
  apply (remove_node_twice_faults 1%positive L_three [c_a] c_b [c_c] 8%positive m_three).
  - reflexivity.
  - apply m_three_is_list.
  - eexists. reflexivity.
  - discriminate.
Defined.

(** ** Printing, and insertion undone by removal *)

(** X16: [test_print_list] on a well-formed list of strings writes the
    start line, the strings from the head to the last element, one a
    line, and the end line, and changes nothing else; it does not test
    its argument, and on an absent list it is undefined. *)
Theorem test_print_list_prints fuel l L cs m :
  test_print_list fuel None m = Fault ∧
  (lists m !! l = Some L →
   is_list m L cs →
   (length cs ≤ fuel)%nat →
   ∃ m',
     test_print_list fuel (Some l) m = Done tt m' ∧
     stdout m' =
       stdout m ++ ["==== List start ===="%string] ++ map str cs
                ++ ["==== List end ===="%string] ∧
     nodes m' = nodes m ∧ chars m' = chars m ∧ lists m' = lists m ∧
     avail m' = avail m ∧ stderr m' = stderr m).
Proof.
  split; [reflexivity|]. intros HL Hlist Hfuel.
  eexists. split; [by eapply test_print_list_run|]. done.
Qed.

Lemma test_print_list_prints_witness :
  ∃ m',
    test_print_list 3 (Some 1%positive) m_three = Done tt m' ∧
    stdout m' =
      stdout m_three ++ ["==== List start ===="%string] ++ map str [c_a; c_b; c_c]
                     ++ ["==== List end ===="%string] ∧
    nodes m' = nodes m_three ∧ chars m' = chars m_three ∧ lists m' = lists m_three ∧
    avail m' = avail m_three ∧ stderr m' = stderr m_three.
Proof.
  apply (test_print_list_prints 3 1%positive L_three [c_a; c_b; c_c] m_three).
  - reflexivity.
  - apply m_three_is_list.
  - cbn. lia.
Defined.

Lemma dll_same_list m m' L L' xs : dll m L xs → dll m' L' xs → L' = L.
Proof.
  intros [Hh Hl _ _] [Hh' Hl' _ _]. destruct L, L'. cbn in *. congruence.
Qed.

(** X17: an insertion is undone by the removal of the inserted node:
    on a well-formed list of strings, [insert_after] of a node that is
    in no list and owns a block of its own, followed by [remove_node]
    of that node, both succeed and leave the list with the elements,
    the order, the strings, [head] and [last] it had; the node and its
    block are released. *)
Theorem insert_after_then_remove_node l L c1 c c2 cy m :
  lists m !! l = Some L →
  is_list m L (c1 ++ c :: c2) →
  owns m cy →
  addr cy ∉ map addr (c1 ++ c :: c2) →
  blk cy ∉ map blk (c1 ++ c :: c2) →
  ∃ m' m'',
    insert_after (Some l) (Some (addr c)) (Some (addr cy)) m = Done 0 m' ∧
    remove_node (Some l) (Some (addr cy)) m' = Done 0 m'' ∧
    lists m'' = lists m ∧
    is_list m'' L (c1 ++ c :: c2) ∧
    nodes m'' !! addr cy = None ∧ chars m'' = delete (blk cy) (chars m).
Proof.
  intros HL Hlist Hcy Ha Hb.
  destruct (insert_after_is_list l L c1 c c2 cy m HL Hlist Hcy Ha Hb)
    as (m' & L' & Hrun & HL' & Hlist' & Hrel).
  assert (lists m' !! l = Some L') as HL1 by (rewrite HL'; apply lookup_insert_eq).
  change (c1 ++ c :: cy :: c2) with (c1 ++ [c] ++ cy :: c2) in Hlist'.
  rewrite app_assoc in Hlist'.
  destruct (remove_node_is_list l L' (c1 ++ [c]) cy c2 m' HL1 Hlist')
    as (m'' & L'' & Hrem & HL'' & Hlist'' & Hul).
  rewrite <- app_assoc in Hlist''. cbn [app] in Hlist''.
  pose proof (dll_same_list _ _ _ _ _ (il_dll _ _ _ Hlist) (il_dll _ _ _ Hlist'')) as ->.
  exists m', m''. split; [done|]. split; [done|]. split; [|split; [done|split]].
  - rewrite HL'', HL', insert_insert_eq. by apply insert_id.
  - apply (ul_node _ _ _ _ Hul).
  - rewrite (ul_chars _ _ _ _ Hul), (rl_chars _ _ Hrel). done.
Qed.

Lemma insert_after_then_remove_node_witness :
  ∃ m' m'',
    insert_after (Some 1%positive) (Some (addr c_b)) (Some 8%positive) m_three = Done 0 m' ∧
    remove_node (Some 1%positive) (Some 8%positive) m' = Done 0 m'' ∧
    lists m'' = lists m_three ∧
    is_list m'' L_three ([c_a] ++ c_b :: [c_c]) ∧
    nodes m'' !! 8%positive = None ∧ chars m'' = delete 9%positive (chars m_three).
Proof.
  apply (insert_after_then_remove_node 1%positive L_three [c_a] c_b [c_c]
           (mkCell 8 9 "zzzz") m_three).
  - reflexivity.
  - apply m_three_is_list.
  - eexists. split; [reflexivity|]. done.
  - compute_done.
  - compute_done.
Defined.

(** ** Null arguments *)

(** X18: each of [insert_after], [insert_before], [insert_front],
    [insert_end] and [remove_node], called with an absent list or an
    absent node, returns 2, the value of [NULL_PTR], and [find], called
    with an absent list or an absent string, returns [NULL]; each writes
    the line of [NULL_PTR] to the error stream and changes nothing
    else. *)
Theorem null_argument_rejected fuel list node new_node target m :
  let m' :=
    upd_stderr
      (fun out => out ++ ["list_lib error: Function received null pointer argument."%string])
      m in
  (list = None ∨ node = None ∨ new_node = None →
   insert_after list node new_node m = Done 2 m' ∧
   insert_before list node new_node m = Done 2 m') ∧
  (list = None ∨ new_node = None →
   insert_front list new_node m = Done 2 m' ∧
   insert_end list new_node m = Done 2 m') ∧
  (list = None ∨ node = None →
   remove_node list node m = Done 2 m') ∧
  (list = None ∨ target = None →
   find fuel list target m = Done None m').
Proof.
  intros m'.
  assert (∀ A (p : option A), p = None → is_null p = true) as Hnull by (by intros A p ->).
  destruct (null_arguments_reported fuel list node new_node target m)
    as (H1 & H2 & H3 & H4).
  split; [|split; [|split]].
  - intros H. apply H1. destruct H as [-> | [-> | ->]]; rewrite ?orb_true_r; done.
  - intros H. apply H2. destruct H as [-> | ->]; rewrite ?orb_true_r; done.
  - intros H. apply H3. destruct H as [-> | ->]; rewrite ?orb_true_r; done.
  - intros H. apply H4. destruct H as [-> | ->]; rewrite ?orb_true_r; done.
Qed.

Lemma null_argument_rejected_witness :
  let m' :=
    upd_stderr
      (fun out => out ++ ["list_lib error: Function received null pointer argument."%string])
      m_three in
  (insert_after (Some 1%positive) None (Some 8%positive) m_three = Done 2 m' ∧
   insert_before (Some 1%positive) None (Some 8%positive) m_three = Done 2 m') ∧
  (insert_front None (Some 8%positive) m_three = Done 2 m' ∧
   insert_end None (Some 8%positive) m_three = Done 2 m') ∧
  remove_node (Some 1%positive) None m_three = Done 2 m' ∧
  find 3 None (Some "ABC0"%string) m_three = Done None m'.
Proof.
  intros m'.
  destruct (null_argument_rejected 3 (Some 1%positive) None (Some 8%positive)
              (Some "ABC0"%string) m_three) as (H1 & _ & H3 & _).
  destruct (null_argument_rejected 3 None None (Some 8%positive)
              (Some "ABC0"%string) m_three) as (_ & H2 & _ & H4).
  split; [apply H1; right; left; reflexivity|].
  split; [apply H2; left; reflexivity|].
  split; [apply H3; right; reflexivity|].
  apply H4. left. reflexivity.
Defined.

(** * The test suite *)

(** ** A list built on top of a state *)

(** The node of an element of a well-formed list of strings. *)
Lemma is_list_node m L c1 c c2 :
  is_list m L (c1 ++ c :: c2) →
  nodes m !! addr c =
    Some (mkNode (last_or (map addr c1) None) (first_or (map addr c2) None) (Some (blk c))) ∧
  chars m !! blk c = Some (str c).
Proof.
  intros [[_ _ _ Hseg] _ Hown]. rewrite map_app in Hseg. cbn [map] in Hseg.
  apply seg_mid in Hseg as (_ & (nd & Hnd & Hp & Hn) & _).
  apply Forall_app in Hown as [_ Hown].
  apply Forall_cons in Hown as [(nd' & Hnd' & Hd & Hs) _].
  rewrite Hnd in Hnd'. injection Hnd' as <-. split; [|done].
  rewrite Hnd. destruct nd. cbn in *. congruence.
Qed.

Lemma is_list_head_last m L cs :
  is_list m L cs →
  L = mkList (list.head (map addr cs)) (list.last (map addr cs)).
Proof. intros [[Hh Hl _ _] _ _]. destruct L. cbn in *. congruence. Qed.

Lemma remove_node_is_list_frame l L c1 c c2 m :
  lists m !! l = Some L →
  is_list m L (c1 ++ c :: c2) →
  ∃ m' L',
    remove_node (Some l) (Some (addr c)) m = Done 0 m' ∧
    lists m' = <[l := L']> (lists m) ∧
    is_list m' L' (c1 ++ c2) ∧
    unlinked (addr c) (blk c) m m' ∧
    (∀ a, a ∉ map addr (c1 ++ c :: c2) → nodes m' !! a = nodes m !! a).
Proof.
  intros HL Hlist.
  destruct (remove_node_is_list l L c1 c c2 m HL Hlist)
    as (m' & L' & Hrun & HL' & Hlist' & Hul).
  destruct (is_list_node m L c1 c c2 Hlist) as [Hnd Hs].
  pose proof (il_dll _ _ _ Hlist) as Hdll. rewrite map_app in Hdll. cbn [map] in Hdll.
  destruct (remove_node_dll_frame l L _ _ _ _ (blk c) _ m HL Hdll Hnd eq_refl Hs)
    as (m'' & L'' & Hrun' & _ & _ & _ & Hfr).
  rewrite Hrun in Hrun'. injection Hrun' as <-.
  exists m', L'. repeat (split; [done|]). by rewrite map_app.
Qed.

Lemma built_remove l m m1 L c1 c c2 :
  built l m m1 L (c1 ++ c :: c2) →
  ∃ m2 L2,
    remove_node (Some l) (Some (addr c)) m1 = Done 0 m2 ∧
    built l m m2 L2 (c1 ++ c2) ∧
    avail m2 = avail m1 ∧ stdout m2 = stdout m1.
Proof.
  intros [HL Hlist Hn Hc Hnew Hl He].
  destruct (remove_node_is_list_frame l L c1 c c2 m1 HL Hlist)
    as (m2 & L2 & Hrun & HL2 & Hlist2 & Hul & Hfr).
  pose proof (dll_nodup _ _ _ (il_dll _ _ _ Hlist)) as Hna.
  pose proof (il_blocks _ _ _ Hlist) as Hnb.
  rewrite map_app in Hna, Hnb. cbn [map] in Hna, Hnb.
  apply NoDup_mid in Hna as (_ & _ & Ha1 & Ha2 & _).
  apply NoDup_mid in Hnb as (_ & _ & Hb1 & Hb2 & _).
  exists m2, L2. split; [done|]. split; [|split; [apply (ul_avail _ _ _ _ Hul)|apply (ul_stdout _ _ _ _ Hul)]].
  split.
  - rewrite HL2. apply lookup_insert_eq.
  - done.
  - intros a Ha. destruct (decide (a = addr c)) as [->|Hne].
    + rewrite (ul_node _ _ _ _ Hul). symmetry. apply Hnew.
      apply elem_of_app. right. by left.
    + rewrite Hfr, Hn; [done|..]; rewrite map_app in *; cbn [map];
        rewrite elem_of_app in *; rewrite elem_of_cons; tauto.
  - intros b Hb. rewrite (ul_chars _ _ _ _ Hul).
    destruct (decide (b = blk c)) as [->|Hne].
    + rewrite lookup_delete_eq. symmetry. apply Hnew.
      apply elem_of_app. right. by left.
    + rewrite lookup_delete_ne by done. apply Hc.
      rewrite map_app in *; cbn [map]; rewrite elem_of_app in *; rewrite elem_of_cons; tauto.
  - intros c' Hc'. apply Hnew. rewrite elem_of_app in *. rewrite elem_of_cons. tauto.
  - intros l' Hl'. rewrite HL2, lookup_insert_ne by done. by apply Hl.
  - by rewrite (ul_stderr _ _ _ _ Hul).
Qed.

Lemma built_dealloc fuel l m m1 L cs :
  built l m m1 L cs →
  (length cs ≤ fuel)%nat →
  ∃ m2,
    dealloc_list fuel (Some l) m1 = Done tt m2 ∧
    nodes m2 = nodes m ∧ chars m2 = chars m ∧ lists m2 = lists m1 ∧
    avail m2 = avail m1 ∧ stdout m2 = stdout m1 ∧ stderr m2 = stderr m.
Proof.
  intros [HL Hlist Hn Hc Hnew Hl He] Hfuel.
  eexists. split; [by eapply dealloc_list_run|]. fields.
  split; [|split; [|done]].
  - apply map_eq. intros a. destruct (decide (a ∈ map addr cs)) as [Hin|Hout].
    + rewrite lookup_foldr_delete by done.
      apply list_elem_of_fmap in Hin as (c & -> & Hc'). symmetry. by apply Hnew.
    + rewrite lookup_foldr_delete_not_elem_of by done. by apply Hn.
  - apply map_eq. intros b. destruct (decide (b ∈ map blk cs)) as [Hin|Hout].
    + rewrite lookup_foldr_delete by done.
      apply list_elem_of_fmap in Hin as (c & -> & Hc'). symmetry. by apply Hnew.
    + rewrite lookup_foldr_delete_not_elem_of by done. by apply Hc.
Qed.

Lemma built_print fuel l m m1 L cs :
  built l m m1 L cs →
  (length cs ≤ fuel)%nat →
  ∃ m2,
    test_print_list fuel (Some l) m1 = Done tt m2 ∧
    built l m m2 L cs ∧
    avail m2 = avail m1 ∧
    stdout m2 = stdout m1 ++ ["==== List start ===="%string] ++ map str cs
                  ++ ["==== List end ===="%string].
Proof.
  intros [HL Hlist Hn Hc Hnew Hl He] Hfuel.
  eexists. split; [by eapply test_print_list_run|]. split; [|done].
  split; try done. by apply (is_list_same m1).
Qed.

Lemma built_find fuel l m m1 L cs t :
  built l m m1 L cs →
  (length cs ≤ fuel)%nat →
  find fuel (Some l) (Some t) m1 = Done (first_match t cs) m1.
Proof. intros [HL Hlist _ _ _ _ _] Hfuel. by eapply find_run. Qed.

(** A list built on a state stays one when a new node, made by
    [make_node], is linked into it. *)
Lemma built_link l m m1 m1' m2 L L2 c1 cy c2 :
  built l m m1 L (c1 ++ c2) →
  (addr cy ∉ map addr (c1 ++ c2)) →
  (blk cy ∉ map blk (c1 ++ c2)) →
  is_list m1' L (c1 ++ c2) →
  owns m1' cy →
  lists m1' = lists m1 → stderr m1' = stderr m1 →
  nodes m1 !! addr cy = None → chars m1 !! blk cy = None →
  (∀ a, a ≠ addr cy → nodes m1' !! a = nodes m1 !! a) →
  (∀ b, b ≠ blk cy → chars m1' !! b = chars m1 !! b) →
  lists m2 = <[l := L2]> (lists m1') →
  dll m2 L2 (map addr (c1 ++ cy :: c2)) →
  relinked m1' m2 →
  (∀ a, a ∉ map addr (c1 ++ c2) → a ≠ addr cy → nodes m2 !! a = nodes m1' !! a) →
  built l m m2 L2 (c1 ++ cy :: c2).
Proof.
  intros [HL Hlist Hn Hc Hnew Hl He] Ha Hb Hlist1 Hown1 HL1 He1 Hna Hnb Hfa Hfb
         HL2 Hdll2 Hrel Hfr.
  assert (∀ a, a ∉ map addr (c1 ++ cy :: c2) → (a ∉ map addr (c1 ++ c2)) ∧ a ≠ addr cy) as Hsa.
  { intros a. rewrite !map_app. cbn [map]. rewrite !elem_of_app, elem_of_cons. tauto. }
  assert (∀ b, b ∉ map blk (c1 ++ cy :: c2) → (b ∉ map blk (c1 ++ c2)) ∧ b ≠ blk cy) as Hsb.
  { intros b. rewrite !map_app. cbn [map]. rewrite !elem_of_app, elem_of_cons. tauto. }
  split.
  - rewrite HL2. apply lookup_insert_eq.
  - apply (is_list_insert m1'); try done.
    + apply (il_blocks _ _ _ Hlist1).
    + apply (il_owns _ _ _ Hlist1).
  - intros a [Ha1 Ha2]%Hsa. by rewrite Hfr, Hfa, Hn.
  - intros b [Hb1 Hb2]%Hsb. by rewrite (rl_chars _ _ Hrel), Hfb, Hc.
  - intros c [Hc1|[->|Hc2]%elem_of_cons]%elem_of_app.
    + apply Hnew. apply elem_of_app. by left.
    + by rewrite <- Hn, <- Hc.
    + apply Hnew. apply elem_of_app. by right.
  - intros l' Hl'. rewrite HL2, lookup_insert_ne, HL1 by done. by apply Hl.
  - by rewrite (rl_stderr _ _ Hrel), He1.
Qed.

Section BuiltInsert.

Variable pick : gset positive → positive.
Hypothesis pick_fresh : ∀ X, pick X ∉ X.

Lemma built_insert_after l m m1 L c1 c c2 s rest :
  built l m m1 L (c1 ++ c :: c2) →
  avail m1 = true :: true :: rest →
  ∃ m2 L2 cy,
    (let* new_node := make_node pick (Some s) in
     insert_after (Some l) (Some (addr c)) new_node) m1 = Done 0 m2 ∧
    built l m m2 L2 (c1 ++ c :: cy :: c2) ∧
    str cy = s ∧ avail m2 = rest ∧ stdout m2 = stdout m1.
Proof.
  intros Hb Hav.
  destruct (is_list_alloc pick pick_fresh m1 L _ s rest (bt_is_list _ _ _ _ _ Hb) Hav)
    as (m1' & cy & Hmk & Hstr & Ha & Hbk & Hlist1 & Hown1 & [ny Hny] & HL1 & Hav1
        & He1 & Ho1 & Hna & Hnb & Hfa & Hfb).
  pose proof (il_dll _ _ _ Hlist1) as Hdll. rewrite map_app in Hdll, Ha. cbn [map] in Hdll, Ha.
  assert (lists m1' !! l = Some L) as HL by (rewrite HL1; apply (bt_list _ _ _ _ _ Hb)).
  destruct (insert_after_dll l L _ _ _ _ ny m1' HL Hdll Ha Hny)
    as (m2 & L2 & Hrun & HL2 & Hdll2 & Hrel & _ & Hfr).
  exists m2, L2, cy. split; [by erewrite bind_eq by exact Hmk|].
  split; [|split; [done|split; [by rewrite (rl_avail _ _ Hrel)|by rewrite (rl_stdout _ _ Hrel)]]].
  rewrite (cons_middle c c1 (cy :: c2)), app_assoc.
  apply (built_link l m m1 m1' m2 L L2); rewrite <- ?app_assoc; cbn [app]; try done.
  - by rewrite map_app.
  - by rewrite !map_app.
  - by rewrite map_app.
Qed.

Lemma built_insert_before l m m1 L c1 c c2 s rest :
  built l m m1 L (c1 ++ c :: c2) →
  avail m1 = true :: true :: rest →
  ∃ m2 L2 cy,
    (let* new_node := make_node pick (Some s) in
     insert_before (Some l) (Some (addr c)) new_node) m1 = Done 0 m2 ∧
    built l m m2 L2 (c1 ++ cy :: c :: c2) ∧
    str cy = s ∧ avail m2 = rest ∧ stdout m2 = stdout m1.
Proof.
  intros Hb Hav.
  destruct (is_list_alloc pick pick_fresh m1 L _ s rest (bt_is_list _ _ _ _ _ Hb) Hav)
    as (m1' & cy & Hmk & Hstr & Ha & Hbk & Hlist1 & Hown1 & [ny Hny] & HL1 & Hav1
        & He1 & Ho1 & Hna & Hnb & Hfa & Hfb).
  pose proof (il_dll _ _ _ Hlist1) as Hdll. rewrite map_app in Hdll, Ha. cbn [map] in Hdll, Ha.
  assert (lists m1' !! l = Some L) as HL by (rewrite HL1; apply (bt_list _ _ _ _ _ Hb)).
  destruct (insert_before_dll l L _ _ _ _ ny m1' HL Hdll Ha Hny)
    as (m2 & L2 & Hrun & HL2 & Hdll2 & Hrel & _ & Hfr).
  exists m2, L2, cy. split; [by erewrite bind_eq by exact Hmk|].
  split; [|split; [done|split; [by rewrite (rl_avail _ _ Hrel)|by rewrite (rl_stdout _ _ Hrel)]]].
  apply (built_link l m m1 m1' m2 L L2); try done.
  - by rewrite map_app.
  - by rewrite !map_app.
  - by rewrite map_app.
Qed.

Lemma built_insert_front l m m1 L cs s rest :
  built l m m1 L cs →
  avail m1 = true :: true :: rest →
  ∃ m2 L2 cy,
    (let* new_node := make_node pick (Some s) in
     insert_front (Some l) new_node) m1 = Done 0 m2 ∧
    built l m m2 L2 (cy :: cs) ∧
    str cy = s ∧ avail m2 = rest ∧ stdout m2 = stdout m1.
Proof.
  intros Hb Hav.
  destruct (is_list_alloc pick pick_fresh m1 L _ s rest (bt_is_list _ _ _ _ _ Hb) Hav)
    as (m1' & cy & Hmk & Hstr & Ha & Hbk & Hlist1 & Hown1 & [ny Hny] & HL1 & Hav1
        & He1 & Ho1 & Hna & Hnb & Hfa & Hfb).
  pose proof (il_dll _ _ _ Hlist1) as Hdll.
  assert (lists m1' !! l = Some L) as HL by (rewrite HL1; apply (bt_list _ _ _ _ _ Hb)).
  destruct (insert_front_dll l L _ _ ny m1' HL Hdll Ha Hny)
    as (m2 & L2 & Hrun & HL2 & Hdll2 & Hrel & Hfr).
  exists m2, L2, cy. split; [by erewrite bind_eq by exact Hmk|].
  split; [|split; [done|split; [by rewrite (rl_avail _ _ Hrel)|by rewrite (rl_stdout _ _ Hrel)]]].
  by apply (built_link l m m1 m1' m2 L L2 [] cy cs).
Qed.

Lemma built_insert_end l m m1 L cs s rest :
  built l m m1 L cs →
  avail m1 = true :: true :: rest →
  ∃ m2 L2 cy,
    (let* new_node := make_node pick (Some s) in
     insert_end (Some l) new_node) m1 = Done 0 m2 ∧
    built l m m2 L2 (cs ++ [cy]) ∧
    str cy = s ∧ avail m2 = rest ∧ stdout m2 = stdout m1.
Proof.
  intros Hb Hav.
  destruct (is_list_alloc pick pick_fresh m1 L _ s rest (bt_is_list _ _ _ _ _ Hb) Hav)
    as (m1' & cy & Hmk & Hstr & Ha & Hbk & Hlist1 & Hown1 & [ny Hny] & HL1 & Hav1
        & He1 & Ho1 & Hna & Hnb & Hfa & Hfb).
  pose proof (il_dll _ _ _ Hlist1) as Hdll.
  assert (lists m1' !! l = Some L) as HL by (rewrite HL1; apply (bt_list _ _ _ _ _ Hb)).
  destruct (insert_end_dll l L _ _ ny m1' HL Hdll Ha Hny)
    as (m2 & L2 & Hrun & HL2 & Hdll2 & Hrel & Hfr).
  exists m2, L2, cy. split; [by erewrite bind_eq by exact Hmk|].
  split; [|split; [done|split; [by rewrite (rl_avail _ _ Hrel)|by rewrite (rl_stdout _ _ Hrel)]]].
  apply (built_link l m m1 m1' m2 L L2 cs cy []); rewrite ?app_nil_r; try done.
  by rewrite map_app.
Qed.

End BuiltInsert.

(** Reading the fields of a list built on a state. *)
Lemma built_head l m m1 L cs :
  built l m m1 L cs → get_head (Some l) m1 = Done (list.head (map addr cs)) m1.
Proof.
  intros Hb. rewrite (get_head_eq l L) by apply (bt_list _ _ _ _ _ Hb).
  by rewrite (dll_head _ _ _ (il_dll _ _ _ (bt_is_list _ _ _ _ _ Hb))).
Qed.

Lemma built_last l m m1 L cs :
  built l m m1 L cs → get_last (Some l) m1 = Done (list.last (map addr cs)) m1.
Proof.
  intros Hb. rewrite (get_last_eq l L) by apply (bt_list _ _ _ _ _ Hb).
  by rewrite (dll_last _ _ _ (il_dll _ _ _ (bt_is_list _ _ _ _ _ Hb))).
Qed.

Lemma built_next l m m1 L c1 c c2 :
  built l m m1 L (c1 ++ c :: c2) →
  get_next (Some (addr c)) m1 = Done (first_or (map addr c2) None) m1.
Proof.
  intros Hb. destruct (is_list_node m1 L c1 c c2 (bt_is_list _ _ _ _ _ Hb)) as [Hnd _].
  by rewrite (get_next_eq _ _ _ Hnd).
Qed.

Lemma built_prev l m m1 L c1 c c2 :
  built l m m1 L (c1 ++ c :: c2) →
  get_prev (Some (addr c)) m1 = Done (last_or (map addr c1) None) m1.
Proof.
  intros Hb. destruct (is_list_node m1 L c1 c c2 (bt_is_list _ _ _ _ _ Hb)) as [Hnd _].
  by rewrite (get_prev_eq _ _ _ Hnd).
Qed.

Lemma built_data l m m1 L c1 c c2 :
  built l m m1 L (c1 ++ c :: c2) →
  get_data (Some (addr c)) m1 = Done (Some (blk c)) m1 ∧
  load_chars (Some (blk c)) m1 = Done (str c) m1.
Proof.
  intros Hb. destruct (is_list_node m1 L c1 c c2 (bt_is_list _ _ _ _ _ Hb)) as [Hnd Hs].
  by rewrite (get_data_eq _ _ _ Hnd), (load_chars_eq _ _ _ Hs).
Qed.

(** ** The tests *)

Lemma clean_run_seq m m1 m2 r1 r2 e1 e2 o1 o2 :
  clean_run m m1 r1 e1 o1 → clean_run m1 m2 r2 e2 o2 →
  clean_run m m2 r2 (e1 ++ e2) (o1 ++ o2).
Proof.
  intros [? ? ? ? He Ho] [? ? ? ? He' Ho']. split; try congruence.
  - by rewrite He', He, app_assoc.
  - by rewrite Ho', Ho, app_assoc.
Qed.

Lemma runs_seq {A B} (t1 : M A) (t2 : M B) a b n1 n2 e1 e2 o1 o2 :
  runs t1 a n1 e1 o1 → runs t2 b n2 e2 o2 →
  runs (t1 >> t2) b (n1 + n2) (e1 ++ e2) (o1 ++ o2).
Proof.
  intros H1 H2 m rest Hav. rewrite repeat_app, <- app_assoc in Hav.
  destruct (H1 m _ Hav) as (m1 & Hrun1 & Hc1).
  destruct (H2 m1 rest (cr_avail _ _ _ _ _ Hc1)) as (m2 & Hrun2 & Hc2).
  exists m2. split; [by erewrite bind_eq by exact Hrun1|].
  by eapply clean_run_seq.
Qed.

Lemma ten_cells (cs : list cell) s0 s1 s2 s3 s4 s5 s6 s7 s8 s9 :
  map str cs = [s0; s1; s2; s3; s4; s5; s6; s7; s8; s9] →
  ∃ c0 c1 c2 c3 c4 c5 c6 c7 c8 c9,
    cs = [c0; c1; c2; c3; c4; c5; c6; c7; c8; c9].
Proof.
  intros H.
  do 10 (destruct cs as [|? cs]; [discriminate|]). destruct cs; [|discriminate].
  by eexists _, _, _, _, _, _, _, _, _, _.
Qed.

(** The variable of a test ends: what is left is the state before the
    test, when the nodes and blocks of the test are released. *)
Lemma end_local_list_clean l m m3 rest err out :
  lists m !! l = None →
  nodes m3 = nodes m → chars m3 = chars m →
  (∀ l', l' ≠ l → lists m3 !! l' = lists m !! l') →
  avail m3 = rest →
  stderr m3 = stderr m ++ err →
  stdout m3 = stdout m ++ out →
  ∃ m', end_local_list (Some l) m3 = Done tt m' ∧ clean_run m m' rest err out.
Proof.
  intros Hl Hn Hc Hls Hav He Ho. eexists. split; [reflexivity|].
  split; fields; try done.
  apply map_eq. intros l'. destruct (decide (l' = l)) as [->|Hne].
  - by rewrite lookup_delete_eq.
  - rewrite lookup_delete_ne by done. by apply Hls.
Qed.

Lemma assert_int_equal_same n name m :
  assert_int_equal n n name m = Done tt (upd_stdout (fun out => out ++ [passed name]) m).
Proof. unfold assert_int_equal. by rewrite Z.eqb_refl. Qed.

Section TestSuite.

Variable pick : gset positive → positive.
Variable junk : List.
Variable show_ptr : ptr → string.
Variable strcmp : string → string → Z.
Hypothesis pick_fresh : ∀ X, pick X ∉ X.
Hypothesis strcmp_refl : ∀ s, strcmp s s = 0.

(** The variable of a test is a list structure that was not live. *)
Lemma local_list_run m :
  ∃ l, local_list pick junk m = Done (Some l) (upd_lists (insert l junk) m) ∧
       lists m !! l = None.
Proof. eexists. split; [reflexivity|]. apply not_elem_of_dom, pick_fresh. Qed.

(** The first two statements of most tests. *)
Lemma test_setup fuel rest m :
  avail m = repeat true 20 ++ rest →
  ∃ l m0 m1 L c0 c1 c2 c3 c4 c5 c6 c7 c8 c9,
    local_list pick junk m = Done (Some l) m0 ∧
    init_list pick fuel (Some l) (Some TEST_DATA) DATA_LEN m0 = Done 0 m1 ∧
    lists m !! l = None ∧
    built l m m1 L [c0; c1; c2; c3; c4; c5; c6; c7; c8; c9] ∧
    map str [c0; c1; c2; c3; c4; c5; c6; c7; c8; c9] =
      ["ABC0"; "ABC1"; "ABC2"; "ABC3"; "ABC4"; "ABC5"; "ABC6"; "ABC7"; "ABC8"; "ABC9"]%string ∧
    avail m1 = rest ∧ stdout m1 = stdout m.
Proof.
  intros Hav. destruct (local_list_run m) as (l & Hloc & Hl).
  set (m0 := upd_lists (insert l junk) m) in *.
  set (strs := ["ABC0"; "ABC1"; "ABC2"; "ABC3"; "ABC4"; "ABC5"; "ABC6"; "ABC7"; "ABC8"; "ABC9"]%string).
  assert (lists m0 !! l = Some junk) as HL0 by (subst m0; fields; apply lookup_insert_eq).
  assert (0 ≤ 10 ≤ Z.of_nat (length strs)) as Hn by (cbn; lia).
  assert (avail m0 = repeat true (2 * Z.to_nat 10) ++ rest) as Hav0 by (subst m0; fields; exact Hav).
  destruct (init_list_built pick pick_fresh fuel l junk strs 10 rest m0 HL0 Hn Hav0)
    as (m1 & L & cs & Hrun & HL & Hlist & Hstr & Hrest & Hfn & Hfc & Hnew & Hfl).
  destruct (init_list_run pick pick_fresh fuel l junk strs 10 rest m0 HL0 Hn Hav0)
    as (m1' & L' & cs' & Hrun' & _ & _ & _ & _ & He & Ho).
  rewrite Hrun in Hrun'. injection Hrun' as <-.
  change (take (Z.to_nat 10) strs) with strs in Hstr.
  destruct (ten_cells cs _ _ _ _ _ _ _ _ _ _ Hstr)
    as (c0 & c1 & c2 & c3 & c4 & c5 & c6 & c7 & c8 & c9 & ->).
  exists l, m0, m1, L, c0, c1, c2, c3, c4, c5, c6, c7, c8, c9.
  split; [done|]. split; [exact Hrun|]. split; [done|].
  split; [|split; [exact Hstr|split; [done|by rewrite Ho]]].
  split; try done.
  intros l' Hl'. rewrite (Hfl l' Hl'). subst m0. fields. by rewrite lookup_insert_ne.
Qed.

(** The last statements of a test of insertion or removal: the list is
    printed and released, the assertion holds, and the variable of the
    test ends. *)
Lemma test_finish fuel name r line l m m2 L2 cs2 :
  (∀ mx, assert_int_equal 0 r name mx = Done tt (upd_stdout (fun out => out ++ [line]) mx)) →
  lists m !! l = None →
  built l m m2 L2 cs2 →
  stdout m2 = stdout m →
  (length cs2 ≤ fuel)%nat →
  ∃ m',
    (test_print_list fuel (Some l) >>
     dealloc_if_zero fuel 0 (Some l) >>
     assert_int_equal 0 r name >>
     end_local_list (Some l)) m2 = Done tt m' ∧
    clean_run m m' (avail m2) [] (list_printed (map str cs2) ++ [line]).
Proof.
  intros Hline Hl Hb Ho Hfuel.
  destruct (built_print fuel l m m2 L2 cs2 Hb Hfuel) as (m3 & Hpr & Hb3 & Hav3 & Ho3).
  destruct (built_dealloc fuel l m m3 L2 cs2 Hb3 Hfuel)
    as (m4 & Hde & Hn4 & Hc4 & Hl4 & Hav4 & Ho4 & He4).
  destruct (end_local_list_clean l m (upd_stdout (fun out => out ++ [line]) m4)
              (avail m2) [] (list_printed (map str cs2) ++ [line]) Hl)
    as (m' & Hend & Hclean); fields; try done.
  - intros l' Hl'. rewrite Hl4. by apply (bt_lists _ _ _ _ _ Hb3).
  - congruence.
  - by rewrite app_nil_r.
  - rewrite Ho4, Ho3, Ho. unfold list_printed. by rewrite <- !app_assoc.
  - exists m'. split; [|done].
    erewrite bind_eq by exact Hpr. unfold dealloc_if_zero. cbn [Z.eqb].
    erewrite bind_eq by exact Hde. erewrite bind_eq by apply Hline. exact Hend.
Qed.

(** The strings of the list a test has built. *)
Ltac strings H :=
  cbn [map] in H;
  injection H as ?E0 ?E1 ?E2 ?E3 ?E4 ?E5 ?E6 ?E7 ?E8 ?E9.

Ltac known_strings :=
  cbn [map app];
  repeat match goal with E : str _ = _ |- _ => rewrite E; clear E end.

(** [list.head->next->next->next->next] on a list of five nodes or more *)
Lemma fifth_node_run l m m1 L c0 c1 c2 c3 c4 cs :
  built l m m1 L (c0 :: c1 :: c2 :: c3 :: c4 :: cs) →
  fifth_node (Some l) m1 = Done (Some (addr c4)) m1.
Proof.
  intros Hb. unfold fifth_node.
  erewrite bind_eq by exact (built_head _ _ _ _ _ Hb).
  erewrite bind_eq by exact (built_next _ _ _ _ [] c0 _ Hb).
  erewrite bind_eq by exact (built_next _ _ _ _ [c0] c1 _ Hb).
  erewrite bind_eq by exact (built_next _ _ _ _ [c0; c1] c2 _ Hb).
  exact (built_next _ _ _ _ [c0; c1; c2] c3 _ Hb).
Qed.

Lemma test_insert_after_head_runs fuel :
  (11 ≤ fuel)%nat →
  runs (test_insert_after_head pick junk fuel) tt 22 []
    (list_printed ["ABC0"; "zzzz"; "ABC1"; "ABC2"; "ABC3"; "ABC4"; "ABC5"; "ABC6";
                   "ABC7"; "ABC8"; "ABC9"]%string
     ++ [passed "test_insert_after_head"]).
Proof.
  intros Hfuel m rest Hav.
  destruct (test_setup fuel (true :: true :: rest) m Hav)
    as (l & m0 & m1 & L & c0 & c1 & c2 & c3 & c4 & c5 & c6 & c7 & c8 & c9
        & Hloc & Hinit & Hl & Hb & Hstr & Hav1 & Ho1).
  destruct (built_insert_after pick pick_fresh l m m1 L [] c0 _
              "zzzz"%string rest Hb Hav1)
    as (m2 & L2 & cy & Hop & Hb2 & Hs & Hav2 & Ho2).
  destruct (test_finish fuel "test_insert_after_head" 0 (passed "test_insert_after_head") l m m2 L2 _
              (assert_int_equal_same 0 "test_insert_after_head") Hl Hb2)
    as (m' & Hfin & Hclean); [congruence|cbn; lia|].
  strings Hstr. revert Hclean. known_strings. rewrite Hav2. intros Hclean.
  exists m'. split; [|exact Hclean].
  unfold test_insert_after_head.
  erewrite bind_eq by exact Hloc. erewrite bind_eq by exact Hinit.
  rewrite bind_assoc. erewrite bind_eq by exact (built_head _ _ _ _ _ Hb).
  erewrite bind_eq by exact Hop. exact Hfin.
Qed.

Lemma test_insert_after_middle_runs fuel :
  (11 ≤ fuel)%nat →
  runs (test_insert_after_middle pick junk fuel) tt 22 []
    (list_printed ["ABC0"; "ABC1"; "ABC2"; "ABC3"; "ABC4"; "zzzz"; "ABC5"; "ABC6";
                   "ABC7"; "ABC8"; "ABC9"]%string
     ++ [passed "test_insert_after_middle"]).
Proof.
  intros Hfuel m rest Hav.
  destruct (test_setup fuel (true :: true :: rest) m Hav)
    as (l & m0 & m1 & L & c0 & c1 & c2 & c3 & c4 & c5 & c6 & c7 & c8 & c9
        & Hloc & Hinit & Hl & Hb & Hstr & Hav1 & Ho1).
  destruct (built_insert_after pick pick_fresh l m m1 L [c0; c1; c2; c3] c4 _
              "zzzz"%string rest Hb Hav1)
    as (m2 & L2 & cy & Hop & Hb2 & Hs & Hav2 & Ho2).
  destruct (test_finish fuel "test_insert_after_middle" 0 (passed "test_insert_after_middle") l m m2 L2 _
              (assert_int_equal_same 0 "test_insert_after_middle") Hl Hb2)
    as (m' & Hfin & Hclean); [congruence|cbn; lia|].
  strings Hstr. revert Hclean. known_strings. rewrite Hav2. intros Hclean.
  exists m'. split; [|exact Hclean].
  unfold test_insert_after_middle.
  erewrite bind_eq by exact Hloc. erewrite bind_eq by exact Hinit.
  erewrite bind_eq by exact (fifth_node_run _ _ _ _ _ _ _ _ _ _ Hb).
  erewrite bind_eq by exact Hop. exact Hfin.
Qed.

Lemma test_insert_after_last_runs fuel :
  (11 ≤ fuel)%nat →
  runs (test_insert_after_last pick junk fuel) tt 22 []
    (list_printed ["ABC0"; "ABC1"; "ABC2"; "ABC3"; "ABC4"; "ABC5"; "ABC6"; "ABC7";
                   "ABC8"; "ABC9"; "zzzz"]%string
     ++ [passed "test_insert_after_last"]).
Proof.
  intros Hfuel m rest Hav.
  destruct (test_setup fuel (true :: true :: rest) m Hav)
    as (l & m0 & m1 & L & c0 & c1 & c2 & c3 & c4 & c5 & c6 & c7 & c8 & c9
        & Hloc & Hinit & Hl & Hb & Hstr & Hav1 & Ho1).
  destruct (built_insert_after pick pick_fresh l m m1 L [c0; c1; c2; c3; c4; c5; c6; c7; c8] c9 _
              "zzzz"%string rest Hb Hav1)
    as (m2 & L2 & cy & Hop & Hb2 & Hs & Hav2 & Ho2).
  destruct (test_finish fuel "test_insert_after_last" 0 (passed "test_insert_after_last") l m m2 L2 _
              (assert_int_equal_same 0 "test_insert_after_last") Hl Hb2)
    as (m' & Hfin & Hclean); [congruence|cbn; lia|].
  strings Hstr. revert Hclean. known_strings. rewrite Hav2. intros Hclean.
  exists m'. split; [|exact Hclean].
  unfold test_insert_after_last.
  erewrite bind_eq by exact Hloc. erewrite bind_eq by exact Hinit.
  rewrite bind_assoc. erewrite bind_eq by exact (built_last _ _ _ _ _ Hb).
  erewrite bind_eq by exact Hop. exact Hfin.
Qed.

Lemma test_insert_before_head_runs fuel :
  (11 ≤ fuel)%nat →
  runs (test_insert_before_head pick junk fuel) tt 22 []
    (list_printed ["zzzz"; "ABC0"; "ABC1"; "ABC2"; "ABC3"; "ABC4"; "ABC5"; "ABC6";
                   "ABC7"; "ABC8"; "ABC9"]%string
     ++ [passed "test_insert_before_head"]).
Proof.
  intros Hfuel m rest Hav.
  destruct (test_setup fuel (true :: true :: rest) m Hav)
    as (l & m0 & m1 & L & c0 & c1 & c2 & c3 & c4 & c5 & c6 & c7 & c8 & c9
        & Hloc & Hinit & Hl & Hb & Hstr & Hav1 & Ho1).
  destruct (built_insert_before pick pick_fresh l m m1 L [] c0 _
              "zzzz"%string rest Hb Hav1)
    as (m2 & L2 & cy & Hop & Hb2 & Hs & Hav2 & Ho2).
  destruct (test_finish fuel "test_insert_before_head" 0 (passed "test_insert_before_head") l m m2 L2 _
              (assert_int_equal_same 0 "test_insert_before_head") Hl Hb2)
    as (m' & Hfin & Hclean); [congruence|cbn; lia|].
  strings Hstr. revert Hclean. known_strings. rewrite Hav2. intros Hclean.
  exists m'. split; [|exact Hclean].
  unfold test_insert_before_head.
  erewrite bind_eq by exact Hloc. erewrite bind_eq by exact Hinit.
  rewrite bind_assoc. erewrite bind_eq by exact (built_head _ _ _ _ _ Hb).
  erewrite bind_eq by exact Hop. exact Hfin.
Qed.

Lemma test_insert_before_middle_runs fuel :
  (11 ≤ fuel)%nat →
  runs (test_insert_before_middle pick junk fuel) tt 22 []
    (list_printed ["ABC0"; "ABC1"; "ABC2"; "ABC3"; "zzzz"; "ABC4"; "ABC5"; "ABC6";
                   "ABC7"; "ABC8"; "ABC9"]%string
     ++ [passed "test_insert_before_middle"]).
Proof.
  intros Hfuel m rest Hav.
  destruct (test_setup fuel (true :: true :: rest) m Hav)
    as (l & m0 & m1 & L & c0 & c1 & c2 & c3 & c4 & c5 & c6 & c7 & c8 & c9
        & Hloc & Hinit & Hl & Hb & Hstr & Hav1 & Ho1).
  destruct (built_insert_before pick pick_fresh l m m1 L [c0; c1; c2; c3] c4 _
              "zzzz"%string rest Hb Hav1)
    as (m2 & L2 & cy & Hop & Hb2 & Hs & Hav2 & Ho2).
  destruct (test_finish fuel "test_insert_before_middle" 0 (passed "test_insert_before_middle") l m m2 L2 _
              (assert_int_equal_same 0 "test_insert_before_middle") Hl Hb2)
    as (m' & Hfin & Hclean); [congruence|cbn; lia|].
  strings Hstr. revert Hclean. known_strings. rewrite Hav2. intros Hclean.
  exists m'. split; [|exact Hclean].
  unfold test_insert_before_middle.
  erewrite bind_eq by exact Hloc. erewrite bind_eq by exact Hinit.
  erewrite bind_eq by exact (fifth_node_run _ _ _ _ _ _ _ _ _ _ Hb).
  erewrite bind_eq by exact Hop. exact Hfin.
Qed.

Lemma test_insert_before_last_runs fuel :
  (11 ≤ fuel)%nat →
  runs (test_insert_before_last pick junk fuel) tt 22 []
    (list_printed ["ABC0"; "ABC1"; "ABC2"; "ABC3"; "ABC4"; "ABC5"; "ABC6"; "ABC7";
                   "ABC8"; "zzzz"; "ABC9"]%string
     ++ [passed "test_insert_before_last"]).
Proof.
  intros Hfuel m rest Hav.
  destruct (test_setup fuel (true :: true :: rest) m Hav)
    as (l & m0 & m1 & L & c0 & c1 & c2 & c3 & c4 & c5 & c6 & c7 & c8 & c9
        & Hloc & Hinit & Hl & Hb & Hstr & Hav1 & Ho1).
  destruct (built_insert_before pick pick_fresh l m m1 L [c0; c1; c2; c3; c4; c5; c6; c7; c8] c9 _
              "zzzz"%string rest Hb Hav1)
    as (m2 & L2 & cy & Hop & Hb2 & Hs & Hav2 & Ho2).
  destruct (test_finish fuel "test_insert_before_last" 0 (passed "test_insert_before_last") l m m2 L2 _
              (assert_int_equal_same 0 "test_insert_before_last") Hl Hb2)
    as (m' & Hfin & Hclean); [congruence|cbn; lia|].
  strings Hstr. revert Hclean. known_strings. rewrite Hav2. intros Hclean.
  exists m'. split; [|exact Hclean].
  unfold test_insert_before_last.
  erewrite bind_eq by exact Hloc. erewrite bind_eq by exact Hinit.
  rewrite bind_assoc. erewrite bind_eq by exact (built_last _ _ _ _ _ Hb).
  erewrite bind_eq by exact Hop. exact Hfin.
Qed.

Lemma test_insert_front_success_runs fuel :
  (11 ≤ fuel)%nat →
  runs (test_insert_front_success pick junk fuel) tt 22 []
    (list_printed ["zzzz"; "ABC0"; "ABC1"; "ABC2"; "ABC3"; "ABC4"; "ABC5"; "ABC6";
                   "ABC7"; "ABC8"; "ABC9"]%string
     ++ [passed "test_insert_front_success"]).
Proof.
  intros Hfuel m rest Hav.
  destruct (test_setup fuel (true :: true :: rest) m Hav)
    as (l & m0 & m1 & L & c0 & c1 & c2 & c3 & c4 & c5 & c6 & c7 & c8 & c9
        & Hloc & Hinit & Hl & Hb & Hstr & Hav1 & Ho1).
  destruct (built_insert_front pick pick_fresh l m m1 L _ "zzzz"%string rest Hb Hav1)
    as (m2 & L2 & cy & Hop & Hb2 & Hs & Hav2 & Ho2).
  destruct (test_finish fuel "test_insert_front_success" 0 (passed "test_insert_front_success") l m m2 L2 _
              (assert_int_equal_same 0 "test_insert_front_success") Hl Hb2)
    as (m' & Hfin & Hclean); [congruence|cbn; lia|].
  strings Hstr. revert Hclean. known_strings. rewrite Hav2. intros Hclean.
  exists m'. split; [|exact Hclean].
  unfold test_insert_front_success.
  erewrite bind_eq by exact Hloc. erewrite bind_eq by exact Hinit.
  erewrite bind_eq by exact Hop. exact Hfin.
Qed.

Lemma test_insert_end_success_runs fuel :
  (11 ≤ fuel)%nat →
  runs (test_insert_end_success pick junk fuel) tt 22 []
    (list_printed ["ABC0"; "ABC1"; "ABC2"; "ABC3"; "ABC4"; "ABC5"; "ABC6"; "ABC7";
                   "ABC8"; "ABC9"; "zzzz"]%string
     ++ [passed "test_insert_end_success"]).
Proof.
  intros Hfuel m rest Hav.
  destruct (test_setup fuel (true :: true :: rest) m Hav)
    as (l & m0 & m1 & L & c0 & c1 & c2 & c3 & c4 & c5 & c6 & c7 & c8 & c9
        & Hloc & Hinit & Hl & Hb & Hstr & Hav1 & Ho1).
  destruct (built_insert_end pick pick_fresh l m m1 L _ "zzzz"%string rest Hb Hav1)
    as (m2 & L2 & cy & Hop & Hb2 & Hs & Hav2 & Ho2).
  destruct (test_finish fuel "test_insert_end_success" 0 (passed "test_insert_end_success") l m m2 L2 _
              (assert_int_equal_same 0 "test_insert_end_success") Hl Hb2)
    as (m' & Hfin & Hclean); [congruence|cbn; lia|].
  strings Hstr. revert Hclean. known_strings. rewrite Hav2. intros Hclean.
  exists m'. split; [|exact Hclean].
  unfold test_insert_end_success.
  erewrite bind_eq by exact Hloc. erewrite bind_eq by exact Hinit.
  erewrite bind_eq by exact Hop. exact Hfin.
Qed.

Lemma test_remove_node_head_runs fuel :
  (9 ≤ fuel)%nat →
  runs (test_remove_node_head pick junk fuel) tt 20 []
    (list_printed ["ABC1"; "ABC2"; "ABC3"; "ABC4"; "ABC5"; "ABC6"; "ABC7"; "ABC8";
                   "ABC9"]%string
     ++ [passed "test_remove_node_head"]).
Proof.
  intros Hfuel m rest Hav.
  destruct (test_setup fuel (rest) m Hav)
    as (l & m0 & m1 & L & c0 & c1 & c2 & c3 & c4 & c5 & c6 & c7 & c8 & c9
        & Hloc & Hinit & Hl & Hb & Hstr & Hav1 & Ho1).
  destruct (built_remove l m m1 L [] c0 _ Hb)
    as (m2 & L2 & Hop & Hb2 & Hav2 & Ho2).
  destruct (test_finish fuel "test_remove_node_head" 0 (passed "test_remove_node_head") l m m2 L2 _
              (assert_int_equal_same 0 "test_remove_node_head") Hl Hb2)
    as (m' & Hfin & Hclean); [congruence|cbn; lia|].
  strings Hstr. revert Hclean. known_strings. rewrite Hav2, Hav1. intros Hclean.
  exists m'. split; [|exact Hclean].
  unfold test_remove_node_head.
  erewrite bind_eq by exact Hloc. erewrite bind_eq by exact Hinit.
  rewrite bind_assoc. erewrite bind_eq by exact (built_head _ _ _ _ _ Hb).
  erewrite bind_eq by exact Hop. exact Hfin.
Qed.

Lemma test_remove_node_middle_runs fuel :
  (9 ≤ fuel)%nat →
  runs (test_remove_node_middle pick junk fuel) tt 20 []
    (list_printed ["ABC0"; "ABC1"; "ABC2"; "ABC3"; "ABC5"; "ABC6"; "ABC7"; "ABC8";
                   "ABC9"]%string
     ++ [passed "test_remove_node_middle"]).
Proof.
  intros Hfuel m rest Hav.
  destruct (test_setup fuel (rest) m Hav)
    as (l & m0 & m1 & L & c0 & c1 & c2 & c3 & c4 & c5 & c6 & c7 & c8 & c9
        & Hloc & Hinit & Hl & Hb & Hstr & Hav1 & Ho1).
  destruct (built_remove l m m1 L [c0; c1; c2; c3] c4 _ Hb)
    as (m2 & L2 & Hop & Hb2 & Hav2 & Ho2).
  destruct (test_finish fuel "test_remove_node_middle" 0 (passed "test_remove_node_middle") l m m2 L2 _
              (assert_int_equal_same 0 "test_remove_node_middle") Hl Hb2)
    as (m' & Hfin & Hclean); [congruence|cbn; lia|].
  strings Hstr. revert Hclean. known_strings. rewrite Hav2, Hav1. intros Hclean.
  exists m'. split; [|exact Hclean].
  unfold test_remove_node_middle.
  erewrite bind_eq by exact Hloc. erewrite bind_eq by exact Hinit.
  erewrite bind_eq by exact (fifth_node_run _ _ _ _ _ _ _ _ _ _ Hb).
  erewrite bind_eq by exact Hop. exact Hfin.
Qed.

Lemma test_remove_node_last_runs fuel :
  (9 ≤ fuel)%nat →
  runs (test_remove_node_last pick junk fuel) tt 20 []
    (list_printed ["ABC0"; "ABC1"; "ABC2"; "ABC3"; "ABC4"; "ABC5"; "ABC6"; "ABC7";
                   "ABC8"]%string
     ++ [passed "test_remove_node_last"]).
Proof.
  intros Hfuel m rest Hav.
  destruct (test_setup fuel (rest) m Hav)
    as (l & m0 & m1 & L & c0 & c1 & c2 & c3 & c4 & c5 & c6 & c7 & c8 & c9
        & Hloc & Hinit & Hl & Hb & Hstr & Hav1 & Ho1).
  destruct (built_remove l m m1 L [c0; c1; c2; c3; c4; c5; c6; c7; c8] c9 _ Hb)
    as (m2 & L2 & Hop & Hb2 & Hav2 & Ho2).
  destruct (test_finish fuel "test_remove_node_last" 0 (passed "test_remove_node_last") l m m2 L2 _
              (assert_int_equal_same 0 "test_remove_node_last") Hl Hb2)
    as (m' & Hfin & Hclean); [congruence|cbn; lia|].
  strings Hstr. revert Hclean. known_strings. rewrite Hav2, Hav1. intros Hclean.
  exists m'. split; [|exact Hclean].
  unfold test_remove_node_last.
  erewrite bind_eq by exact Hloc. erewrite bind_eq by exact Hinit.
  rewrite bind_assoc. erewrite bind_eq by exact (built_last _ _ _ _ _ Hb).
  erewrite bind_eq by exact Hop. exact Hfin.
Qed.

Lemma assert_node_ptr_equal_same p name m :
  assert_node_ptr_equal show_ptr p p name m =
  Done tt (upd_stdout (fun out => out ++ [passed name]) m).
Proof. unfold assert_node_ptr_equal. by rewrite bool_decide_eq_true_2. Qed.

Lemma built_puts l m m1 L cs f :
  built l m m1 L cs → built l m (upd_stdout f m1) L cs.
Proof. intros [HL Hlist Hn Hc Hnew Hl He]. split; try done. by apply (is_list_same m1). Qed.

(** The last statements of a test of [find]. *)
Lemma test_finish_find fuel l m m2 L2 cs2 out :
  lists m !! l = None →
  built l m m2 L2 cs2 →
  stdout m2 = stdout m ++ out →
  (length cs2 ≤ fuel)%nat →
  ∃ m',
    (dealloc_if_zero fuel 0 (Some l) >> end_local_list (Some l)) m2 = Done tt m' ∧
    clean_run m m' (avail m2) [] out.
Proof.
  intros Hl Hb Ho Hfuel.
  destruct (built_dealloc fuel l m m2 L2 cs2 Hb Hfuel)
    as (m3 & Hde & Hn3 & Hc3 & Hl3 & Hav3 & Ho3 & He3).
  destruct (end_local_list_clean l m m3 (avail m2) [] out Hl) as (m' & Hend & Hclean);
    try done.
  - intros l' Hl'. rewrite Hl3. by apply (bt_lists _ _ _ _ _ Hb).
  - by rewrite app_nil_r.
  - congruence.
  - exists m'. split; [|done]. unfold dealloc_if_zero. cbn [Z.eqb].
    by erewrite bind_eq by exact Hde.
Qed.

Lemma test_init_list_null_data_runs fuel :
  runs (test_init_list_null_data pick junk fuel) tt 0
    ["list_lib error: Function received null pointer argument."%string]
    [passed "test_init_list_null_data"].
Proof.
  intros m rest Hav. destruct (local_list_run m) as (l & Hloc & Hl).
  eexists. split.
  - unfold test_init_list_null_data. erewrite bind_eq by exact Hloc. reflexivity.
  - split; fields; try done.
    by rewrite delete_insert_eq, delete_id.
Qed.

Lemma test_init_list_negative_data_len_runs fuel :
  runs (test_init_list_negative_data_len pick junk fuel) tt 0
    ["list_lib error: Tried to initialize something with negative length."%string]
    [passed "test_init_list_negative_data_len"].
Proof.
  intros m rest Hav. destruct (local_list_run m) as (l & Hloc & Hl).
  eexists. split.
  - unfold test_init_list_negative_data_len. erewrite bind_eq by exact Hloc. reflexivity.
  - split; fields; try done.
    by rewrite delete_insert_eq, delete_id.
Qed.

Lemma test_init_list_success_runs fuel :
  (10 ≤ fuel)%nat →
  runs (test_init_list_success pick junk fuel) tt 20 [] [passed "test_init_list_success"].
Proof.
  intros Hfuel m rest Hav.
  destruct (test_setup fuel rest m Hav)
    as (l & m0 & m1 & L & c0 & c1 & c2 & c3 & c4 & c5 & c6 & c7 & c8 & c9
        & Hloc & Hinit & Hl & Hb & Hstr & Hav1 & Ho1).
  destruct (built_dealloc fuel l m m1 L _ Hb)
    as (m2 & Hde & Hn2 & Hc2 & Hl2 & Hav2 & Ho2 & He2); [cbn; lia|].
  destruct (end_local_list_clean l m
              (upd_stdout (fun out => out ++ [passed "test_init_list_success"]) m2)
              rest [] [passed "test_init_list_success"] Hl)
    as (m' & Hend & Hclean); fields; try done.
  - intros l' Hl'. rewrite Hl2. by apply (bt_lists _ _ _ _ _ Hb).
  - congruence.
  - by rewrite app_nil_r.
  - congruence.
  - exists m'. split; [|done]. unfold test_init_list_success.
    erewrite bind_eq by exact Hloc. erewrite bind_eq by exact Hinit.
    unfold dealloc_if_zero. cbn [Z.eqb]. erewrite bind_eq by exact Hde. exact Hend.
Qed.

Ltac go H := rewrite ?bind_assoc; erewrite bind_eq by exact H; cbn beta.

Lemma test_find_head_runs fuel :
  (10 ≤ fuel)%nat →
  runs (test_find_head pick junk show_ptr strcmp fuel) tt 20 []
    [passed "test_find_head1"; passed "test_find_head2"; passed "test_find_head3"].
Proof.
  intros Hfuel m rest Hav.
  destruct (test_setup fuel rest m Hav)
    as (l & m0 & m1 & L & c0 & c1 & c2 & c3 & c4 & c5 & c6 & c7 & c8 & c9
        & Hloc & Hinit & Hl & Hb & Hstr & Hav1 & Ho1).
  strings Hstr.
  assert (find fuel (Some l) (Some "ABC0"%string) m1 = Done (Some (addr c0)) m1) as Hfind.
  { rewrite (built_find fuel l m m1 L _ "ABC0"%string Hb) by (cbn; lia).
    cbn [first_match]. by rewrite E0. }
  set (m2 := upd_stdout (fun out => out ++ [passed "test_find_head1"]) m1).
  set (m3 := upd_stdout (fun out => out ++ [passed "test_find_head2"]) m2).
  set (m4 := upd_stdout (fun out => out ++ [passed "test_find_head3"]) m3).
  pose proof (built_puts _ _ _ _ _ (fun out => out ++ [passed "test_find_head1"]) Hb) as Hb2.
  pose proof (built_puts _ _ _ _ _ (fun out => out ++ [passed "test_find_head2"]) Hb2) as Hb3.
  pose proof (built_puts _ _ _ _ _ (fun out => out ++ [passed "test_find_head3"]) Hb3) as Hb4.
  fold m2 in Hb2. fold m3 in Hb3. fold m4 in Hb4.
  destruct (test_finish_find fuel l m m4 L _
              [passed "test_find_head1"; passed "test_find_head2"; passed "test_find_head3"]
              Hl Hb4) as (m' & Hfin & Hclean).
  { subst m4 m3 m2. fields. rewrite Ho1, <- !app_assoc. done. }
  { cbn. lia. }
  exists m'. split; [|by rewrite <- Hav1].
  unfold test_find_head.
  erewrite bind_eq by exact Hloc. erewrite bind_eq by exact Hinit.
  erewrite bind_eq by exact Hfind.
  go (built_prev _ _ _ _ [] c0 _ Hb).
  erewrite bind_eq by apply assert_node_ptr_equal_same. fold m2.
  go (built_head _ _ _ _ _ Hb2).
  go (built_next _ _ _ _ [] c0 _ Hb2).
  go (built_next _ _ _ _ [] c0 _ Hb2).
  erewrite bind_eq by apply assert_node_ptr_equal_same. fold m3.
  go (proj1 (built_data _ _ _ _ [] c0 _ Hb3)).
  unfold strcmp_block.
  go (proj2 (built_data _ _ _ _ [] c0 _ Hb3)).
  rewrite bind_ret, E0, strcmp_refl.
  erewrite bind_eq by apply assert_int_equal_same. fold m4.
  exact Hfin.
Qed.

Lemma test_find_middle_runs fuel :
  (10 ≤ fuel)%nat →
  runs (test_find_middle pick junk show_ptr strcmp fuel) tt 20 []
    [passed "test_find_middle1"; passed "test_find_middle2"; passed "test_find_middle3"].
Proof.
  intros Hfuel m rest Hav.
  destruct (test_setup fuel rest m Hav)
    as (l & m0 & m1 & L & c0 & c1 & c2 & c3 & c4 & c5 & c6 & c7 & c8 & c9
        & Hloc & Hinit & Hl & Hb & Hstr & Hav1 & Ho1).
  strings Hstr.
  assert (find fuel (Some l) (Some "ABC4"%string) m1 = Done (Some (addr c4)) m1) as Hfind.
  { rewrite (built_find fuel l m m1 L _ "ABC4"%string Hb) by (cbn; lia).
    cbn [first_match]. by rewrite E0, E1, E2, E3, E4. }
  set (m2 := upd_stdout (fun out => out ++ [passed "test_find_middle1"]) m1).
  set (m3 := upd_stdout (fun out => out ++ [passed "test_find_middle2"]) m2).
  set (m4 := upd_stdout (fun out => out ++ [passed "test_find_middle3"]) m3).
  pose proof (built_puts _ _ _ _ _ (fun out => out ++ [passed "test_find_middle1"]) Hb) as Hb2.
  pose proof (built_puts _ _ _ _ _ (fun out => out ++ [passed "test_find_middle2"]) Hb2) as Hb3.
  pose proof (built_puts _ _ _ _ _ (fun out => out ++ [passed "test_find_middle3"]) Hb3) as Hb4.
  fold m2 in Hb2. fold m3 in Hb3. fold m4 in Hb4.
  destruct (test_finish_find fuel l m m4 L _
              [passed "test_find_middle1"; passed "test_find_middle2";
               passed "test_find_middle3"]
              Hl Hb4) as (m' & Hfin & Hclean).
  { subst m4 m3 m2. fields. rewrite Ho1, <- !app_assoc. done. }
  { cbn. lia. }
  exists m'. split; [|by rewrite <- Hav1].
  unfold test_find_middle.
  erewrite bind_eq by exact Hloc. erewrite bind_eq by exact Hinit.
  erewrite bind_eq by exact Hfind.
  erewrite bind_eq by exact (fifth_node_run _ _ _ _ _ _ _ _ _ _ Hb).
  go (built_prev _ _ _ _ [c0; c1; c2; c3] c4 _ Hb).
  go (built_prev _ _ _ _ [c0; c1; c2; c3] c4 _ Hb).
  erewrite bind_eq by apply assert_node_ptr_equal_same. fold m2.
  go (built_next _ _ _ _ [c0; c1; c2; c3] c4 _ Hb2).
  go (built_next _ _ _ _ [c0; c1; c2; c3] c4 _ Hb2).
  erewrite bind_eq by apply assert_node_ptr_equal_same. fold m3.
  go (proj1 (built_data _ _ _ _ [c0; c1; c2; c3] c4 _ Hb3)).
  unfold strcmp_block.
  go (proj2 (built_data _ _ _ _ [c0; c1; c2; c3] c4 _ Hb3)).
  rewrite bind_ret, E4, strcmp_refl.
  erewrite bind_eq by apply assert_int_equal_same. fold m4.
  exact Hfin.
Qed.

Lemma test_find_last_runs fuel :
  (10 ≤ fuel)%nat →
  runs (test_find_last pick junk show_ptr strcmp fuel) tt 20 []
    [passed "test_find_last1"; passed "test_find_last2"; passed "test_find_last3"].
Proof.
  intros Hfuel m rest Hav.
  destruct (test_setup fuel rest m Hav)
    as (l & m0 & m1 & L & c0 & c1 & c2 & c3 & c4 & c5 & c6 & c7 & c8 & c9
        & Hloc & Hinit & Hl & Hb & Hstr & Hav1 & Ho1).
  strings Hstr.
  assert (find fuel (Some l) (Some "ABC9"%string) m1 = Done (Some (addr c9)) m1) as Hfind.
  { rewrite (built_find fuel l m m1 L _ "ABC9"%string Hb) by (cbn; lia).
    cbn [first_match]. by rewrite E0, E1, E2, E3, E4, E5, E6, E7, E8, E9. }
  set (m2 := upd_stdout (fun out => out ++ [passed "test_find_last1"]) m1).
  set (m3 := upd_stdout (fun out => out ++ [passed "test_find_last2"]) m2).
  set (m4 := upd_stdout (fun out => out ++ [passed "test_find_last3"]) m3).
  pose proof (built_puts _ _ _ _ _ (fun out => out ++ [passed "test_find_last1"]) Hb) as Hb2.
  pose proof (built_puts _ _ _ _ _ (fun out => out ++ [passed "test_find_last2"]) Hb2) as Hb3.
  pose proof (built_puts _ _ _ _ _ (fun out => out ++ [passed "test_find_last3"]) Hb3) as Hb4.
  fold m2 in Hb2. fold m3 in Hb3. fold m4 in Hb4.
  destruct (test_finish_find fuel l m m4 L _
              [passed "test_find_last1"; passed "test_find_last2"; passed "test_find_last3"]
              Hl Hb4) as (m' & Hfin & Hclean).
  { subst m4 m3 m2. fields. rewrite Ho1, <- !app_assoc. done. }
  { cbn. lia. }
  exists m'. split; [|by rewrite <- Hav1].
  unfold test_find_last.
  erewrite bind_eq by exact Hloc. erewrite bind_eq by exact Hinit.
  erewrite bind_eq by exact Hfind.
  go (built_last _ _ _ _ _ Hb).
  go (built_prev _ _ _ _ [c0; c1; c2; c3; c4; c5; c6; c7; c8] c9 _ Hb).
  go (built_prev _ _ _ _ [c0; c1; c2; c3; c4; c5; c6; c7; c8] c9 _ Hb).
  erewrite bind_eq by apply assert_node_ptr_equal_same. fold m2.
  go (built_next _ _ _ _ [c0; c1; c2; c3; c4; c5; c6; c7; c8] c9 _ Hb2).
  erewrite bind_eq by apply assert_node_ptr_equal_same. fold m3.
  go (proj1 (built_data _ _ _ _ [c0; c1; c2; c3; c4; c5; c6; c7; c8] c9 _ Hb3)).
  unfold strcmp_block.
  go (proj2 (built_data _ _ _ _ [c0; c1; c2; c3; c4; c5; c6; c7; c8] c9 _ Hb3)).
  rewrite bind_ret, E9, strcmp_refl.
  erewrite bind_eq by apply assert_int_equal_same. fold m4.
  exact Hfin.
Qed.


Lemma bind_fault {A B} (c : M A) (k : A → M B) m : c m = Fault → bind c k m = Fault.
Proof. unfold bind. by intros ->. Qed.

(** The first two statements of a test when an allocation of
    [init_list] is refused. *)
Lemma test_setup_refused fuel j tl m :
  avail m = repeat true j ++ tl →
  (∀ tl', tl ≠ true :: tl') →
  (j < 20)%nat →
  (j / 2 ≤ fuel)%nat →
  ∃ l m0 m1 L1,
    local_list pick junk m = Done (Some l) m0 ∧
    init_list pick fuel (Some l) (Some TEST_DATA) DATA_LEN m0 = Done 0 m1 ∧
    nodes m1 = nodes m ∧ chars m1 = chars m ∧
    avail m1 = tail tl ∧ stdout m1 = stdout m ∧
    lists m1 !! l = Some L1 ∧
    (head L1 = None ↔ (j < 2)%nat) ∧
    (∀ a, head L1 = Some a → nodes m1 !! a = None).
Proof.
  intros Hav Htl Hj Hfuel. destruct (local_list_run m) as (l & Hloc & Hl).
  set (m0 := upd_lists (insert l junk) m) in *.
  set (strs := ["ABC0"; "ABC1"; "ABC2"; "ABC3"; "ABC4"; "ABC5"; "ABC6"; "ABC7"; "ABC8"; "ABC9"]%string).
  destruct (init_list_rollback pick pick_fresh fuel l junk strs 10 j tl m0)
    as (m1 & L1 & Hrun & Hrest).
  - subst m0. fields. apply lookup_insert_eq.
  - cbn. lia.
  - change (Z.to_nat 10) with 10%nat. lia.
  - exact Hav.
  - exact Htl.
  - exact Hfuel.
  - by exists l, m0, m1, L1.
Qed.

Lemma runs_ret {A} (a : A) : runs (ret a) a 0 [] [].
Proof.
  intros m rest Hav. exists m. split; [done|]. split; try done; by rewrite app_nil_r.
Qed.

Lemma runs_eq {A} (t : M A) a n n' e e' o o' :
  runs t a n e o → n = n' → e = e' → o = o' → runs t a n' e' o'.
Proof. by intros H <- <- <-. Qed.


(** X20: [test_init_list_success], when the 20 allocations of its list
    are granted, prints [PASS] and releases the ten nodes and the ten
    blocks it has built. *)
Theorem test_init_list_success_passes fuel :
  (10 ≤ fuel)%nat →
  runs (test_init_list_success pick junk fuel) tt 20 [] [passed "test_init_list_success"].
Proof. apply test_init_list_success_runs. Qed.

(** X21: [test_init_list_success] prints [PASS] also when [init_list]
    has failed: when the first or the second allocation is refused,
    [init_list] returns [ALLOC_FAIL], which is 0, the test takes it for
    a success, and its line is [PASS] although no list was built. *)
Theorem test_init_list_success_false_pass fuel j tl m :
  avail m = repeat true j ++ tl →
  (∀ tl', tl ≠ true :: tl') →
  (j < 2)%nat →
  ∃ m',
    test_init_list_success pick junk fuel m = Done tt m' ∧
    nodes m' = nodes m ∧ chars m' = chars m ∧
    avail m' = tail tl ∧
    stdout m' = stdout m ++ [passed "test_init_list_success"].
Proof.
  intros Hav Htl Hj.
  destruct (test_setup_refused fuel j tl m Hav Htl)
    as (l & m0 & m1 & L1 & Hloc & Hinit & Hn & Hc & Hav1 & Ho & HL1 & Hhead & _).
  { lia. }
  { rewrite Nat.div_small by lia. lia. }
  assert (head L1 = None) as Hh by (apply Hhead; lia).
  eexists. split.
  - unfold test_init_list_success.
    erewrite bind_eq by exact Hloc. erewrite bind_eq by exact Hinit.
    unfold dealloc_if_zero, dealloc_list. cbn [Z.eqb is_null].
    rewrite bind_assoc. erewrite bind_eq by (apply get_head_eq; exact HL1).
    rewrite Hh. replace (dealloc_loop fuel None) with (ret tt) by (by destruct fuel).
    rewrite bind_ret.
    erewrite bind_eq by apply assert_int_equal_same. reflexivity.
  - fields. rewrite Ho. done.
Qed.

(** X22: when [init_list] has built a node and a later allocation is
    refused, it releases what it has built, leaves the address of the
    released head in the list and returns 0; [test_init_list_success]
    then calls [dealloc_list] on that list, which reads the released
    node: the behaviour of the test is undefined. *)
Theorem test_init_list_success_faults fuel j tl m :
  avail m = repeat true j ++ tl →
  (∀ tl', tl ≠ true :: tl') →
  (2 ≤ j < 20)%nat →
  (j / 2 ≤ fuel)%nat →
  test_init_list_success pick junk fuel m = Fault.
Proof.
  intros Hav Htl Hj Hfuel.
  destruct (test_setup_refused fuel j tl m Hav Htl)
    as (l & m0 & m1 & L1 & Hloc & Hinit & Hn & Hc & Hav1 & Ho & HL1 & Hhead & Hdang);
    [lia|done|].
  destruct (head L1) as [a|] eqn:Hh; [|pose proof (proj1 Hhead eq_refl); lia].
  assert (1 ≤ j / 2)%nat as Hq by (apply (Nat.div_le_lower_bound j 2 1); lia).
  destruct fuel as [|fuel]; [lia|].
  unfold test_init_list_success.
  erewrite bind_eq by exact Hloc. erewrite bind_eq by exact Hinit.
  apply bind_fault.
  unfold dealloc_if_zero, dealloc_list. cbn [Z.eqb is_null].
  erewrite bind_eq by (apply get_head_eq; exact HL1).
  rewrite Hh. cbn [dealloc_loop].
  unfold bind at 1, get_next, bind. by rewrite load_node_fault by (by apply Hdang).
Qed.

(** X23: the three tests of [insert_after], when the 22 allocations each
    asks for are granted, print the list with the new string right after
    the head, after the fifth node and after the last node, then
    [PASS], and release all they have built. *)
Theorem test_insert_after_pass fuel :
  (11 ≤ fuel)%nat →
  runs (test_insert_after_head pick junk fuel) tt 22 []
    (list_printed ["ABC0"; "zzzz"; "ABC1"; "ABC2"; "ABC3"; "ABC4"; "ABC5"; "ABC6";
                   "ABC7"; "ABC8"; "ABC9"]%string
     ++ [passed "test_insert_after_head"]) ∧
  runs (test_insert_after_middle pick junk fuel) tt 22 []
    (list_printed ["ABC0"; "ABC1"; "ABC2"; "ABC3"; "ABC4"; "zzzz"; "ABC5"; "ABC6";
                   "ABC7"; "ABC8"; "ABC9"]%string
     ++ [passed "test_insert_after_middle"]) ∧
  runs (test_insert_after_last pick junk fuel) tt 22 []
    (list_printed ["ABC0"; "ABC1"; "ABC2"; "ABC3"; "ABC4"; "ABC5"; "ABC6"; "ABC7";
                   "ABC8"; "ABC9"; "zzzz"]%string
     ++ [passed "test_insert_after_last"]).
Proof.
  intros Hfuel. split; [|split].
  - by apply test_insert_after_head_runs.
  - by apply test_insert_after_middle_runs.
  - by apply test_insert_after_last_runs.
Qed.

(** X24: the three tests of [insert_before], when the 22 allocations
    each asks for are granted, print the list with the new string right
    before the head, before the fifth node and before the last node,
    then [PASS], and release all they have built. *)
Theorem test_insert_before_pass fuel :
  (11 ≤ fuel)%nat →
  runs (test_insert_before_head pick junk fuel) tt 22 []
    (list_printed ["zzzz"; "ABC0"; "ABC1"; "ABC2"; "ABC3"; "ABC4"; "ABC5"; "ABC6";
                   "ABC7"; "ABC8"; "ABC9"]%string
     ++ [passed "test_insert_before_head"]) ∧
  runs (test_insert_before_middle pick junk fuel) tt 22 []
    (list_printed ["ABC0"; "ABC1"; "ABC2"; "ABC3"; "zzzz"; "ABC4"; "ABC5"; "ABC6";
                   "ABC7"; "ABC8"; "ABC9"]%string
     ++ [passed "test_insert_before_middle"]) ∧
  runs (test_insert_before_last pick junk fuel) tt 22 []
    (list_printed ["ABC0"; "ABC1"; "ABC2"; "ABC3"; "ABC4"; "ABC5"; "ABC6"; "ABC7";
                   "ABC8"; "zzzz"; "ABC9"]%string
     ++ [passed "test_insert_before_last"]).
Proof.
  intros Hfuel. split; [|split].
  - by apply test_insert_before_head_runs.
  - by apply test_insert_before_middle_runs.
  - by apply test_insert_before_last_runs.
Qed.

(** X25: the tests of [insert_front] and [insert_end], when their 22
    allocations are granted, print the list with the new string first,
    respectively last, then [PASS], and release all they have built. *)
Theorem test_insert_front_end_pass fuel :
  (11 ≤ fuel)%nat →
  runs (test_insert_front_success pick junk fuel) tt 22 []
    (list_printed ["zzzz"; "ABC0"; "ABC1"; "ABC2"; "ABC3"; "ABC4"; "ABC5"; "ABC6";
                   "ABC7"; "ABC8"; "ABC9"]%string
     ++ [passed "test_insert_front_success"]) ∧
  runs (test_insert_end_success pick junk fuel) tt 22 []
    (list_printed ["ABC0"; "ABC1"; "ABC2"; "ABC3"; "ABC4"; "ABC5"; "ABC6"; "ABC7";
                   "ABC8"; "ABC9"; "zzzz"]%string
     ++ [passed "test_insert_end_success"]).
Proof.
  intros Hfuel. split.
  - by apply test_insert_front_success_runs.
  - by apply test_insert_end_success_runs.
Qed.

(** X26: the three tests of [remove_node], when the 20 allocations of
    the list are granted, print the list without its first, its fifth
    and its last string, then [PASS], and release the nine nodes that
    are left (the tenth was released by [remove_node]). *)
Theorem test_remove_node_pass fuel :
  (9 ≤ fuel)%nat →
  runs (test_remove_node_head pick junk fuel) tt 20 []
    (list_printed ["ABC1"; "ABC2"; "ABC3"; "ABC4"; "ABC5"; "ABC6"; "ABC7"; "ABC8";
                   "ABC9"]%string
     ++ [passed "test_remove_node_head"]) ∧
  runs (test_remove_node_middle pick junk fuel) tt 20 []
    (list_printed ["ABC0"; "ABC1"; "ABC2"; "ABC3"; "ABC5"; "ABC6"; "ABC7"; "ABC8";
                   "ABC9"]%string
     ++ [passed "test_remove_node_middle"]) ∧
  runs (test_remove_node_last pick junk fuel) tt 20 []
    (list_printed ["ABC0"; "ABC1"; "ABC2"; "ABC3"; "ABC4"; "ABC5"; "ABC6"; "ABC7";
                   "ABC8"]%string
     ++ [passed "test_remove_node_last"]).
Proof.
  intros Hfuel. split; [|split].
  - by apply test_remove_node_head_runs.
  - by apply test_remove_node_middle_runs.
  - by apply test_remove_node_last_runs.
Qed.

(** X27: the three tests of [find], when the 20 allocations of the list
    are granted, print [PASS] for each of their three assertions (the
    node found has the links and the string of the first, the fifth and
    the last node), whatever [%p] prints and whatever [strcmp] returns
    on different strings, and release all they have built. *)
Theorem test_find_pass fuel :
  (10 ≤ fuel)%nat →
  runs (test_find_head pick junk show_ptr strcmp fuel) tt 20 []
    [passed "test_find_head1"; passed "test_find_head2"; passed "test_find_head3"] ∧
  runs (test_find_middle pick junk show_ptr strcmp fuel) tt 20 []
    [passed "test_find_middle1"; passed "test_find_middle2"; passed "test_find_middle3"] ∧
  runs (test_find_last pick junk show_ptr strcmp fuel) tt 20 []
    [passed "test_find_last1"; passed "test_find_last2"; passed "test_find_last3"].
Proof.
  intros Hfuel. split; [|split].
  - by apply test_find_head_runs.
  - by apply test_find_middle_runs.
  - by apply test_find_last_runs.
Qed.

(** A list built on a state is built on that state with more text on
    its error stream. *)
Lemma built_base l m m1 m1' L cs f :
  built l m m1 L cs →
  nodes m1' = nodes m1 → chars m1' = chars m1 → lists m1' = lists m1 →
  stderr m1' = f (stderr m) →
  built l (upd_stderr f m) m1' L cs.
Proof.
  intros [HL Hlist Hn Hc Hnew Hl He] Hn' Hc' Hl' He'. split; fields.
  - by rewrite Hl'.
  - by apply (is_list_same m1).
  - intros a Ha. rewrite Hn'. by apply Hn.
  - intros b Hb. rewrite Hc'. by apply Hc.
  - done.
  - intros l' Hne. rewrite Hl'. by apply Hl.
  - done.
Qed.

Lemma clean_run_base m m' rest f err out :
  (∀ e, f e = e ++ err) →
  clean_run (upd_stderr f m) m' rest [] out → clean_run m m' rest err out.
Proof.
  intros Hf [Hn Hc Hl Ha He Ho]. revert Hn Hc Hl Ha He Ho. fields.
  intros Hn Hc Hl Ha He Ho. split; try done. by rewrite He, app_nil_r, Hf.
Qed.

(** X28: [test_insert_front_success] reports a refused allocation of
    the new node: when the 20 allocations of the list are granted and
    [make_node] is refused its first or its second allocation,
    [make_node] returns [NULL], [insert_front] rejects it with
    [NULL_PTR], and the test prints the list as it was built, then
    [FAIL: expected 0, got 2], and releases all it has built. *)
Theorem test_insert_front_reports_refusal fuel j tl m :
  avail m = repeat true (20 + j) ++ tl →
  (∀ tl', tl ≠ true :: tl') →
  (j < 2)%nat →
  (10 ≤ fuel)%nat →
  ∃ m',
    test_insert_front_success pick junk fuel m = Done tt m' ∧
    clean_run m m' (tail tl)
      ["list_lib error: Dynamic memory allocation failed.";
       "list_lib error: Function received null pointer argument."]%string
      (list_printed ["ABC0"; "ABC1"; "ABC2"; "ABC3"; "ABC4"; "ABC5"; "ABC6"; "ABC7";
                     "ABC8"; "ABC9"]%string
       ++ ["test_insert_front_success: FAIL: expected 0, got 2"%string]).
Proof.
  intros Hav Htl Hj Hfuel. rewrite repeat_app, <- app_assoc in Hav.
  destruct (test_setup fuel (repeat true j ++ tl) m Hav)
    as (l & m0 & m1 & L & c0 & c1 & c2 & c3 & c4 & c5 & c6 & c7 & c8 & c9
        & Hloc & Hinit & Hl & Hb & Hstr & Hav1 & Ho1).
  destruct (make_node_fails_frame pick pick_fresh "zzzz"%string m1 j tl Hav1 Hj Htl)
    as (m1' & Hmk & Hn & Hc & Hls & Hav' & He' & Ho').
  set (f := fun e : list string =>
              (e ++ ["list_lib error: Dynamic memory allocation failed."%string])
                ++ ["list_lib error: Function received null pointer argument."%string]).
  set (m2 := upd_stderr
               (fun e => e ++ ["list_lib error: Function received null pointer argument."%string])
               m1').
  assert (built l (upd_stderr f m) m2 L [c0; c1; c2; c3; c4; c5; c6; c7; c8; c9]) as Hb2.
  { apply (built_base l m m1); subst m2; fields; try done.
    by rewrite He', (bt_stderr _ _ _ _ _ Hb). }
  destruct (test_finish fuel "test_insert_front_success" 2
              "test_insert_front_success: FAIL: expected 0, got 2"%string
              l (upd_stderr f m) m2 L _ (fun mx => eq_refl) Hl Hb2)
    as (m' & Hfin & Hclean).
  { subst m2. fields. congruence. }
  { cbn. lia. }
  strings Hstr. revert Hclean. known_strings. subst m2. fields. rewrite Hav'.
  intros Hclean.
  exists m'. split.
  - unfold test_insert_front_success.
    erewrite bind_eq by exact Hloc. erewrite bind_eq by exact Hinit.
    rewrite bind_assoc. erewrite bind_eq by exact Hmk.
    erewrite bind_eq by reflexivity. exact Hfin.
  - apply (clean_run_base _ _ _ f); [|exact Hclean].
    intros e. unfold f. by rewrite <- app_assoc.
Qed.

(** X29: [main], when the 316 allocations of its seventeen tests are
    granted, returns 0 and leaves no node, no block and no list
    structure behind; the error stream receives the messages of the two
    argument checks that are tested, and the standard output the
    heading (on a terminal), the eleven lists printed and a line [PASS]
    for each of the twenty-three assertions. *)
Theorem main_passes tty fuel :
  (11 ≤ fuel)%nat →
  runs (main pick junk show_ptr strcmp tty fuel) 0 316
    ["list_lib error: Function received null pointer argument.";
     "list_lib error: Tried to initialize something with negative length."]%string
    ((if tty then
        ["==== Running list_lib test suite... suggest redirecting stderr to /dev/null during tests ===="%string;
         EmptyString]
      else [])
     ++         [passed "test_init_list_null_data"; passed "test_init_list_negative_data_len";
         passed "test_init_list_success"]
        ++ list_printed ["ABC0"; "zzzz"; "ABC1"; "ABC2"; "ABC3"; "ABC4"; "ABC5"; "ABC6";
                      "ABC7"; "ABC8"; "ABC9"]%string
        ++ [passed "test_insert_after_head"]
        ++ list_printed ["ABC0"; "ABC1"; "ABC2"; "ABC3"; "ABC4"; "zzzz"; "ABC5"; "ABC6";
                      "ABC7"; "ABC8"; "ABC9"]%string
        ++ [passed "test_insert_after_middle"]
        ++ list_printed ["ABC0"; "ABC1"; "ABC2"; "ABC3"; "ABC4"; "ABC5"; "ABC6"; "ABC7";
                      "ABC8"; "ABC9"; "zzzz"]%string
        ++ [passed "test_insert_after_last"]
        ++ list_printed ["zzzz"; "ABC0"; "ABC1"; "ABC2"; "ABC3"; "ABC4"; "ABC5"; "ABC6";
                      "ABC7"; "ABC8"; "ABC9"]%string
        ++ [passed "test_insert_before_head"]
        ++ list_printed ["ABC0"; "ABC1"; "ABC2"; "ABC3"; "zzzz"; "ABC4"; "ABC5"; "ABC6";
                      "ABC7"; "ABC8"; "ABC9"]%string
        ++ [passed "test_insert_before_middle"]
        ++ list_printed ["ABC0"; "ABC1"; "ABC2"; "ABC3"; "ABC4"; "ABC5"; "ABC6"; "ABC7";
                      "ABC8"; "zzzz"; "ABC9"]%string
        ++ [passed "test_insert_before_last"]
        ++ list_printed ["zzzz"; "ABC0"; "ABC1"; "ABC2"; "ABC3"; "ABC4"; "ABC5"; "ABC6";
                      "ABC7"; "ABC8"; "ABC9"]%string
        ++ [passed "test_insert_front_success"]
        ++ list_printed ["ABC0"; "ABC1"; "ABC2"; "ABC3"; "ABC4"; "ABC5"; "ABC6"; "ABC7";
                      "ABC8"; "ABC9"; "zzzz"]%string
        ++ [passed "test_insert_end_success"]
        ++ list_printed ["ABC1"; "ABC2"; "ABC3"; "ABC4"; "ABC5"; "ABC6"; "ABC7"; "ABC8";
                      "ABC9"]%string
        ++ [passed "test_remove_node_head"]
        ++ list_printed ["ABC0"; "ABC1"; "ABC2"; "ABC3"; "ABC5"; "ABC6"; "ABC7"; "ABC8";
                      "ABC9"]%string
        ++ [passed "test_remove_node_middle"]
        ++ list_printed ["ABC0"; "ABC1"; "ABC2"; "ABC3"; "ABC4"; "ABC5"; "ABC6"; "ABC7";
                      "ABC8"]%string
        ++ [passed "test_remove_node_last"]
        ++ [passed "test_find_head1"; passed "test_find_head2"; passed "test_find_head3"]
        ++ [passed "test_find_middle1"; passed "test_find_middle2"; passed "test_find_middle3"]
        ++ [passed "test_find_last1"; passed "test_find_last2"; passed "test_find_last3"]).
Proof.
  intros Hfuel. unfold main.
  eapply runs_eq.
  - eapply (runs_seq _ _ tt 0 0 _ [] _ (if tty then [_; _] else [])).
    { intros m rest Hav. destruct tty.
      - eexists. split; [reflexivity|].
        split; fields; rewrite ?app_nil_r, <- ?app_assoc; done.
      - exists m. split; [done|]. split; try done; by rewrite app_nil_r. }
    eapply runs_seq; [apply test_init_list_null_data_runs|].
    eapply runs_seq; [apply test_init_list_negative_data_len_runs|].
    eapply runs_seq; [apply test_init_list_success_runs; lia|].
    eapply runs_seq; [apply test_insert_after_head_runs; lia|].
    eapply runs_seq; [apply test_insert_after_middle_runs; lia|].
    eapply runs_seq; [apply test_insert_after_last_runs; lia|].
    eapply runs_seq; [apply test_insert_before_head_runs; lia|].
    eapply runs_seq; [apply test_insert_before_middle_runs; lia|].
    eapply runs_seq; [apply test_insert_before_last_runs; lia|].
    eapply runs_seq; [apply test_insert_front_success_runs; lia|].
    eapply runs_seq; [apply test_insert_end_success_runs; lia|].
    eapply runs_seq; [apply test_remove_node_head_runs; lia|].
    eapply runs_seq; [apply test_remove_node_middle_runs; lia|].
    eapply runs_seq; [apply test_remove_node_last_runs; lia|].
    eapply runs_seq; [apply test_find_head_runs; lia|].
    eapply runs_seq; [apply test_find_middle_runs; lia|].
    eapply runs_seq; [apply test_find_last_runs; lia|].
    apply runs_ret.
  - reflexivity.
  - reflexivity.
  - destruct tty; reflexivity.
Qed.

End TestSuite.

Lemma strcmp_sign_refl s : strcmp_sign s s = 0.
Proof. unfold strcmp_sign. by rewrite String.eqb_refl. Qed.


Lemma test_init_list_success_passes_witness :
  ∃ m',
    test_init_list_success pick_least L_junk 10 (m_start 20) = Done tt m' ∧
    clean_run (m_start 20) m' [] [] [passed "test_init_list_success"].
Proof.
  apply (test_init_list_success_passes pick_least L_junk pick_least_fresh 10).
  - lia.
  - reflexivity.
Defined.

Lemma test_init_list_success_false_pass_witness :
  ∃ m',
    test_init_list_success pick_least L_junk 0
      (upd_avail (fun _ => [true; false; true]) (m_start 0)) = Done tt m' ∧
    nodes m' = nodes (m_start 0) ∧ chars m' = chars (m_start 0) ∧
    avail m' = tail [false; true] ∧
    stdout m' = stdout (m_start 0) ++ [passed "test_init_list_success"].
Proof.
  apply (test_init_list_success_false_pass pick_least L_junk pick_least_fresh 0 1
           [false; true] (upd_avail (fun _ => [true; false; true]) (m_start 0))).
  - reflexivity.
  - discriminate.
  - lia.
Defined.

Lemma test_init_list_success_faults_witness :
  test_init_list_success pick_least L_junk 1
    (upd_avail (fun _ => [true; true; true; false]) (m_start 0)) = Fault.
Proof.
  apply (test_init_list_success_faults pick_least L_junk pick_least_fresh 1 3 [false]).
  - reflexivity.
  - discriminate.
  - lia.
  - cbn. lia.
Defined.

Lemma test_insert_after_pass_witness :
  ∃ m',
    test_insert_after_middle pick_least L_junk 11 (m_start 22) = Done tt m' ∧
    clean_run (m_start 22) m' [] []
      (list_printed ["ABC0"; "ABC1"; "ABC2"; "ABC3"; "ABC4"; "zzzz"; "ABC5"; "ABC6";
                     "ABC7"; "ABC8"; "ABC9"]%string
       ++ [passed "test_insert_after_middle"]).
Proof.
  apply (proj1 (proj2 (test_insert_after_pass pick_least L_junk pick_least_fresh 11
                         ltac:(lia)))).
  reflexivity.
Defined.

Lemma test_insert_before_pass_witness :
  ∃ m',
    test_insert_before_head pick_least L_junk 11 (m_start 22) = Done tt m' ∧
    clean_run (m_start 22) m' [] []
      (list_printed ["zzzz"; "ABC0"; "ABC1"; "ABC2"; "ABC3"; "ABC4"; "ABC5"; "ABC6";
                     "ABC7"; "ABC8"; "ABC9"]%string
       ++ [passed "test_insert_before_head"]).
Proof.
  apply (proj1 (test_insert_before_pass pick_least L_junk pick_least_fresh 11 ltac:(lia))).
  reflexivity.
Defined.

Lemma test_insert_front_end_pass_witness :
  ∃ m',
    test_insert_end_success pick_least L_junk 11 (m_start 22) = Done tt m' ∧
    clean_run (m_start 22) m' [] []
      (list_printed ["ABC0"; "ABC1"; "ABC2"; "ABC3"; "ABC4"; "ABC5"; "ABC6"; "ABC7";
                     "ABC8"; "ABC9"; "zzzz"]%string
       ++ [passed "test_insert_end_success"]).
Proof.
  apply (proj2 (test_insert_front_end_pass pick_least L_junk pick_least_fresh 11 ltac:(lia))).
  reflexivity.
Defined.

Lemma test_remove_node_pass_witness :
  ∃ m',
    test_remove_node_last pick_least L_junk 11 (m_start 20) = Done tt m' ∧
    clean_run (m_start 20) m' [] []
      (list_printed ["ABC0"; "ABC1"; "ABC2"; "ABC3"; "ABC4"; "ABC5"; "ABC6"; "ABC7";
                     "ABC8"]%string
       ++ [passed "test_remove_node_last"]).
Proof.
  apply (proj2 (proj2 (test_remove_node_pass pick_least L_junk pick_least_fresh 11
                         ltac:(lia)))).
  reflexivity.
Defined.

Lemma test_find_pass_witness :
  ∃ m',
    test_find_middle pick_least L_junk show_ptr_dec strcmp_sign 10 (m_start 20) = Done tt m' ∧
    clean_run (m_start 20) m' [] []
      [passed "test_find_middle1"; passed "test_find_middle2"; passed "test_find_middle3"].
Proof.
  apply (proj1 (proj2 (test_find_pass pick_least L_junk show_ptr_dec strcmp_sign
                         pick_least_fresh strcmp_sign_refl 10 ltac:(lia)))).
  reflexivity.
Defined.

Lemma test_insert_front_reports_refusal_witness :
  ∃ m',
    test_insert_front_success pick_least L_junk 10
      (upd_avail (fun _ => repeat true 21 ++ [false; true]) (m_start 0)) = Done tt m' ∧
    clean_run (upd_avail (fun _ => repeat true 21 ++ [false; true]) (m_start 0)) m'
      (tail [false; true])
      ["list_lib error: Dynamic memory allocation failed.";
       "list_lib error: Function received null pointer argument."]%string
      (list_printed ["ABC0"; "ABC1"; "ABC2"; "ABC3"; "ABC4"; "ABC5"; "ABC6"; "ABC7";
                     "ABC8"; "ABC9"]%string
       ++ ["test_insert_front_success: FAIL: expected 0, got 2"%string]).
Proof.
  apply (test_insert_front_reports_refusal pick_least L_junk pick_least_fresh 10 1
           [false; true]).
  - reflexivity.
  - discriminate.
  - lia.
  - lia.
Defined.

Lemma main_passes_witness :
  ∃ m',
    main pick_least L_junk show_ptr_dec strcmp_sign true 11 (m_start 316) = Done 0 m' ∧
    nodes m' = ∅ ∧ chars m' = ∅ ∧ lists m' = ∅ ∧ avail m' = [] ∧
    stderr m' =
      ["list_lib error: Function received null pointer argument.";
       "list_lib error: Tried to initialize something with negative length."]%string ∧
    length (stdout m') = 162%nat.
Proof.
  destruct (main_passes pick_least L_junk show_ptr_dec strcmp_sign
              pick_least_fresh strcmp_sign_refl true 11 ltac:(lia) (m_start 316) [] eq_refl)
    as (m' & Hrun & [Hn Hc Hl Ha He Ho]).
  exists m'. repeat (split; [assumption|]). rewrite Ho. reflexivity.
Defined.
